(** * Hedge lifecycle and reconciliation engine: a shallow embedding

    The development follows the Python sources module by module:
    [Config] (config.py), [Monitor] (monitor.py), [Strategy]
    (strategy.py) and [TradeHistory] (trade_history.py).  Prices and
    contract counts are Python ints, modelled as [Z]; temperatures and
    durations are Python floats, idealised as exact rationals [Q];
    JSON objects keyed by strings are [gmap string _]; a dict key that
    may be absent is an [option] field (read with [.get(k, default)]). *)

From Stdlib Require Import ZArith QArith Qabs Lia Ascii String Sorted.
From stdpp Require Import gmap strings list fin_maps.

Local Open Scope Z_scope.

(** ** Python conventions shared by the modules *)
Module Py.

Inductive exn : Set := ValueError | KeyError | TypeError | VenueError.

(** The result of running a Python call: it returns or it raises. *)
Inductive outcome (A : Type) : Type :=
| Returned (a : A)
| Raised (e : exn).
Arguments Returned {A} a.
Arguments Raised {A} e.

(** [x or d] on an optional int: [None] and [0] are falsy. *)
Definition or_Z (x : option Z) (d : Z) : Z :=
  match x with
  | Some v => if v =? 0 then d else v
  | None => d
  end.

(** [try: body except Exception as e: handler(e)]. *)
Definition try_except {A} (body : outcome A) (handler : exn -> outcome A)
  : outcome A :=
  match body with
  | Returned a => Returned a
  | Raised e => handler e
  end.

(** Truthiness of an optional string ([None] and [""] are falsy). *)
Definition truthy_str (s : option string) : bool :=
  match s with
  | Some EmptyString => false
  | Some _ => true
  | None => false
  end.

(** [if k not in d: d[k] = []] then [d[k].append(x)], on a dict of
    lists kept in insertion order. *)
Fixpoint dict_append {A} (k : string) (x : A) (d : list (string * list A))
  : list (string * list A) :=
  match d with
  | [] => [(k, [x])]
  | (k', l) :: rest =>
      if String.eqb k' k then (k', l ++ [x]) :: rest
      else (k', l) :: dict_append k x rest
  end.

End Py.

(** ** config.py *)
Module Config.
Definition MAX_BUCKET_PRICE : Z := 50.
Definition MAX_TOTAL_COST : Z := 100.
Definition MIN_BUCKET_PRICE : Z := 2.

(** One entry of the MARKETS table. *)
Record MarketInfo : Type := mkMarketInfo {
  city : string;
  temp_type : string;
  nws_office : string;
  nws_gridpoint : string
}.

Definition MARKETS : list (string * MarketInfo) :=
  [ ("KXHIGHAUS"%string, mkMarketInfo "Austin" "high" "EWX" "156,91");
    ("KXHIGHNY"%string, mkMarketInfo "New York" "high" "OKX" "33,35");
    ("KXHIGHMIA"%string, mkMarketInfo "Miami" "high" "MFL" "110,50");
    ("KXHIGHTNOLA"%string, mkMarketInfo "New Orleans" "high" "LIX" "68,88");
    ("KXHIGHDEN"%string, mkMarketInfo "Denver" "high" "BOU" "63,62");
    ("KXHIGHLAX"%string, mkMarketInfo "Los Angeles" "high" "LOX" "155,45");
    ("KXHIGHCHI"%string, mkMarketInfo "Chicago" "high" "LOT" "76,73");
    ("KXHIGHPHIL"%string, mkMarketInfo "Philadelphia" "high" "PHI" "50,76");
    ("KXHIGHTSEA"%string, mkMarketInfo "Seattle" "high" "SEW" "125,68");
    ("KXHIGHTSFO"%string, mkMarketInfo "San Francisco" "high" "MTR" "85,105");
    ("KXHIGHTDC"%string, mkMarketInfo "Washington DC" "high" "LWX" "97,71");
    ("KXHIGHTLV"%string, mkMarketInfo "Las Vegas" "high" "VEF" "123,98");
    ("KXLOWTNYC"%string, mkMarketInfo "New York" "low" "OKX" "33,35");
    ("KXLOWTLAX"%string, mkMarketInfo "Los Angeles" "low" "LOX" "155,45");
    ("KXLOWTDEN"%string, mkMarketInfo "Denver" "low" "BOU" "63,62");
    ("KXLOWTCHI"%string, mkMarketInfo "Chicago" "low" "LOT" "76,73");
    ("KXLOWTMIA"%string, mkMarketInfo "Miami" "low" "MFL" "110,50");
    ("KXLOWTPHIL"%string, mkMarketInfo "Philadelphia" "low" "PHI" "50,76");
    ("KXLOWTAUS"%string, mkMarketInfo "Austin" "low" "EWX" "156,91") ].

(** [MARKETS.get(series)]. *)
Fixpoint lookup_market (series : string) (table : list (string * MarketInfo))
  : option MarketInfo :=
  match table with
  | [] => None
  | (k, info) :: rest =>
      if String.eqb k series then Some info else lookup_market series rest
  end.
End Config.

(** ** monitor.py: the position store and its reconciliation *)
Module Monitor.
Import Py.

Inductive LegStatus : Set :=
| pending | partial | filled
| derisk_sold | derisk_cancelled | won_sold | sold.

Definition LegStatus_eqb (a b : LegStatus) : bool :=
  match a, b with
  | pending, pending | partial, partial | filled, filled
  | derisk_sold, derisk_sold | derisk_cancelled, derisk_cancelled
  | won_sold, won_sold | sold, sold => true
  | _, _ => false
  end.

(** One record of positions.json.  The first eight fields are the keys
    written by [add_pending_order]; the others are added later by
    reconciliation, by the strategy and by the dashboard. *)
Record Leg : Type := mkLeg {
  ticker : string;
  side : string;
  limit_price : option Z;
  intended_count : option Z;
  count : option Z;
  order_id : option string;
  timestamp : option string;
  status : option LegStatus;
  filled_timestamp : option string;
  series : option string;
  sold_price : option Z;
  sold_timestamp : option string;
  cancelled_timestamp : option string;
  pnl : option Z;
  reprice_count : option Z
}.

(** In-place assignments to the keys of a record. *)
Definition set_fill (st : LegStatus) (c : Z) (ft : option string) (r : Leg) : Leg :=
  mkLeg (ticker r) (side r) (limit_price r) (intended_count r) (Some c)
        (order_id r) (timestamp r) (Some st) ft (series r)
        (sold_price r) (sold_timestamp r) (cancelled_timestamp r) (pnl r)
        (reprice_count r).

Definition set_reprice (p : Z) (oid : option string) (ts : string) (r : Leg) : Leg :=
  mkLeg (ticker r) (side r) (Some p) (intended_count r) (count r)
        oid (Some ts) (status r) (filled_timestamp r) (series r)
        (sold_price r) (sold_timestamp r) (cancelled_timestamp r) (pnl r)
        (Some (default 0 (reprice_count r) + 1)).

Definition set_derisk_sold (bid : Z) (ts : string) (p : Z) (r : Leg) : Leg :=
  mkLeg (ticker r) (side r) (limit_price r) (intended_count r) (count r)
        (order_id r) (timestamp r) (Some derisk_sold) (filled_timestamp r)
        (series r) (Some bid) (Some ts) (cancelled_timestamp r) (Some p)
        (reprice_count r).

Definition set_derisk_cancelled (ts : string) (r : Leg) : Leg :=
  mkLeg (ticker r) (side r) (limit_price r) (intended_count r) (count r)
        (order_id r) (timestamp r) (Some derisk_cancelled)
        (filled_timestamp r) (series r) (sold_price r) (sold_timestamp r)
        (Some ts) (pnl r) (reprice_count r).

(** The world the module acts on: positions.json ([None] when the file
    does not exist) and the number of times it has been written. *)
Record World : Type := mkWorld {
  positions_json : option (gmap string Leg);
  saves : nat
}.

(** Stateful, fallible computations over the world. *)
Definition M (A : Type) : Type := World -> outcome A * World.
Definition ret {A} (a : A) : M A := fun w => (Returned a, w).
Definition bind {A B} (m : M A) (k : A -> M B) : M B :=
  fun w => match m w with
           | (Returned a, w') => k a w'
           | (Raised e, w') => (Raised e, w')
           end.
Definition lift {A} (o : outcome A) : M A := fun w => (o, w).

Notation "'do' x <- m ; k" := (bind m (fun x => k))
  (at level 20, x name, m at level 100, k at level 200, only parsing).

Definition load_positions : M (gmap string Leg) :=
  fun w => (Returned (default ∅ (positions_json w)), w).

Definition save_positions (positions : gmap string Leg) : M unit :=
  fun w => (Returned tt, mkWorld (Some positions) (S (saves w))).

Definition add_pending_order (now : string) (ticker side : string)
    (limit_price intended_count : Z) (order_id : option string) : M unit :=
  do positions <- load_positions ;
  let key := (ticker +:+ "_" +:+ side)%string in
  save_positions
    (<[key := mkLeg ticker side (Some limit_price) (Some intended_count)
                    (Some 0) order_id (Some now) (Some pending)
                    None None None None None None None]> positions).

(** One entry of the venue's portfolio listing. *)
Record Holding : Type := mkHolding {
  h_ticker : option string;
  h_position : option Z;
  h_count : option Z
}.

(** [pos_map]: ticker -> count, later entries overwriting earlier ones. *)
Definition build_pos_map (portfolio_positions : list Holding) : gmap string Z :=
  fold_left
    (fun pos_map p =>
       let c := or_Z (h_position p) (or_Z (h_count p) 0) in
       match h_ticker p with
       | Some t => if truthy_str (Some t) then <[t := c]> pos_map else pos_map
       | None => pos_map
       end)
    portfolio_positions ∅.

Definition open_status (st : LegStatus) : bool :=
  match st with
  | pending | partial => true
  | _ => false
  end.

(** Does the loop body update this record (status in pending/partial)? *)
Definition tracked_open (rec : Leg) : bool :=
  open_status (default filled (status rec)).

(** The body of the reconciliation loop for one record; [now] is the
    clock reading taken while the record is processed. *)
Definition reconcile_rec (pos_map : gmap string Z) (now : string) (rec : Leg) : Leg :=
  if negb (tracked_open rec) then rec
  else
    let t := ticker rec in
    let intended :=
      or_Z (match intended_count rec with
            | Some v => Some v
            | None => count rec
            end) 0 in
    let filled_ct := default 0 (pos_map !! t) in
    if filled_ct <=? 0 then
      set_fill pending 0 (filled_timestamp rec) rec
    else if filled_ct <? intended then
      set_fill partial filled_ct
        (match filled_timestamp rec with
         | Some ts => Some ts
         | None => Some now
         end) rec
    else
      let prev := status rec in
      set_fill filled filled_ct
        (if match prev with Some st => LegStatus_eqb st filled | None => false end
         then filled_timestamp rec else Some now) rec.

(** The loop over [positions.items()]. *)
Definition reconcile_all (pos_map : gmap string Z) (now : string -> string)
    (positions : gmap string Leg) : gmap string Leg :=
  map_imap (fun key rec => Some (reconcile_rec pos_map (now key) rec)) positions.

(** [reconcile_pending_orders(fetch_positions_fn)].  The callback is
    given by what one call of it does: return a list (or [None]) or
    raise.  [now k] is the clock reading while the record under key
    [k] is processed. *)
Definition reconcile_pending_orders
    (fetch_positions_fn : outcome (option (list Holding)))
    (now : string -> string) : M (gmap string Leg) :=
  do positions <- load_positions ;
  if decide (positions = ∅) then ret positions
  else
    match fetch_positions_fn with
    | Raised e =>
        (* except Exception as e: print(...); return positions *)
        ret positions
    | Returned r =>
        let portfolio_positions := default [] r in
        let pos_map := build_pos_map portfolio_positions in
        let positions' := reconcile_all pos_map now positions in
        let changed :=
          bool_decide (map_Exists (fun _ rec => tracked_open rec = true) positions) in
        do _ <- (if changed then save_positions positions' else ret tt) ;
        ret positions'
    end.

(** The records the store holds ([{}] when the file is missing). *)
Definition positions_of (w : World) : gmap string Leg :=
  default ∅ (positions_json w).

(** A sequence of reconciliation passes, each with its own venue
    response and clock. *)
Fixpoint reconcile_passes
    (passes : list (outcome (option (list Holding)) * (string -> string)))
    (w : World) : World :=
  match passes with
  | [] => w
  | (fetch_positions_fn, now) :: rest =>
      reconcile_passes rest (snd (reconcile_pending_orders fetch_positions_fn now w))
  end.

(** The terminal statuses of a leg. *)
Definition is_terminal (rec : Leg) : bool :=
  match status rec with
  | Some (derisk_sold | derisk_cancelled | won_sold | sold) => true
  | _ => false
  end.

(** The statuses of the fill order pending, partial, filled. *)
Definition in_fill_order (rec : Leg) : bool :=
  match status rec with
  | Some (pending | partial | filled) => true
  | _ => false
  end.

(** Every record still being reconciled carries the intended count it
    was tracked with, as all records written by [add_pending_order] do. *)
Definition intent_recorded (positions : gmap string Leg) : Prop :=
  map_Forall (fun _ rec => tracked_open rec = true -> is_Some (intended_count rec))
             positions.

(** The keys of a record that belong to the order and to its exit, as
    opposed to the fill state (status, count, filled_timestamp). *)
Definition order_data (rec : Leg) :=
  (ticker rec, side rec, limit_price rec, intended_count rec, order_id rec,
   timestamp rec, series rec, sold_price rec, sold_timestamp rec,
   cancelled_timestamp rec, pnl rec, reprice_count rec).

End Monitor.

(** ** strategy.py: hedge discovery and the partial-fill policy *)
Module Strategy.
Import Py Config Monitor.

Definition Qlt_bool (a b : Q) : bool := negb (Qle_bool b a).

(** *** find_hedge_opportunity *)

(** One market of the event as the venue reports it. *)
Record Market : Type := mkMarket {
  m_ticker : option string;
  m_yes_sub_title : option string;
  m_title : option string;
  floor_strike : option Q;
  cap_strike : option Q;
  yes_ask : option Z;
  yes_bid : option Z
}.

(** The dict appended to [buckets]. *)
Record Bucket : Type := mkBucket {
  b_ticker : option string;
  b_title : option string;
  b_floor : option Q;
  b_cap : option Q;
  b_yes_ask : Z;
  b_yes_bid : Z;
  maker_price : Z;
  midpoint : Q
}.

(** The sort midpoint of a bucket; [None] when it has no bound at all
    (the loop then skips the market). *)
Definition midpoint_of (floor cap : option Q) : option Q :=
  match floor, cap with
  | Some f, Some c => Some ((f + c) / 2)%Q
  | None, Some c => Some (c - (1 # 2))%Q
  | Some f, None => Some (f + (1 # 2))%Q
  | None, None => None
  end.

(** The body of the first loop: [None] is [continue]. *)
Definition bucket_of_market (market : Market) : option Bucket :=
  let title :=
    if truthy_str (m_yes_sub_title market) then m_yes_sub_title market
    else m_title market in
  let floor := floor_strike market in
  let cap := cap_strike market in
  let yes_ask := or_Z (yes_ask market) 0 in
  let yes_bid := or_Z (yes_bid market) 0 in
  if yes_ask <=? 0 then None
  else
    let maker_price :=
      if negb (yes_bid =? 0) && (0 <? yes_bid)
      then Z.min (yes_bid + 1) yes_ask
      else yes_ask in
    let maker_price := Z.max 1 (Z.min 99 maker_price) in
    if maker_price <? 15 then None
    else
      match midpoint_of floor cap with
      | None => None
      | Some midpoint =>
          Some (mkBucket (m_ticker market) title floor cap yes_ask yes_bid
                         maker_price midpoint)
      end.

(** [list.sort(key=...)]: a stable sort, written as a stable insertion
    sort over the strict order [lt] of the keys. *)
Fixpoint insert_by {A} (lt : A -> A -> bool) (x : A) (l : list A) : list A :=
  match l with
  | [] => [x]
  | y :: l' => if lt y x then y :: insert_by lt x l' else x :: y :: l'
  end.

Definition sort_by {A} (lt : A -> A -> bool) (l : list A) : list A :=
  fold_right (insert_by lt) [] l.

Definition midpoint_lt (a b : Bucket) : bool := Qlt_bool (midpoint a) (midpoint b).

(** The buckets kept by the first loop, sorted by midpoint. *)
Definition build_buckets (markets : list Market) : list Bucket :=
  sort_by midpoint_lt (omap bucket_of_market markets).

(** Is the forecast inside the bucket's range? *)
Definition contains_forecast (forecast_temp : Q) (bucket : Bucket) : bool :=
  match b_floor bucket, b_cap bucket with
  | Some floor, Some cap => Qle_bool floor forecast_temp && Qlt_bool forecast_temp cap
  | None, Some cap => Qlt_bool forecast_temp cap
  | Some floor, None => Qle_bool floor forecast_temp
  | None, None => false
  end.

(** First index (counting from [i]) whose bucket contains the forecast. *)
Fixpoint containing_idx (forecast_temp : Q) (buckets : list Bucket) (i : nat)
  : option nat :=
  match buckets with
  | [] => None
  | bucket :: rest =>
      if contains_forecast forecast_temp bucket then Some i
      else containing_idx forecast_temp rest (S i)
  end.

(** The fallback loop; [best_distance = None] stands for [float('inf')]. *)
Fixpoint closest_idx (forecast_temp : Q) (buckets : list Bucket) (i : nat)
    (best_distance : option Q) (forecast_bucket_idx : option nat) : option nat :=
  match buckets with
  | [] => forecast_bucket_idx
  | bucket :: rest =>
      let distance := Qabs (midpoint bucket - forecast_temp) in
      if match best_distance with
         | None => true
         | Some d => Qlt_bool distance d
         end
      then closest_idx forecast_temp rest (S i) (Some distance) (Some i)
      else closest_idx forecast_temp rest (S i) best_distance forecast_bucket_idx
  end.

Inductive PairType : Set := bracket_below | bracket_above.

Record ValidPair : Type := mkValidPair {
  pair : Bucket * Bucket;
  total_cost : Z;
  pair_type : PairType;
  coverage_score : Q
}.

Definition candidate_pairs (forecast_bucket_idx len : nat)
  : list (nat * nat * PairType) :=
  (if (0 <? forecast_bucket_idx)%nat
   then [((forecast_bucket_idx - 1)%nat, forecast_bucket_idx, bracket_below)]
   else [])
  ++
  (if (forecast_bucket_idx + 1 <? len)%nat
   then [(forecast_bucket_idx, (forecast_bucket_idx + 1)%nat, bracket_above)]
   else []).

(** The body of the evaluation loop: [None] is [continue].  Both
    indices are in range by construction of [candidate_pairs]. *)
Definition evaluate_pair (buckets : list Bucket) (forecast_temp : Q)
    (c : nat * nat * PairType) : option ValidPair :=
  let '(i, j, pair_type) := c in
  match buckets !! i, buckets !! j with
  | Some b1, Some b2 =>
      if (MAX_BUCKET_PRICE <? maker_price b1) || (MAX_BUCKET_PRICE <? maker_price b2)
      then None
      else
        let total_cost := maker_price b1 + maker_price b2 in
        if MAX_TOTAL_COST <? total_cost then None
        else
          let coverage_low := default (- (999 # 1))%Q (b_floor b1) in
          let coverage_high := default (999 # 1)%Q (b_cap b2) in
          let distance_to_low :=
            if negb (Qeq_bool coverage_low (- (999 # 1)))
            then (forecast_temp - coverage_low)%Q else (999 # 1)%Q in
          let distance_to_high :=
            if negb (Qeq_bool coverage_high (999 # 1))
            then (coverage_high - forecast_temp)%Q else (999 # 1)%Q in
          let coverage_score :=
            if Qlt_bool distance_to_high distance_to_low
            then distance_to_high else distance_to_low in
          Some (mkValidPair (b1, b2) total_cost pair_type coverage_score)
  | _, _ => None
  end.

(** The order of the keys [(-coverage_score, total_cost)]. *)
Definition pair_key_lt (x y : ValidPair) : bool :=
  let kx := (- coverage_score x)%Q in
  let ky := (- coverage_score y)%Q in
  if Qeq_bool kx ky then total_cost x <? total_cost y else Qlt_bool kx ky.

Definition find_hedge_opportunity (markets : list Market) (forecast_temp : Q)
  : option (Bucket * Bucket * Z) :=
  let buckets := build_buckets markets in
  let forecast_bucket_idx := containing_idx forecast_temp buckets 0 in
  let forecast_bucket_idx :=
    match forecast_bucket_idx with
    | Some i => Some i
    | None => closest_idx forecast_temp buckets 0 None None
    end in
  match forecast_bucket_idx with
  | None => None
  | Some forecast_bucket_idx =>
      let valid_pairs :=
        omap (evaluate_pair buckets forecast_temp)
             (candidate_pairs forecast_bucket_idx (length buckets)) in
      match sort_by pair_key_lt valid_pairs with
      | [] => None
      | best :: _ => Some (fst (pair best), snd (pair best), total_cost best)
      end
  end.

(** *** Partial-fill monitoring *)

Definition REPRICE_INCREMENT : Z := 1.

Definition get_wait_minutes_for_hours (hours_until_close : option Q) : Z :=
  match hours_until_close with
  | None => 60
  | Some h =>
      if Qlt_bool (12 # 1) h then 120
      else if Qlt_bool (6 # 1) h then 60
      else if Qlt_bool (2 # 1) h then 20
      else 0
  end.

(** [s.replace("Z", "+00:00")]. *)
Fixpoint replace_Z (s : string) : string :=
  match s with
  | EmptyString => EmptyString
  | String c s' =>
      if Ascii.eqb c "Z"%char then ("+00:00" +:+ replace_Z s')%string
      else String c (replace_Z s')
  end.

(** [s.split(sep)[0]] for a one-character separator. *)
Fixpoint split_head (sep : Ascii.ascii) (s : string) : string :=
  match s with
  | EmptyString => EmptyString
  | String c s' => if Ascii.eqb c sep then EmptyString else String c (split_head sep s')
  end.

(** A parsed [datetime], as seconds on the time line: naive (no
    [tzinfo]), or aware of its UTC offset.  [datetime.now()] is naive,
    and Python refuses to subtract an aware value from a naive one. *)
Inductive datetime : Type := naive (t : Q) | aware (t : Q).

(** Time spent waiting: a float number of minutes or [float('inf')]. *)
Inductive Minutes : Type := Finite (m : Q) | Infinity.

(** [minutes_waiting < wait_minutes]. *)
Definition minutes_lt (m : Minutes) (wait_minutes : Z) : bool :=
  match m with
  | Finite q => Qlt_bool q (inject_Z wait_minutes)
  | Infinity => false
  end.

Record Prices : Type := mkPrices {
  p_yes_ask : option Z;
  p_yes_bid : option Z
}.

Record Hedge : Type := mkHedge {
  hedge_series : string;
  filled_key : string;
  filled_pos : Leg;
  pending_key : string;
  pending_pos : Leg
}.

Inductive Action : Set := wait | reprice | derisk.

(** Which of the reason strings the result carries. *)
Inductive Reason : Set :=
| CannotGetPrices
| Under2h
| Reprice2to6h
| MovedTooMuch2to6h
| SameOrBetter
| PlusOneCent
| UnderBudget
| OverBudget.

(** The keys of [result] other than action and reason. *)
Record Details : Type := mkDetails {
  d_filled_price : Z;
  d_original_limit : Z;
  d_current_ask : Z;
  d_current_bid : Z;
  new_maker_price : Z;
  d_hours_until_close : option Q;
  d_forecast : option Q;
  d_order_id : option string
}.

Record Evaluation : Type := mkEvaluation {
  action : Action;
  reason : Reason;
  details : option Details
}.

(** What one pass over a partial hedge appends to [actions_taken]. *)
Inductive MonitorEntry : Type :=
| WaitPeriod (remaining : Q)
| Evaluated (evaluation : Evaluation) (success : bool).

(** The new maker price of the pending leg: bid + 1 without crossing
    the ask, clamped to the venue's price bounds. *)
Definition candidate_maker_price (current_bid current_ask : Z) : Z :=
  let new_maker_price :=
    if 0 <? current_bid then Z.min (current_bid + 1) current_ask
    else current_ask in
  Z.max 1 (Z.min 99 new_maker_price).

Section Environment.

(** Python's [datetime.fromisoformat]: the parsed [datetime], or
    [None] when it raises [ValueError]. *)
Variable fromisoformat : string -> option datetime.
(** [datetime.now()] in seconds, and its [isoformat()]. *)
Variable now : Q.
Variable now_iso : string.
(** [get_hours_until_close(ticker)], a reading of the wall clock
    against the settlement date encoded in the ticker. *)
Variable get_hours_until_close : string -> option Q.
(** The venue and forecast gateways, given by their responses. *)
Variable get_market_price : string -> option Prices.
Variable get_today_forecast : string -> option Q.
Variable get_tomorrow_forecast : string -> option Q.
Variable cancel_order : string -> bool.
Variable buy : string -> Z -> option (option string).
Variable sell : string -> Z -> bool.

Definition parse_iso_datetime (dt_string : option string)
  : outcome (option datetime) :=
  match dt_string with
  | None => Returned None
  | Some s =>
      if negb (truthy_str (Some s)) then Returned None
      else
        let dt_string := replace_Z s in
        try_except
          (match fromisoformat dt_string with
           | Some t => Returned (Some t)
           | None => Raised ValueError
           end)
          (fun e =>
             match e with
             | ValueError =>
                 match fromisoformat
                         (split_head "Z"%char (split_head "+"%char dt_string)) with
                 | Some t => Returned (Some t)
                 | None => Raised ValueError
                 end
             | _ => Raised e
             end)
  end.

Definition get_time_since_order (pos : Leg) : outcome Minutes :=
  let timestamp := timestamp pos in
  if negb (truthy_str timestamp) then Returned Infinity
  else
    match parse_iso_datetime timestamp with
    | Raised e => Raised e
    | Returned None => Returned Infinity
    | Returned (Some order_time) =>
        (* delta = datetime.now() - order_time *)
        match order_time with
        | naive t => Returned (Finite ((now - t) / (60 # 1))%Q)
        | aware _ => Raised TypeError
        end
    end.

Definition evaluate_partial_fill (hedge : Hedge) (days_ahead : Z) : Evaluation :=
  let filled_pos := filled_pos hedge in
  let pending_pos := pending_pos hedge in
  let series := hedge_series hedge in
  let hours_until_close := get_hours_until_close (ticker pending_pos) in
  match get_market_price (ticker pending_pos) with
  | None => mkEvaluation wait CannotGetPrices None
  | Some current_prices =>
      let current_ask := or_Z (p_yes_ask current_prices) 0 in
      let current_bid := or_Z (p_yes_bid current_prices) 0 in
      let original_limit := default 0 (limit_price pending_pos) in
      let forecast_temp :=
        if days_ahead =? 0 then get_today_forecast series
        else get_tomorrow_forecast series in
      let new_maker_price := candidate_maker_price current_bid current_ask in
      let result :=
        mkDetails (default 0 (limit_price filled_pos)) original_limit
                  current_ask current_bid new_maker_price
                  hours_until_close forecast_temp (order_id pending_pos) in
      let price_rules :=
        let price_diff := new_maker_price - original_limit in
        if price_diff <=? 0 then mkEvaluation wait SameOrBetter (Some result)
        else if price_diff =? 1 then mkEvaluation reprice PlusOneCent (Some result)
        else
          let filled_price := default 0 (limit_price filled_pos) in
          let new_total := filled_price + new_maker_price in
          if new_total <=? MAX_TOTAL_COST
          then mkEvaluation reprice UnderBudget (Some result)
          else mkEvaluation derisk OverBudget (Some result) in
      match hours_until_close with
      | Some h =>
          if Qlt_bool h (2 # 1) then mkEvaluation derisk Under2h (Some result)
          else if Qlt_bool h (6 # 1) then
            if new_maker_price <=? original_limit + REPRICE_INCREMENT
            then mkEvaluation reprice Reprice2to6h (Some result)
            else mkEvaluation derisk MovedTooMuch2to6h (Some result)
          else price_rules
      | None => price_rules
      end
  end.

Definition execute_reprice (hedge : Hedge) (new_price : Z) : M bool :=
  let pending_pos := pending_pos hedge in
  let pending_key := pending_key hedge in
  let order_id := order_id pending_pos in
  let ticker := ticker pending_pos in
  if truthy_str order_id && negb (cancel_order (default ""%string order_id))
  then ret false
  else
    match buy ticker new_price with
    | Some new_order_id =>
        do positions <- load_positions ;
        do _ <- (match positions !! pending_key with
                 | Some rec =>
                     save_positions
                       (<[pending_key := set_reprice new_price new_order_id now_iso rec]>
                          positions)
                 | None => ret tt
                 end) ;
        ret true
    | None => ret false
    end.

Definition execute_derisk (hedge : Hedge) : M bool :=
  let filled_pos := filled_pos hedge in
  let filled_key := filled_key hedge in
  let pending_pos := pending_pos hedge in
  let pending_key := pending_key hedge in
  let ticker := ticker filled_pos in
  match get_market_price ticker with
  | None => ret false
  | Some prices =>
      let current_bid := or_Z (p_yes_bid prices) 0 in
      if current_bid <=? 0 then ret false
      else
        let entry_price := default 0 (limit_price filled_pos) in
        let pnl := current_bid - entry_price in
        let _cancelled :=
          if truthy_str (order_id pending_pos)
          then cancel_order (default ""%string (order_id pending_pos))
          else false in
        if sell ticker current_bid then
          do positions <- load_positions ;
          let positions :=
            alter (set_derisk_sold current_bid now_iso pnl) filled_key positions in
          let positions :=
            alter (set_derisk_cancelled now_iso) pending_key positions in
          do _ <- save_positions positions ;
          ret true
        else ret false
  end.

(** The body of the loop of [monitor_partial_fills] for one hedge. *)
Definition monitor_hedge (hedge : Hedge) (days_ahead : Z) : M MonitorEntry :=
  let pending_pos := pending_pos hedge in
  let hours_until_close := get_hours_until_close (ticker pending_pos) in
  let wait_minutes := get_wait_minutes_for_hours hours_until_close in
  do minutes_waiting <- lift (get_time_since_order pending_pos) ;
  if minutes_lt minutes_waiting wait_minutes then
    match minutes_waiting with
    | Finite m => ret (WaitPeriod (inject_Z wait_minutes - m)%Q)
    | Infinity => ret (WaitPeriod 0%Q) (* not reached: inf < n is False *)
    end
  else
    let evaluation := evaluate_partial_fill hedge days_ahead in
    match action evaluation with
    | reprice =>
        match details evaluation with
        | Some d =>
            do success <- execute_reprice hedge (new_maker_price d) ;
            ret (Evaluated evaluation success)
        | None => lift (Raised KeyError)
        end
    | derisk =>
        do success <- execute_derisk hedge ;
        ret (Evaluated evaluation success)
    | wait => ret (Evaluated evaluation true)
    end.

End Environment.

(** [c in s] for a one-character string [c]. *)
Fixpoint contains_char (c : Ascii.ascii) (s : string) : bool :=
  match s with
  | EmptyString => false
  | String c' s' => Ascii.eqb c' c || contains_char c s'
  end.

(** The forecast bucket of [find_hedge_opportunity]: the first bucket
    whose range contains the forecast, else the one nearest by midpoint. *)
Definition locate_forecast_bucket (forecast_temp : Q) (buckets : list Bucket)
  : option nat :=
  match containing_idx forecast_temp buckets 0 with
  | Some i => Some i
  | None => closest_idx forecast_temp buckets 0 None None
  end.

(** *** scan_all_markets *)

Record Opportunity : Type := mkOpportunity {
  o_series : string;
  o_city : string;
  o_type : string;
  o_forecast : Q;
  bucket1 : Bucket;
  bucket2 : Bucket;
  o_total_cost : Z;
  profit : Z
}.

Section Scan.

(** The forecast gateway (the forecast temperature of the dict it
    returns) and the markets of the event fetched for a series. *)
Variable get_today_forecast : string -> option Q.
Variable get_tomorrow_forecast : string -> option Q.
Variable get_market_data_for_series : string -> Z -> list Market.

(** The body of the loop over [MARKETS.items()]: [None] is [continue]. *)
Definition scan_series (days_ahead : Z) (entry : string * MarketInfo)
  : option Opportunity :=
  let '(series_ticker, market_info) := entry in
  let forecast :=
    if days_ahead =? 0 then get_today_forecast series_ticker
    else get_tomorrow_forecast series_ticker in
  match forecast with
  | None => None
  | Some forecast_temp =>
      match get_market_data_for_series series_ticker days_ahead with
      | [] => None
      | markets =>
          match find_hedge_opportunity markets forecast_temp with
          | None => None
          | Some (b1, b2, total_cost) =>
              Some (mkOpportunity series_ticker (city market_info)
                                  (temp_type market_info) forecast_temp
                                  b1 b2 total_cost (100 - total_cost))
          end
      end
  end.

(** [opportunities.sort(key=profit, reverse=True)]: stable, highest
    profit first. *)
Definition scan_all_markets (days_ahead : Z) : list Opportunity :=
  sort_by (fun x y => profit y <? profit x)
          (omap (scan_series days_ahead) MARKETS).

End Scan.

(** *** find_partial_fill_hedges *)

(** [by_series], built from [positions.items()] in file order. *)
Definition group_by_series (items : list (string * Leg))
  : list (string * list (string * Leg)) :=
  fold_left
    (fun by_series kp =>
       match series (snd kp) with
       | Some s => if truthy_str (Some s) then dict_append s kp by_series
                   else by_series
       | None => by_series
       end)
    items [].

(** What [by_series] holds once the items [p] have been read: one
    entry per non-empty series name seen, with the items of that series
    in file order. *)
Definition grouped (d : list (string * list (string * Leg)))
    (p : list (string * Leg)) : Prop :=
  NoDup d.*1
  /\ (forall s l, (s, l) ∈ d ->
                  s ≠ ""%string
                  /\ l = filter (fun kp => series (snd kp) = Some s) p)
  /\ (forall s, s ≠ ""%string ->
                filter (fun kp => series (snd kp) = Some s) p ≠ [] -> s ∈ d.*1).

(** The body of the loop over [by_series.items()]: [None] is no append. *)
Definition partial_hedge_of (entry : string * list (string * Leg)) : option Hedge :=
  let '(series, pos_list) := entry in
  match pos_list with
  | [(key1, pos1); (key2, pos2)] =>
      let status1 := default filled (status pos1) in
      let status2 := default filled (status pos2) in
      if LegStatus_eqb status1 filled && LegStatus_eqb status2 pending
      then Some (mkHedge series key1 pos1 key2 pos2)
      else if LegStatus_eqb status2 filled && LegStatus_eqb status1 pending
      then Some (mkHedge series key2 pos2 key1 pos1)
      else None
  | _ => None
  end.

(** [find_partial_fill_hedges()], over the items of the loaded store. *)
Definition find_partial_fill_hedges (items : list (string * Leg)) : list Hedge :=
  omap partial_hedge_of (group_by_series items).

End Strategy.

(** ** trade_history.py: the ledger of hedges *)
Module TradeHistory.
Import Py.
Import Monitor (LegStatus(..)).

(** A leg as stored inside a trade record. *)
Record TradeLeg : Type := mkTradeLeg {
  key : string;
  title : option string;
  order_price : option Z;
  fill_price : option Z;
  leg_status : option LegStatus;
  leg_sold_price : option Z;
  leg_sold_timestamp : option string;
  leg_cancelled_timestamp : option string;
  leg_pnl : option Z
}.

Inductive Outcome : Set := open | win | loss | derisked.

Inductive ExitType : Set := exit_win | exit_loss | exit_derisk.

Record Exit : Type := mkExit {
  exit_type : ExitType;
  exit_timestamp : string;
  exit_sold_leg : option string;
  exit_sold_price : option Z;
  exit_entry_price : option Z;
  exit_pnl : Z
}.

Record Trade : Type := mkTrade {
  id : string;
  market_date : option string;
  leg1 : TradeLeg;
  leg2 : TradeLeg;
  total_cost : Z;
  outcome : Outcome;
  actual_temp : option Q;
  winning_bucket : option string;
  pnl : option Z;
  exit : option Exit;
  updated_at : option string;
  settled_at : option string
}.

(** [next((t for t in history["trades"] if t["id"] == trade_id), None)]. *)
Fixpoint lookup_trade (trade_id : string) (trades : list Trade) : option Trade :=
  match trades with
  | [] => None
  | t :: rest =>
      if String.eqb (id t) trade_id then Some t else lookup_trade trade_id rest
  end.

(** The in-place mutation of the trade found by [lookup_trade]. *)
Fixpoint modify_trade (trade_id : string) (f : Trade -> Trade)
    (trades : list Trade) : list Trade :=
  match trades with
  | [] => []
  | t :: rest =>
      if String.eqb (id t) trade_id then f t :: rest
      else t :: modify_trade trade_id f rest
  end.

(** [leg.get("fill_price") or leg.get("order_price", 0)]. *)
Definition entry_price_of (leg : TradeLeg) : Z :=
  or_Z (fill_price leg) (default 0 (order_price leg)).

Definition mark_won_sold (sold_price : Z) (now : string) (leg : TradeLeg) : TradeLeg :=
  mkTradeLeg (key leg) (title leg) (order_price leg) (fill_price leg)
             (Some won_sold) (Some sold_price) (Some now)
             (leg_cancelled_timestamp leg) (leg_pnl leg).

Definition mark_derisk_sold (sold_price : Z) (now : string) (p : Z)
    (leg : TradeLeg) : TradeLeg :=
  mkTradeLeg (key leg) (title leg) (order_price leg) (fill_price leg)
             (Some derisk_sold) (Some sold_price) (Some now)
             (leg_cancelled_timestamp leg) (Some p).

Definition mark_derisk_cancelled (now : string) (leg : TradeLeg) : TradeLeg :=
  mkTradeLeg (key leg) (title leg) (order_price leg) (fill_price leg)
             (Some derisk_cancelled) (leg_sold_price leg)
             (leg_sold_timestamp leg) (Some now) (leg_pnl leg).

(** The ledger functions act on the list of trades of the history
    file and return their boolean result with the list as saved.  The
    summary block of the file is recomputed from the trades and holds
    no trade data, so it is not part of the state here. *)

Definition record_win (now : string) (trade_id winning_leg_key : string)
    (actual_temp : option Q) (sold_price : Z) (trades : list Trade)
  : bool * list Trade :=
  match lookup_trade trade_id trades with
  | None => (false, trades)
  | Some trade =>
      if String.eqb (key (leg1 trade)) winning_leg_key then
        (true,
         modify_trade trade_id
           (fun t =>
              let pnl := 100 - total_cost t in
              mkTrade (id t) (market_date t)
                      (mark_won_sold sold_price now (leg1 t)) (leg2 t)
                      (total_cost t) win actual_temp (title (leg1 t))
                      (Some pnl)
                      (Some (mkExit exit_win now None (Some sold_price) None pnl))
                      (Some now) (Some now))
           trades)
      else if String.eqb (key (leg2 trade)) winning_leg_key then
        (true,
         modify_trade trade_id
           (fun t =>
              let pnl := 100 - total_cost t in
              mkTrade (id t) (market_date t)
                      (leg1 t) (mark_won_sold sold_price now (leg2 t))
                      (total_cost t) win actual_temp (title (leg2 t))
                      (Some pnl)
                      (Some (mkExit exit_win now None (Some sold_price) None pnl))
                      (Some now) (Some now))
           trades)
      else (false, trades)
  end.

Definition record_loss (now : string) (trade_id : string)
    (actual_temp : option Q) (trades : list Trade) : bool * list Trade :=
  match lookup_trade trade_id trades with
  | None => (false, trades)
  | Some trade =>
      (true,
       modify_trade trade_id
         (fun t =>
            let pnl := - total_cost t in
            mkTrade (id t) (market_date t) (leg1 t) (leg2 t)
                    (total_cost t) loss actual_temp (winning_bucket t)
                    (Some pnl)
                    (Some (mkExit exit_loss now None None None pnl))
                    (Some now) (Some now))
         trades)
  end.

Definition record_derisk (now : string) (trade_id sold_leg_key : string)
    (sold_price : Z) (cancelled_leg_key : string) (trades : list Trade)
  : bool * list Trade :=
  match lookup_trade trade_id trades with
  | None => (false, trades)
  | Some trade =>
      (true,
       modify_trade trade_id
         (fun t =>
            if String.eqb (key (leg1 t)) sold_leg_key then
              let entry_price := entry_price_of (leg1 t) in
              let pnl := sold_price - entry_price in
              mkTrade (id t) (market_date t)
                      (mark_derisk_sold sold_price now pnl (leg1 t))
                      (mark_derisk_cancelled now (leg2 t))
                      (total_cost t) derisked (actual_temp t) (winning_bucket t)
                      (Some pnl)
                      (Some (mkExit exit_derisk now (Some sold_leg_key)
                                    (Some sold_price) (Some entry_price) pnl))
                      (Some now) (Some now)
            else
              let entry_price := entry_price_of (leg2 t) in
              let pnl := sold_price - entry_price in
              mkTrade (id t) (market_date t)
                      (mark_derisk_cancelled now (leg1 t))
                      (mark_derisk_sold sold_price now pnl (leg2 t))
                      (total_cost t) derisked (actual_temp t) (winning_bucket t)
                      (Some pnl)
                      (Some (mkExit exit_derisk now (Some sold_leg_key)
                                    (Some sold_price) (Some entry_price) pnl))
                      (Some now) (Some now))
         trades)
  end.

(** The leg [record_derisk] treats as the sold one. *)
Definition sold_leg_of (sold_leg_key : string) (trade : Trade) : TradeLeg :=
  if String.eqb (key (leg1 trade)) sold_leg_key then leg1 trade else leg2 trade.

Definition mark_sold (sold_price : Z) (sold_timestamp : string) (leg : TradeLeg)
  : TradeLeg :=
  mkTradeLeg (key leg) (title leg) (order_price leg) (fill_price leg)
             (Some sold) (Some sold_price) (Some sold_timestamp)
             (leg_cancelled_timestamp leg)
             (Some (sold_price - entry_price_of leg)).

Definition record_sale (now : string) (trade_id leg_key : string)
    (sold_price : Z) (sold_timestamp : option string) (trades : list Trade)
  : bool * list Trade :=
  match lookup_trade trade_id trades with
  | None => (false, trades)
  | Some trade =>
      let sold_timestamp :=
        if truthy_str sold_timestamp then default now sold_timestamp else now in
      if String.eqb (key (leg1 trade)) leg_key then
        (true,
         modify_trade trade_id
           (fun t =>
              mkTrade (id t) (market_date t)
                      (mark_sold sold_price sold_timestamp (leg1 t)) (leg2 t)
                      (total_cost t) (outcome t) (actual_temp t)
                      (winning_bucket t) (pnl t) (exit t) (Some now)
                      (settled_at t))
           trades)
      else if String.eqb (key (leg2 trade)) leg_key then
        (true,
         modify_trade trade_id
           (fun t =>
              mkTrade (id t) (market_date t)
                      (leg1 t) (mark_sold sold_price sold_timestamp (leg2 t))
                      (total_cost t) (outcome t) (actual_temp t)
                      (winning_bucket t) (pnl t) (exit t) (Some now)
                      (settled_at t))
           trades)
      else (false, trades)
  end.

(** *** _update_summary *)

(** The ten keys of a per-date summary and of the totals. *)
Record Stats : Type := mkStats {
  s_wins : Z;
  s_losses : Z;
  s_derisked : Z;
  s_open : Z;
  s_total_trades : Z;
  s_won_profit : Z;
  s_lost_loss : Z;
  s_derisk_pnl : Z;
  s_net_profit : Z;
  s_total_invested : Z
}.

Record Summary : Type := mkSummary {
  by_date : list (string * Stats);
  totals : Stats
}.

(** [sum(...)] over ints. *)
Definition sumZ (l : list Z) : Z := fold_left Z.add l 0.

Definition Outcome_eqb (a b : Outcome) : bool :=
  match a, b with
  | open, open | win, win | loss, loss | derisked, derisked => true
  | _, _ => false
  end.

(** [sum(1 for t in trades if t.get("outcome") == o)]. *)
Definition count_outcome (o : Outcome) (trades : list Trade) : Z :=
  sumZ (map (fun t => if Outcome_eqb (outcome t) o then 1 else 0) trades).

(** The running counters of the loop over the trades of one date:
    won_profit, lost_loss, derisk_pnl, wins, losses, derisked, open. *)
Record Tally : Type := mkTally {
  t_won_profit : Z;
  t_lost_loss : Z;
  t_derisk_pnl : Z;
  t_wins : Z;
  t_losses : Z;
  t_derisked : Z;
  t_open : Z
}.

Definition tally_trade (a : Tally) (trade : Trade) : Tally :=
  match outcome trade with
  | win =>
      mkTally (t_won_profit a + (100 - total_cost trade)) (t_lost_loss a)
              (t_derisk_pnl a) (t_wins a + 1) (t_losses a) (t_derisked a) (t_open a)
  | loss =>
      mkTally (t_won_profit a) (t_lost_loss a + total_cost trade)
              (t_derisk_pnl a) (t_wins a) (t_losses a + 1) (t_derisked a) (t_open a)
  | derisked =>
      mkTally (t_won_profit a) (t_lost_loss a)
              (t_derisk_pnl a + or_Z (pnl trade) 0) (t_wins a) (t_losses a)
              (t_derisked a + 1) (t_open a)
  | open =>
      mkTally (t_won_profit a) (t_lost_loss a) (t_derisk_pnl a) (t_wins a)
              (t_losses a) (t_derisked a) (t_open a + 1)
  end.

(** The summary of the trades of one date. *)
Definition date_stats (date_trades : list Trade) : Stats :=
  let a := fold_left tally_trade date_trades (mkTally 0 0 0 0 0 0 0) in
  mkStats (t_wins a) (t_losses a) (t_derisked a) (t_open a)
          (Z.of_nat (length date_trades))
          (t_won_profit a) (t_lost_loss a) (t_derisk_pnl a)
          (t_won_profit a - t_lost_loss a + t_derisk_pnl a)
          (sumZ (map total_cost date_trades)).

(** [by_date]: the trades grouped by market date, in first-seen order. *)
Definition group_by_date (trades : list Trade) : list (string * list Trade) :=
  fold_left
    (fun by_date trade =>
       dict_append (default "unknown"%string (market_date trade)) trade by_date)
    trades [].

(** The summary block [_update_summary] stores in the history. *)
Definition _update_summary (trades : list Trade) : Summary :=
  let by_date := group_by_date trades in
  let daily_summaries :=
    map (fun entry => (fst entry, date_stats (snd entry)))
        (Strategy.sort_by (fun x y => String.ltb (fst x) (fst y)) by_date) in
  let total_won_profit := sumZ (map (fun d => s_won_profit (snd d)) daily_summaries) in
  let total_lost_loss := sumZ (map (fun d => s_lost_loss (snd d)) daily_summaries) in
  let total_derisk_pnl := sumZ (map (fun d => s_derisk_pnl (snd d)) daily_summaries) in
  mkSummary daily_summaries
    (mkStats (count_outcome win trades) (count_outcome loss trades)
             (count_outcome derisked trades) (count_outcome open trades)
             (Z.of_nat (length trades))
             total_won_profit total_lost_loss total_derisk_pnl
             (total_won_profit - total_lost_loss + total_derisk_pnl)
             (sumZ (map total_cost trades))).

(** What one trade contributes to the realised result. *)
Definition realised (trade : Trade) : Z :=
  match outcome trade with
  | win => 100 - total_cost trade
  | loss => - total_cost trade
  | derisked => or_Z (pnl trade) 0
  | open => 0
  end.

(** One call that settles or updates a trade of the ledger. *)
Inductive LedgerCall : Type :=
| CallWin (now trade_id winning_leg_key : string) (actual_temp : option Q)
          (sold_price : Z)
| CallLoss (now trade_id : string) (actual_temp : option Q)
| CallDerisk (now trade_id sold_leg_key : string) (sold_price : Z)
             (cancelled_leg_key : string)
| CallSale (now trade_id leg_key : string) (sold_price : Z)
           (sold_timestamp : option string).

Definition run_call (call : LedgerCall) (trades : list Trade) : bool * list Trade :=
  match call with
  | CallWin now trade_id k actual_temp sold_price =>
      record_win now trade_id k actual_temp sold_price trades
  | CallLoss now trade_id actual_temp => record_loss now trade_id actual_temp trades
  | CallDerisk now trade_id k sold_price cancelled =>
      record_derisk now trade_id k sold_price cancelled trades
  | CallSale now trade_id k sold_price ts =>
      record_sale now trade_id k sold_price ts trades
  end.

(** The trade a call addresses. *)
Definition call_id (call : LedgerCall) : string :=
  match call with
  | CallWin _ trade_id _ _ _ | CallLoss _ trade_id _
  | CallDerisk _ trade_id _ _ _ | CallSale _ trade_id _ _ _ => trade_id
  end.

Definition run_calls (calls : list LedgerCall) (trades : list Trade) : list Trade :=
  fold_left (fun trades call => snd (run_call call trades)) calls trades.

End TradeHistory.

(** ** nws_forecast.py: the forecast of a market for a day *)
Module NwsForecast.
Import Py Config.

(** The start of an hourly period as a naive datetime: its calendar
    day (a day number) and its clock time as [strftime] prints it. *)
Record Datetime : Type := mkDatetime {
  dt_date : Z;
  dt_clock : string
}.

(** The dict returned by [get_forecast_for_market]. *)
Record Forecast : Type := mkForecast {
  f_city : string;
  f_type : string;
  target_date : Z;
  forecast_high : option Z;
  forecast_low : option Z;
  forecast_temp : Z;
  f_time : string;
  hourly_temps : list Z;
  min_temp : Z;
  max_temp : Z
}.

(** [max(day_temps, key=lambda x: x[1])] and [min(...)] on a list given
    by its first element and the rest: the first extreme element. *)
Fixpoint max_by_temp (best : Datetime * Z) (rest : list (Datetime * Z))
  : Datetime * Z :=
  match rest with
  | [] => best
  | x :: rest' => max_by_temp (if snd best <? snd x then x else best) rest'
  end.

Fixpoint min_by_temp (best : Datetime * Z) (rest : list (Datetime * Z))
  : Datetime * Z :=
  match rest with
  | [] => best
  | x :: rest' => min_by_temp (if snd x <? snd best then x else best) rest'
  end.

Section Gateway.

(** [get_nws_forecast(office, gridpoint)]: the hourly periods, or
    [None] when the fetch fails. *)
Variable get_nws_forecast : string -> string -> option (list (Datetime * Z)).

Definition get_forecast_for_market (series_ticker : string) (target : Z)
  : option Forecast :=
  match lookup_market series_ticker MARKETS with
  | None => None
  | Some market =>
      match get_nws_forecast (nws_office market) (nws_gridpoint market) with
      | None => None
      | Some forecast =>
          let day_temps :=
            filter (fun p => dt_date (fst p) = target) forecast in
          match day_temps with
          | [] => None
          | first :: rest =>
              let temps_only := map snd day_temps in
              let lowest := fold_left Z.min (map snd rest) (snd first) in
              let highest := fold_left Z.max (map snd rest) (snd first) in
              if String.eqb (temp_type market) "high" then
                let '(target_dt, target_temp) := max_by_temp first rest in
                Some (mkForecast (city market) "high" target (Some target_temp)
                                 None target_temp (dt_clock target_dt)
                                 temps_only lowest highest)
              else
                let '(target_dt, target_temp) := min_by_temp first rest in
                Some (mkForecast (city market) "low" target None
                                 (Some target_temp) target_temp
                                 (dt_clock target_dt) temps_only lowest highest)
          end
      end
  end.

End Gateway.

End NwsForecast.

(** ** The operations that write positions.json *)
Module Lifecycle.
Import Py Monitor Strategy.

(** One store-writing step of the program, with the responses it gets
    from the venue and the clock. *)
Inductive StoreOp : Type :=
| OpTrack (now ticker side : string) (limit_price intended_count : Z)
          (order_id : option string)
| OpReconcile (fetch_positions_fn : outcome (option (list Holding)))
              (now : string -> string)
| OpReprice (now_iso : string) (cancel_order : string -> bool)
            (buy : string -> Z -> option (option string))
            (hedge : Hedge) (new_price : Z)
| OpDerisk (now_iso : string) (get_market_price : string -> option Prices)
           (cancel_order : string -> bool) (sell : string -> Z -> bool)
           (hedge : Hedge).

Definition run_op (op : StoreOp) (w : World) : World :=
  match op with
  | OpTrack now ticker side limit_price intended_count order_id =>
      snd (add_pending_order now ticker side limit_price intended_count order_id w)
  | OpReconcile fetch_positions_fn now =>
      snd (reconcile_pending_orders fetch_positions_fn now w)
  | OpReprice now_iso cancel_order buy hedge new_price =>
      snd (execute_reprice now_iso cancel_order buy hedge new_price w)
  | OpDerisk now_iso get_market_price cancel_order sell hedge =>
      snd (execute_derisk now_iso get_market_price cancel_order sell hedge w)
  end.

Definition run_ops (ops : list StoreOp) (w : World) : World :=
  fold_left (fun w op => run_op op w) ops w.

(** The store before anything was tracked: no positions.json yet. *)
Definition fresh_world : World := mkWorld None 0.

(** What every record written by the program looks like. *)
Definition well_tracked (key : string) (rec : Leg) : Prop :=
  key = (ticker rec +:+ "_" +:+ side rec)%string
  /\ is_Some (limit_price rec)
  /\ is_Some (intended_count rec)
  /\ is_Some (timestamp rec)
  /\ is_Some (status rec)
  /\ exists c, count rec = Some c /\ 0 <= c.

End Lifecycle.

(** ** Sample data used by the closed examples *)
Module Samples.
Import Py Monitor.

Definition ny_ticker : string := "KXHIGHNY-26JAN27-B40.5".
Definition ny_key : string := "KXHIGHNY-26JAN27-B40.5_yes".

(** A leg of two contracts, one of which the venue has filled. *)
Definition partial_leg : Leg :=
  mkLeg ny_ticker "yes" (Some 38) (Some 2) (Some 1) (Some "ord-1")
        (Some "2026-01-26T09:00:00") (Some partial)
        (Some "2026-01-26T09:05:00") None None None None None None.

Definition partial_world : World :=
  mkWorld (Some {[ ny_key := partial_leg ]}) 3.

Definition clock (_ : string) : string := "2026-01-26T10:00:00".

(** The venue reports one contract held on the ticker. *)
Definition one_held : outcome (option (list Holding)) :=
  Returned (Some [mkHolding (Some ny_ticker) (Some 1) None]).

(** The venue reports no holdings at all. *)
Definition none_held : outcome (option (list Holding)) :=
  Returned (Some []).

(** A record without the intended_count key, read back through the
    count fallback of the reconciliation loop. *)
Definition legacy_leg : Leg :=
  mkLeg ny_ticker "yes" (Some 38) None (Some 5) None None (Some pending)
        None None None None None None None.

Definition legacy_world : World := mkWorld (Some {[ ny_key := legacy_leg ]}) 0.

Definition three_held : outcome (option (list Holding)) :=
  Returned (Some [mkHolding (Some ny_ticker) (Some 3) None]).

(** An "X or below" market: no floor, cap 50, bid 29, ask 30. *)
Definition below_50 : Strategy.Market :=
  Strategy.mkMarket (Some "KXHIGHNY-26JAN27-T50") (Some "49 or below") None
                    None (Some (50 # 1)%Q) (Some 30) (Some 29).

(** The two buckets of the discovery example: 49 to 50 quoted 37/39
    and 50 or above quoted 21/25. *)
Definition bucket_49_50 : Strategy.Market :=
  Strategy.mkMarket (Some "KXHIGHNY-26JAN27-B49.5") (Some "49 to 50") None
                    (Some (49 # 1)%Q) (Some (50 # 1)%Q) (Some 39) (Some 37).

Definition bucket_50_up : Strategy.Market :=
  Strategy.mkMarket (Some "KXHIGHNY-26JAN27-T50") (Some "50 or above") None
                    (Some (50 # 1)%Q) None (Some 25) (Some 21).

(** The partial hedge of the policy example: the filled leg was
    bought at 38, the pending leg is ordered at 30. *)
Definition filled_leg_38 : Leg :=
  mkLeg "KXHIGHNY-26JAN27-B49.5" "yes" (Some 38) (Some 1) (Some 1)
        (Some "ord-a") (Some "2026-01-26T09:00:00") (Some filled)
        (Some "2026-01-26T09:02:00") (Some "KXHIGHNY") None None None None None.

Definition pending_leg_30 : Leg :=
  mkLeg "KXHIGHNY-26JAN27-T50" "yes" (Some 30) (Some 1) (Some 0)
        (Some "ord-b") (Some "2026-01-26T09:00:00") (Some pending)
        None (Some "KXHIGHNY") None None None None None.

Definition hedge_38_30 : Strategy.Hedge :=
  Strategy.mkHedge "KXHIGHNY" "KXHIGHNY-26JAN27-B49.5_yes" filled_leg_38
                   "KXHIGHNY-26JAN27-T50_yes" pending_leg_30.

(** The pending leg is quoted bid 35, ask 37. *)
Definition quote_35_37 (_ : string) : option Strategy.Prices :=
  Some (Strategy.mkPrices (Some 37) (Some 35)).

(** The venue gives no quote. *)
Definition no_quote (_ : string) : option Strategy.Prices := None.

Definition forecast_50 (_ : string) : option Q := Some (50 # 1)%Q.

(** Clock readings: 8 hours, 3 hours and 1.5 hours before the close. *)
Definition close_in_8h (_ : string) : option Q := Some (8 # 1)%Q.
Definition close_in_3h (_ : string) : option Q := Some (3 # 1)%Q.
Definition close_in_1h30 (_ : string) : option Q := Some (3 # 2)%Q.

(** The same pending leg with a timestamp that is not a date. *)
Definition pending_leg_bad_timestamp : Leg :=
  mkLeg "KXHIGHNY-26JAN27-T50" "yes" (Some 30) (Some 1) (Some 0)
        (Some "ord-b") (Some "not-a-date") (Some pending)
        None (Some "KXHIGHNY") None None None None None.

Definition hedge_bad_timestamp : Strategy.Hedge :=
  Strategy.mkHedge "KXHIGHNY" "KXHIGHNY-26JAN27-B49.5_yes" filled_leg_38
                   "KXHIGHNY-26JAN27-T50_yes" pending_leg_bad_timestamp.

(** The same pending leg with a timestamp in UTC notation. *)
Definition pending_leg_utc_timestamp : Leg :=
  mkLeg "KXHIGHNY-26JAN27-T50" "yes" (Some 30) (Some 1) (Some 0)
        (Some "ord-b") (Some "2026-01-26T09:00:00Z") (Some pending)
        None (Some "KXHIGHNY") None None None None None.

Definition hedge_utc_timestamp : Strategy.Hedge :=
  Strategy.mkHedge "KXHIGHNY" "KXHIGHNY-26JAN27-B49.5_yes" filled_leg_38
                   "KXHIGHNY-26JAN27-T50_yes" pending_leg_utc_timestamp.

(** A stand-in for [datetime.fromisoformat] that accepts the one
    timestamp of the examples, as a naive datetime without a zone and
    as an aware one with the offset +00:00, and rejects every other
    string. *)
Definition fromisoformat_sample (s : string) : option Strategy.datetime :=
  if String.eqb s "2026-01-26T09:00:00" then Some (Strategy.naive (0 # 1)%Q)
  else if String.eqb s "2026-01-26T09:00:00+00:00"
       then Some (Strategy.aware (0 # 1)%Q)
       else None.

(** Venue responses of the examples. *)
Definition cancel_accepted (_ : string) : bool := true.
Definition buy_rejected (_ : string) (_ : Z) : option (option string) := None.
Definition sell_rejected (_ : string) (_ : Z) : bool := false.

(** A ledger with one open trade: legs bought at 38 and 22. *)
Definition leg_38 : TradeHistory.TradeLeg :=
  TradeHistory.mkTradeLeg "KXHIGHNY-26JAN27-B49.5_yes" (Some "49 to 50")
    (Some 38) (Some 38) (Some filled) None None None None.

Definition leg_22 : TradeHistory.TradeLeg :=
  TradeHistory.mkTradeLeg "KXHIGHNY-26JAN27-T50_yes" (Some "50 or above")
    (Some 22) (Some 22) (Some filled) None None None None.

Definition trade_60 : TradeHistory.Trade :=
  TradeHistory.mkTrade "KXHIGHNY_2026-01-27" (Some "2026-01-27") leg_38 leg_22
    60 TradeHistory.open None None None None (Some "2026-01-26T09:00:00") None.

Definition ledger : list TradeHistory.Trade := [trade_60].

(** A store whose only leg is filled. *)
Definition filled_world : World :=
  mkWorld (Some {[ "KXHIGHNY-26JAN27-B49.5_yes"%string := filled_leg_38 ]}) 1.

(** The bucket records discovery builds from the two example markets. *)
Definition built_49_50 : Strategy.Bucket :=
  Strategy.mkBucket (Some "KXHIGHNY-26JAN27-B49.5"%string) (Some "49 to 50"%string)
                    (Some (49 # 1)%Q) (Some (50 # 1)%Q) 39 37 38 (99 # 2)%Q.

Definition built_50_up : Strategy.Bucket :=
  Strategy.mkBucket (Some "KXHIGHNY-26JAN27-T50"%string) (Some "50 or above"%string)
                    (Some (50 # 1)%Q) None 25 21 22 (101 # 2)%Q.

(** Hourly periods for New York: 40 and 45 degrees on day 27, 30 on
    day 28. *)
Definition ny_periods (_ _ : string)
  : option (list (NwsForecast.Datetime * Z)) :=
  Some [(NwsForecast.mkDatetime 27 "09:00 AM", 40);
        (NwsForecast.mkDatetime 27 "02:00 PM", 45);
        (NwsForecast.mkDatetime 28 "09:00 AM", 30)].

Definition ny_forecast_27 : NwsForecast.Forecast :=
  NwsForecast.mkForecast "New York" "high" 27 (Some 45) None 45 "02:00 PM"
                         [40; 45] 40 45.

(** A second trade of the ledger examples, settled as a loss. *)
Definition trade_55_lost : TradeHistory.Trade :=
  TradeHistory.mkTrade "KXHIGHDEN_2026-01-27" (Some "2026-01-27") leg_38 leg_22
    55 TradeHistory.loss None None (Some (-55)) None
    (Some "2026-01-26T09:00:00") (Some "2026-01-28T00:10:00").

End Samples.

(** * Properties of the position store (monitor.py) *)
Module MonitorProofs.
Import Py Monitor.

(** Read the fields of an updated record without touching arithmetic. *)
Ltac leg_fields :=
  cbn [set_fill status default from_option id ticker intended_count count
       filled_timestamp open_status negb LegStatus_eqb].

Lemma reconcile_rec_closed pos_map now rec :
  tracked_open rec = false -> reconcile_rec pos_map now rec = rec.
Proof. intros H. unfold reconcile_rec. now rewrite H. Qed.

(** What one pass does to an open record, by the venue count. *)
Lemma reconcile_rec_open pos_map now rec :
  tracked_open rec = true ->
  let c := default 0 (pos_map !! ticker rec) in
  let intended :=
    or_Z (match intended_count rec with Some v => Some v | None => count rec end) 0 in
  (c <= 0 -> status (reconcile_rec pos_map now rec) = Some pending) /\
  (0 < c < intended -> status (reconcile_rec pos_map now rec) = Some partial) /\
  (0 < c -> intended <= c -> status (reconcile_rec pos_map now rec) = Some filled).
Proof.
  intros Hopen c intended. unfold reconcile_rec. rewrite Hopen. cbn [negb].
  fold c. fold intended.
  repeat split; intros.
  - destruct (Z.leb_spec c 0); [reflexivity | lia].
  - destruct (Z.leb_spec c 0); [lia |].
    destruct (Z.ltb_spec c intended); [reflexivity | lia].
  - destruct (Z.leb_spec c 0); [lia |].
    destruct (Z.ltb_spec c intended); [lia | reflexivity].
Qed.

Lemma reconcile_rec_not_terminal pos_map now rec :
  tracked_open rec = true -> is_terminal (reconcile_rec pos_map now rec) = false.
Proof.
  intros Hopen. unfold reconcile_rec. rewrite Hopen. cbn [negb].
  destruct (_ <=? 0); [reflexivity |].
  destruct (_ <? _); reflexivity.
Qed.

Lemma reconcile_rec_terminal_inv pos_map now rec :
  is_terminal (reconcile_rec pos_map now rec) = true ->
  reconcile_rec pos_map now rec = rec.
Proof.
  intros Ht. destruct (tracked_open rec) eqn:Hopen.
  - rewrite reconcile_rec_not_terminal in Ht by assumption. discriminate.
  - now apply reconcile_rec_closed.
Qed.

Lemma reconcile_rec_idem pos_map now1 now2 rec :
  (tracked_open rec = true -> is_Some (intended_count rec)) ->
  reconcile_rec pos_map now2 (reconcile_rec pos_map now1 rec)
  = reconcile_rec pos_map now1 rec.
Proof.
  intros Hint. destruct (tracked_open rec) eqn:Hopen.
  2:{ rewrite (reconcile_rec_closed _ now1) by assumption.
      now apply reconcile_rec_closed. }
  destruct (Hint eq_refl) as [n Hn]. clear Hint.
  destruct rec as [t sd lp ic ct oid ts st ft sr sp sts cts pl rc].
  cbn in Hn. subst ic.
  unfold reconcile_rec, tracked_open in *. cbn [status default ticker
    intended_count count filled_timestamp] in *.
  rewrite Hopen. cbn [negb].
  destruct (default 0 (pos_map !! t) <=? 0) eqn:H0.
  - leg_fields. rewrite H0. reflexivity.
  - destruct (default 0 (pos_map !! t) <? or_Z (Some n) 0) eqn:H1.
    + leg_fields. rewrite H0, H1. destruct ft; reflexivity.
    + leg_fields. reflexivity.
Qed.

Lemma lookup_reconcile_all pos_map now (positions : gmap string Leg) k :
  reconcile_all pos_map now positions !! k
  = reconcile_rec pos_map (now k) <$> positions !! k.
Proof.
  unfold reconcile_all. rewrite map_lookup_imap.
  destruct (positions !! k); reflexivity.
Qed.

Lemma reconcile_all_idem pos_map now1 now2 (positions : gmap string Leg) :
  intent_recorded positions ->
  reconcile_all pos_map now2 (reconcile_all pos_map now1 positions)
  = reconcile_all pos_map now1 positions.
Proof.
  intros Hwf. apply map_eq. intros k.
  rewrite !lookup_reconcile_all.
  destruct (positions !! k) as [rec|] eqn:Hk; [|reflexivity].
  cbn. f_equal. apply reconcile_rec_idem. exact (Hwf k rec Hk).
Qed.

Lemma reconcile_all_unchanged pos_map now (positions : gmap string Leg) :
  ¬ map_Exists (fun _ rec => tracked_open rec = true) positions ->
  reconcile_all pos_map now positions = positions.
Proof.
  intros Hno. apply map_eq. intros k. rewrite lookup_reconcile_all.
  destruct (positions !! k) as [rec|] eqn:Hk; [|reflexivity].
  cbn. f_equal. apply reconcile_rec_closed.
  destruct (tracked_open rec) eqn:Hopen; [|reflexivity].
  exfalso. apply Hno. exists k, rec. split; assumption.
Qed.

Lemma reconcile_all_empty pos_map now (positions : gmap string Leg) :
  reconcile_all pos_map now positions = ∅ -> positions = ∅.
Proof.
  intros He. apply map_eq. intros k. rewrite lookup_empty.
  assert (H := lookup_reconcile_all pos_map now positions k).
  rewrite He, lookup_empty in H.
  destruct (positions !! k); [discriminate | reflexivity].
Qed.

(** The three ways a pass ends. *)
Lemma reconcile_no_positions fetch now w :
  positions_of w = ∅ ->
  reconcile_pending_orders fetch now w = (Returned ∅, w).
Proof.
  intros He. unfold reconcile_pending_orders, bind, load_positions, ret.
  fold (positions_of w). rewrite He.
  destruct (decide _) as [_|Hne]; [reflexivity | now destruct Hne].
Qed.

Lemma reconcile_fetch_raised e now w :
  reconcile_pending_orders (Raised e) now w = (Returned (positions_of w), w).
Proof.
  unfold reconcile_pending_orders, bind, load_positions, ret.
  fold (positions_of w). destruct (decide _); reflexivity.
Qed.

Lemma reconcile_fetch_returned r now w :
  positions_of w ≠ ∅ ->
  reconcile_pending_orders (Returned r) now w =
  (Returned (reconcile_all (build_pos_map (default [] r)) now (positions_of w)),
   if bool_decide (map_Exists (fun _ rec => tracked_open rec = true) (positions_of w))
   then mkWorld (Some (reconcile_all (build_pos_map (default [] r)) now (positions_of w)))
                (S (saves w))
   else w).
Proof.
  intros Hne. unfold reconcile_pending_orders, bind, load_positions, ret.
  fold (positions_of w).
  destruct (decide _) as [He|_]; [now destruct Hne |].
  cbn. destruct (bool_decide _); reflexivity.
Qed.

(** The records after a pass, whatever way it ended. *)
Lemma positions_after_pass fetch now w :
  exists pos_map,
    positions_of (snd (reconcile_pending_orders fetch now w))
    = reconcile_all pos_map now (positions_of w)
    \/ positions_of (snd (reconcile_pending_orders fetch now w)) = positions_of w.
Proof.
  exists (match fetch with
          | Returned r => build_pos_map (default [] r)
          | Raised _ => ∅
          end).
  destruct (decide (positions_of w = ∅)) as [He|Hne].
  { right. now rewrite reconcile_no_positions. }
  destruct fetch as [r|e].
  - rewrite reconcile_fetch_returned by assumption. cbn [snd].
    destruct (bool_decide _); [left; reflexivity | right; reflexivity].
  - right. now rewrite reconcile_fetch_raised.
Qed.

Lemma lookup_after_pass fetch now w k rec :
  positions_of w !! k = Some rec ->
  exists pos_map,
    positions_of (snd (reconcile_pending_orders fetch now w)) !! k
    = Some (reconcile_rec pos_map (now k) rec)
    \/ positions_of (snd (reconcile_pending_orders fetch now w)) !! k = Some rec.
Proof.
  intros Hk. destruct (positions_after_pass fetch now w) as [pm [H|H]].
  - exists pm. left. rewrite H, lookup_reconcile_all, Hk. reflexivity.
  - exists pm. right. now rewrite H.
Qed.

Lemma reconcile_rec_fill_order pos_map now rec :
  in_fill_order rec = true -> in_fill_order (reconcile_rec pos_map now rec) = true.
Proof.
  intros Hin. destruct (tracked_open rec) eqn:Hopen.
  - unfold reconcile_rec. rewrite Hopen. cbn [negb].
    destruct (_ <=? 0); [reflexivity |].
    destruct (_ <? _); reflexivity.
  - now rewrite reconcile_rec_closed.
Qed.

(** C4 (as the code has it).  On a store whose pending and partial
    records carry their intended count, as every record written by
    [add_pending_order] does, reconciling twice against the same
    venue snapshot gives the store one reconciliation gives: the
    second call leaves positions.json (hence every leg's status,
    count and fill timestamp) as the first call left it and returns
    the same records, whatever the clock readings of the two calls. *)
Theorem reconcile_twice_same_snapshot fetch now1 now2 w :
  intent_recorded (positions_of w) ->
  positions_json
    (snd (reconcile_pending_orders fetch now2
            (snd (reconcile_pending_orders fetch now1 w))))
  = positions_json (snd (reconcile_pending_orders fetch now1 w))
  /\ fst (reconcile_pending_orders fetch now2
            (snd (reconcile_pending_orders fetch now1 w)))
     = fst (reconcile_pending_orders fetch now1 w).
Proof.
  intros Hwf.
  destruct (decide (positions_of w = ∅)) as [He|Hne].
  { rewrite (reconcile_no_positions fetch now1 w He). cbn [snd fst].
    rewrite (reconcile_no_positions fetch now2 w He). split; reflexivity. }
  destruct fetch as [r|e].
  2:{ rewrite !reconcile_fetch_raised. split; reflexivity. }
  rewrite (reconcile_fetch_returned r now1 w Hne). cbn [snd fst].
  set (pm := build_pos_map (default [] r)).
  set (p' := reconcile_all pm now1 (positions_of w)).
  assert (Hp' : p' ≠ ∅).
  { intros He. apply Hne. exact (reconcile_all_empty _ _ _ He). }
  destruct (bool_decide (map_Exists (fun _ rec => tracked_open rec = true)
                                    (positions_of w))) eqn:Hch.
  - assert (Hpos : positions_of (mkWorld (Some p') (S (saves w))) = p') by reflexivity.
    rewrite reconcile_fetch_returned by (rewrite Hpos; exact Hp').
    rewrite Hpos. fold pm. unfold p'.
    rewrite reconcile_all_idem by exact Hwf. fold p'. cbn [snd fst].
    split; [|reflexivity].
    destruct (bool_decide (map_Exists (fun _ rec => tracked_open rec = true) p'));
      reflexivity.
  - apply bool_decide_eq_false in Hch.
    assert (Hsame : forall now, reconcile_all pm now (positions_of w) = positions_of w).
    { intros now. now apply reconcile_all_unchanged. }
    rewrite reconcile_fetch_returned by exact Hne. fold pm.
    unfold p'. rewrite !Hsame. cbn [snd fst].
    split; [|reflexivity].
    destruct (bool_decide (map_Exists (fun _ rec => tracked_open rec = true)
                                      (positions_of w))); [|reflexivity].
    cbn. unfold positions_of in *. destruct (positions_json w); [reflexivity|].
    now destruct Hne.
Qed.

Lemma sample_intent_recorded : intent_recorded (positions_of Samples.partial_world).
Proof.
  unfold intent_recorded, Samples.partial_world, positions_of. cbn [positions_json default from_option id].
  apply map_Forall_singleton. intros _. exists 2. reflexivity.
Defined.

Lemma reconcile_twice_same_snapshot_witness :
  positions_json
    (snd (reconcile_pending_orders Samples.one_held Samples.clock
            (snd (reconcile_pending_orders Samples.one_held Samples.clock
                    Samples.partial_world))))
  = positions_json
      (snd (reconcile_pending_orders Samples.one_held Samples.clock
              Samples.partial_world))
  /\ fst (reconcile_pending_orders Samples.one_held Samples.clock
            (snd (reconcile_pending_orders Samples.one_held Samples.clock
                    Samples.partial_world)))
     = fst (reconcile_pending_orders Samples.one_held Samples.clock
              Samples.partial_world).
Proof.
  apply (reconcile_twice_same_snapshot Samples.one_held Samples.clock
           Samples.clock Samples.partial_world).
  exact sample_intent_recorded.
Defined.

(** C8 (as the code has it).  When the venue holdings query raises,
    reconciliation writes nothing, leaves every record as it was, and
    returns the loaded records to its caller as a normal result: the
    failure is caught and not raised again. *)
Theorem reconcile_fetch_failure_contained e now w :
  reconcile_pending_orders (Raised e) now w = (Returned (positions_of w), w).
Proof. apply reconcile_fetch_raised. Qed.

(** C8, the claim as stated fails: on a failing venue query the call
    returns normally instead of raising to its caller. *)
Lemma reconcile_fetch_failure_not_propagated :
  ¬ (exists e,
       fst (reconcile_pending_orders (Raised VenueError) Samples.clock
              Samples.partial_world) = Raised e).
Proof.
  rewrite reconcile_fetch_raised. cbn [fst]. intros [e He]. discriminate He.
Qed.

(** C5 (as the code has it).  [add_pending_order] never fails: for any
    key, fresh or already tracked in any status, it stores a new
    record in status pending with count 0 under [ticker_side],
    replacing whatever record was there, and leaves the other keys
    alone. *)
Theorem add_pending_order_overwrites now t sd lp ic oid w :
  exists w',
    add_pending_order now t sd lp ic oid w = (Returned tt, w')
    /\ positions_of w' !! (t +:+ "_" +:+ sd)%string
       = Some (mkLeg t sd (Some lp) (Some ic) (Some 0) oid (Some now)
                     (Some pending) None None None None None None None)
    /\ (forall k, k ≠ (t +:+ "_" +:+ sd)%string ->
                  positions_of w' !! k = positions_of w !! k).
Proof.
  unfold add_pending_order, bind, load_positions, save_positions.
  eexists. split; [reflexivity|].
  cbn [positions_of positions_json default from_option id].
  split.
  - apply lookup_insert_eq.
  - intros k Hk. now rewrite lookup_insert_ne.
Qed.

(** C5, the claim as stated fails: recording an intent for a key that
    is tracked in the non-terminal status partial raises nothing and
    replaces the tracked record. *)
Lemma add_pending_order_duplicate_key :
  positions_of Samples.partial_world !! Samples.ny_key = Some Samples.partial_leg
  /\ is_terminal Samples.partial_leg = false
  /\ fst (add_pending_order "2026-01-26T10:00:00" Samples.ny_ticker "yes" 40 1
            (Some "ord-2"%string) Samples.partial_world) = Returned tt
  /\ positions_of
       (snd (add_pending_order "2026-01-26T10:00:00" Samples.ny_ticker "yes" 40 1
               (Some "ord-2"%string) Samples.partial_world))
     !! Samples.ny_key
     ≠ Some Samples.partial_leg.
Proof.
  split; [apply lookup_singleton_eq|].
  split; [reflexivity|]. split; [reflexivity|].
  cbn [add_pending_order bind load_positions save_positions snd positions_of
       positions_json default from_option id Samples.partial_world].
  change (Samples.ny_ticker +:+ "_" +:+ "yes")%string with Samples.ny_key.
  rewrite lookup_insert_eq. discriminate.
Qed.




(** The stores the program builds satisfy [intent_recorded]: the empty
    store does, and tracking an order and reconciling keep it. *)
Lemma intent_recorded_empty : intent_recorded ∅.
Proof. apply map_Forall_empty. Qed.

Lemma intent_recorded_add now t sd lp ic oid w :
  intent_recorded (positions_of w) ->
  intent_recorded (positions_of (snd (add_pending_order now t sd lp ic oid w))).
Proof.
  intros Hwf. unfold add_pending_order, bind, load_positions, save_positions.
  cbn [snd positions_of positions_json default from_option id].
  apply map_Forall_insert_2; [|exact Hwf].
  intros _. exists ic. reflexivity.
Qed.

Lemma reconcile_rec_intended pos_map now rec :
  intended_count (reconcile_rec pos_map now rec) = intended_count rec.
Proof.
  unfold reconcile_rec. destruct (negb _); [reflexivity|].
  destruct (_ <=? 0); [reflexivity|]. destruct (_ <? _); reflexivity.
Qed.

Lemma intent_recorded_reconcile fetch now w :
  intent_recorded (positions_of w) ->
  intent_recorded (positions_of (snd (reconcile_pending_orders fetch now w))).
Proof.
  intros Hwf. destruct (positions_after_pass fetch now w) as [pm [H|H]];
    rewrite H; [|exact Hwf].
  intros k rec' Hk Hopen. rewrite lookup_reconcile_all in Hk.
  destruct (positions_of w !! k) as [rec|] eqn:Hrec; [|discriminate].
  cbn in Hk. injection Hk as <-. rewrite reconcile_rec_intended.
  apply (Hwf k rec Hrec).
  destruct (tracked_open rec) eqn:Ho; [reflexivity|].
  rewrite reconcile_rec_closed in Hopen by exact Ho. congruence.
Qed.

(** C4, the claim as stated fails: a pending record without the
    intended_count key is compared against its own count, which the
    first pass lowers to the venue's 3, so a second pass against the
    same snapshot moves it from partial to filled. *)
Example legacy_record_second_pass :
  (status <$> positions_of (reconcile_passes [(Samples.three_held, Samples.clock)]
                              Samples.legacy_world) !! Samples.ny_key)
  = Some (Some partial)
  /\ (status <$> positions_of
                   (reconcile_passes [(Samples.three_held, Samples.clock);
                                      (Samples.three_held, Samples.clock)]
                      Samples.legacy_world) !! Samples.ny_key)
     = Some (Some filled).
Proof. split; vm_compute; reflexivity. Qed.

End MonitorProofs.

(** * Properties of hedge discovery (strategy.py) *)
Module DiscoveryProofs.
Import Py Config Strategy.

Lemma Qlt_bool_true a b : Qlt_bool a b = true <-> (a < b)%Q.
Proof.
  unfold Qlt_bool. rewrite negb_true_iff. split.
  - intros H. apply Qnot_le_lt. intros Hle.
    apply Qle_bool_iff in Hle. congruence.
  - intros H. destruct (Qle_bool b a) eqn:E; [|reflexivity].
    apply Qle_bool_iff in E. exfalso. exact (Qlt_not_le _ _ H E).
Qed.

Lemma Qlt_bool_false a b : Qlt_bool a b = false <-> (b <= a)%Q.
Proof.
  unfold Qlt_bool. rewrite negb_false_iff. apply Qle_bool_iff.
Qed.

Section Sorting.
Context {A : Type} (lt : A -> A -> bool).

Lemma insert_by_perm x l : insert_by lt x l ≡ₚ x :: l.
Proof.
  induction l as [|y l IH]; cbn; [reflexivity|].
  destruct (lt y x); [|reflexivity].
  rewrite IH. apply Permutation_swap.
Qed.

Lemma sort_by_perm l : sort_by lt l ≡ₚ l.
Proof.
  induction l as [|x l IH]; cbn; [reflexivity|].
  rewrite insert_by_perm. now rewrite IH.
Qed.

Lemma elem_of_sort_by x l : x ∈ sort_by lt l <-> x ∈ l.
Proof. now rewrite sort_by_perm. Qed.

(** Sortedness for any relation that [lt] decides the right way. *)
Variable R : A -> A -> Prop.
Hypothesis lt_true : forall a b, lt a b = true -> R a b.
Hypothesis lt_false : forall a b, lt a b = false -> R b a.

Lemma insert_by_HdRel y x l :
  R y x -> HdRel R y l -> HdRel R y (insert_by lt x l).
Proof.
  intros Hyx Hhd. destruct l as [|z l]; cbn.
  - now constructor.
  - destruct (lt z x); constructor; [|assumption].
    now inversion Hhd.
Qed.

Lemma insert_by_sorted x l : Sorted R l -> Sorted R (insert_by lt x l).
Proof.
  induction 1 as [|y l Hs IH Hhd]; cbn.
  - repeat constructor.
  - destruct (lt y x) eqn:E.
    + constructor; [exact IH|]. apply insert_by_HdRel; auto.
    + constructor; [now constructor|]. constructor. auto.
Qed.

Lemma sort_by_sorted l : Sorted R (sort_by lt l).
Proof.
  induction l as [|x l IH]; cbn; [constructor|].
  now apply insert_by_sorted.
Qed.
End Sorting.

(** Every bucket the first loop keeps has its maker price in 15..99. *)
Lemma bucket_of_market_price market bucket :
  bucket_of_market market = Some bucket -> 15 <= maker_price bucket <= 99.
Proof.
  unfold bucket_of_market. intros H.
  destruct (_ <=? 0); [discriminate|].
  match type of H with
  | context [Z.max 1 (Z.min 99 ?m)] => set (mp := Z.max 1 (Z.min 99 m)) in *
  end.
  destruct (Z.ltb_spec mp 15); [discriminate|].
  destruct (midpoint_of _ _); [|discriminate].
  injection H as <-. cbn [maker_price]. subst mp. lia.
Qed.

Lemma bucket_of_market_midpoint market bucket :
  bucket_of_market market = Some bucket ->
  midpoint_of (b_floor bucket) (b_cap bucket) = Some (midpoint bucket).
Proof.
  unfold bucket_of_market. intros H.
  destruct (_ <=? 0); [discriminate|].
  destruct (_ <? 15); [discriminate|].
  destruct (midpoint_of _ _) eqn:E; [|discriminate].
  injection H as <-. exact E.
Qed.

Lemma build_buckets_price markets bucket :
  bucket ∈ build_buckets markets -> 15 <= maker_price bucket <= 99.
Proof.
  unfold build_buckets. rewrite elem_of_sort_by, list_elem_of_omap.
  intros [m [_ Hm]]. exact (bucket_of_market_price m bucket Hm).
Qed.

Lemma evaluate_pair_sound buckets forecast_temp c vp :
  evaluate_pair buckets forecast_temp c = Some vp ->
  fst (pair vp) ∈ buckets /\ snd (pair vp) ∈ buckets
  /\ maker_price (fst (pair vp)) <= MAX_BUCKET_PRICE
  /\ maker_price (snd (pair vp)) <= MAX_BUCKET_PRICE
  /\ total_cost vp = maker_price (fst (pair vp)) + maker_price (snd (pair vp))
  /\ total_cost vp <= MAX_TOTAL_COST.
Proof.
  destruct c as [[i j] pt]. unfold evaluate_pair.
  destruct (buckets !! i) as [b1|] eqn:Hi; [|discriminate].
  destruct (buckets !! j) as [b2|] eqn:Hj; [|discriminate].
  destruct (Z.ltb_spec MAX_BUCKET_PRICE (maker_price b1)); [discriminate|].
  destruct (Z.ltb_spec MAX_BUCKET_PRICE (maker_price b2)); [discriminate|].
  cbn [orb].
  destruct (Z.ltb_spec MAX_TOTAL_COST (maker_price b1 + maker_price b2));
    [discriminate|].
  intros Heq. injection Heq as <-. cbn [pair total_cost fst snd].
  repeat split; try assumption; try reflexivity.
  - eapply list_elem_of_lookup_2; eassumption.
  - eapply list_elem_of_lookup_2; eassumption.
Qed.

(** C1.  Whatever the bucket snapshot and the forecast, a pair returned
    by hedge discovery has both maker prices between MIN_BUCKET_PRICE
    and MAX_BUCKET_PRICE, their sum at most MAX_TOTAL_COST, and the
    returned total cost is that sum. *)
Theorem find_hedge_opportunity_prices markets forecast_temp b1 b2 cost :
  find_hedge_opportunity markets forecast_temp = Some (b1, b2, cost) ->
  MIN_BUCKET_PRICE <= maker_price b1 <= MAX_BUCKET_PRICE
  /\ MIN_BUCKET_PRICE <= maker_price b2 <= MAX_BUCKET_PRICE
  /\ maker_price b1 + maker_price b2 <= MAX_TOTAL_COST
  /\ cost = maker_price b1 + maker_price b2.
Proof.
  unfold find_hedge_opportunity.
  set (buckets := build_buckets markets).
  destruct (match containing_idx forecast_temp buckets 0 with
            | Some i => Some i
            | None => closest_idx forecast_temp buckets 0 None None
            end) as [idx|]; [|discriminate].
  set (valid := omap _ _).
  destruct (sort_by pair_key_lt valid) as [|best rest] eqn:Hs; [discriminate|].
  intros H. injection H as <- <- <-.
  assert (Hin : best ∈ valid).
  { apply (elem_of_sort_by pair_key_lt). rewrite Hs. left. }
  apply list_elem_of_omap in Hin as [c [_ Hc]].
  apply evaluate_pair_sound in Hc as (H1 & H2 & Hp1 & Hp2 & Ht & Hle).
  apply build_buckets_price in H1, H2.
  unfold MIN_BUCKET_PRICE, MAX_BUCKET_PRICE, MAX_TOTAL_COST in *.
  rewrite Ht in Hle. lia.
Qed.

Lemma find_hedge_opportunity_prices_witness :
  MIN_BUCKET_PRICE <= 38 <= MAX_BUCKET_PRICE
  /\ MIN_BUCKET_PRICE <= 22 <= MAX_BUCKET_PRICE
  /\ 38 + 22 <= MAX_TOTAL_COST
  /\ 60 = 38 + 22.
Proof.
  apply (find_hedge_opportunity_prices
           [Samples.bucket_50_up; Samples.bucket_49_50] (497 # 10)%Q
           (mkBucket (Some "KXHIGHNY-26JAN27-B49.5"%string)
                     (Some "49 to 50"%string) (Some (49 # 1)%Q)
                     (Some (50 # 1)%Q) 39 37 38 (99 # 2)%Q)
           (mkBucket (Some "KXHIGHNY-26JAN27-T50"%string)
                     (Some "50 or above"%string) (Some (50 # 1)%Q) None
                     25 21 22 (101 # 2)%Q)
           60).
  vm_compute. reflexivity.
Defined.

(** C9 (as the code has it).  A bucket kept by discovery that has
    only a cap gets the midpoint cap - 0.5, and one that has only a
    floor gets floor + 0.5: half a degree from the one bound on the
    bucket's own side of it.  The kept buckets are exactly the
    buckets built from the markets, in ascending order of midpoint. *)
Theorem open_ended_midpoint markets market bucket :
  market ∈ markets ->
  bucket_of_market market = Some bucket ->
  (forall cap, b_floor bucket = None -> b_cap bucket = Some cap ->
               midpoint bucket = (cap - (1 # 2))%Q
               /\ contains_forecast (midpoint bucket) bucket = true)
  /\ (forall floor, b_floor bucket = Some floor -> b_cap bucket = None ->
                    midpoint bucket = (floor + (1 # 2))%Q
                    /\ contains_forecast (midpoint bucket) bucket = true)
  /\ bucket ∈ build_buckets markets
  /\ build_buckets markets ≡ₚ omap bucket_of_market markets
  /\ Sorted (fun a b => (midpoint a <= midpoint b)%Q) (build_buckets markets).
Proof.
  intros Hin Hb. pose proof (bucket_of_market_midpoint _ _ Hb) as Hm.
  split; [|split; [|split; [|split]]].
  - intros cap Hf Hc. rewrite Hf, Hc in Hm. cbn in Hm. injection Hm as <-.
    split; [reflexivity|].
    unfold contains_forecast. rewrite Hf, Hc.
    apply Qlt_bool_true. rewrite <- (Qplus_0_r cap) at 2.
    apply Qplus_lt_r. reflexivity.
  - intros floor Hf Hc. rewrite Hf, Hc in Hm. cbn in Hm. injection Hm as <-.
    split; [reflexivity|].
    unfold contains_forecast. rewrite Hf, Hc.
    apply Qle_bool_iff. rewrite <- (Qplus_0_r floor) at 1.
    apply Qplus_le_r. discriminate.
  - unfold build_buckets. rewrite elem_of_sort_by, list_elem_of_omap. eauto.
  - apply sort_by_perm.
  - apply sort_by_sorted.
    + intros a b Hlt. apply Qlt_le_weak. now apply Qlt_bool_true.
    + intros a b Hlt. now apply Qlt_bool_false.
Qed.

Lemma open_ended_midpoint_witness :
  exists bucket,
    bucket_of_market Samples.below_50 = Some bucket
    /\ (forall cap, b_floor bucket = None -> b_cap bucket = Some cap ->
                    midpoint bucket = (cap - (1 # 2))%Q
                    /\ contains_forecast (midpoint bucket) bucket = true)
    /\ (forall floor, b_floor bucket = Some floor -> b_cap bucket = None ->
                      midpoint bucket = (floor + (1 # 2))%Q
                      /\ contains_forecast (midpoint bucket) bucket = true)
    /\ bucket ∈ build_buckets [Samples.bucket_49_50; Samples.below_50]
    /\ build_buckets [Samples.bucket_49_50; Samples.below_50]
       ≡ₚ omap bucket_of_market [Samples.bucket_49_50; Samples.below_50]
    /\ Sorted (fun a b => (midpoint a <= midpoint b)%Q)
              (build_buckets [Samples.bucket_49_50; Samples.below_50]).
Proof.
  eexists. split; [vm_compute; reflexivity|].
  apply (open_ended_midpoint [Samples.bucket_49_50; Samples.below_50]
           Samples.below_50).
  - right. left.
  - vm_compute. reflexivity.
Defined.

(** C9, the claim as stated fails: the cap-only bucket "49 or below"
    with cap 50 gets the midpoint 49.5, which lies below its cap and
    inside the bucket's own range, not half a degree beyond the cap. *)
Lemma cap_only_midpoint_below_cap :
  exists bucket,
    bucket_of_market Samples.below_50 = Some bucket
    /\ b_floor bucket = None
    /\ b_cap bucket = Some (50 # 1)%Q
    /\ (midpoint bucket == 99 # 2)%Q
    /\ ¬ (midpoint bucket == 101 # 2)%Q
    /\ (midpoint bucket < 50 # 1)%Q
    /\ contains_forecast (midpoint bucket) bucket = true.
Proof.
  eexists. split; [vm_compute; reflexivity|].
  cbn [b_floor b_cap midpoint].
  repeat split; try reflexivity.
  intros H. vm_compute in H. discriminate.
Qed.

End DiscoveryProofs.

(** * Properties of the partial-fill policy (strategy.py) *)
Module PolicyProofs.
Import Py Config Monitor Strategy.
Import DiscoveryProofs.

Section Policy.
Variable get_hours_until_close : string -> option Q.
Variable get_market_price : string -> option Prices.
Variable get_today_forecast get_tomorrow_forecast : string -> option Q.

Local Abbreviation evaluate :=
  (evaluate_partial_fill get_hours_until_close get_market_price
                         get_today_forecast get_tomorrow_forecast).

(** [x or 0] is the value of [x], or 0 without one. *)
Lemma or_Z_0 x : or_Z x 0 = default 0 x.
Proof. destruct x as [v|]; cbn; [|reflexivity]. now destruct (Z.eqb_spec v 0). Qed.

(** What the evaluation returns once the quote is in hand. *)
Lemma evaluate_without_prices hedge days_ahead :
  get_market_price (ticker (pending_pos hedge)) = None ->
  evaluate hedge days_ahead = mkEvaluation wait CannotGetPrices None.
Proof. intros H. unfold evaluate, evaluate_partial_fill. now rewrite H. Qed.

Lemma evaluate_under_2h hedge days_ahead h prices :
  get_hours_until_close (ticker (pending_pos hedge)) = Some h ->
  get_market_price (ticker (pending_pos hedge)) = Some prices ->
  (h < 2 # 1)%Q ->
  action (evaluate hedge days_ahead) = derisk.
Proof.
  intros Hh Hp Hlt. unfold evaluate, evaluate_partial_fill.
  rewrite Hp, Hh. apply Qlt_bool_true in Hlt. rewrite Hlt. reflexivity.
Qed.

Lemma evaluate_2_to_6h hedge days_ahead h prices :
  get_hours_until_close (ticker (pending_pos hedge)) = Some h ->
  get_market_price (ticker (pending_pos hedge)) = Some prices ->
  (2 # 1 <= h)%Q -> (h < 6 # 1)%Q ->
  let candidate :=
    candidate_maker_price (or_Z (p_yes_bid prices) 0) (or_Z (p_yes_ask prices) 0) in
  let original_limit := default 0 (limit_price (pending_pos hedge)) in
  (candidate <= original_limit + REPRICE_INCREMENT ->
   action (evaluate hedge days_ahead) = reprice
   /\ (new_maker_price <$> details (evaluate hedge days_ahead)) = Some candidate)
  /\ (original_limit + REPRICE_INCREMENT < candidate ->
      action (evaluate hedge days_ahead) = derisk).
Proof.
  intros Hh Hp H2 H6 candidate original_limit.
  unfold evaluate, evaluate_partial_fill. rewrite Hp, Hh.
  apply Qlt_bool_false in H2. apply Qlt_bool_true in H6. rewrite H2, H6.
  fold candidate. fold original_limit.
  destruct (Z.leb_spec candidate (original_limit + REPRICE_INCREMENT)).
  - split; [intros _; split; reflexivity | lia].
  - split; [lia | reflexivity].
Qed.

Lemma evaluate_from_6h hedge days_ahead h prices :
  get_hours_until_close (ticker (pending_pos hedge)) = Some h ->
  get_market_price (ticker (pending_pos hedge)) = Some prices ->
  (6 # 1 <= h)%Q ->
  let candidate :=
    candidate_maker_price (or_Z (p_yes_bid prices) 0) (or_Z (p_yes_ask prices) 0) in
  let delta := candidate - default 0 (limit_price (pending_pos hedge)) in
  let filled_price := default 0 (limit_price (filled_pos hedge)) in
  (delta <= 0 -> action (evaluate hedge days_ahead) = wait)
  /\ (delta = 1 -> action (evaluate hedge days_ahead) = reprice)
  /\ (1 < delta -> filled_price + candidate <= MAX_TOTAL_COST ->
      action (evaluate hedge days_ahead) = reprice
      /\ (new_maker_price <$> details (evaluate hedge days_ahead)) = Some candidate)
  /\ (1 < delta -> MAX_TOTAL_COST < filled_price + candidate ->
      action (evaluate hedge days_ahead) = derisk).
Proof.
  intros Hh Hp H6 candidate delta filled_price.
  unfold evaluate, evaluate_partial_fill. rewrite Hp, Hh.
  assert (H2 : (2 # 1 <= h)%Q) by (eapply Qle_trans; [|exact H6]; discriminate).
  apply Qlt_bool_false in H2, H6. rewrite H2, H6.
  fold candidate. fold delta. fold filled_price.
  destruct (Z.leb_spec delta 0).
  { repeat split; intros; solve [reflexivity | lia]. }
  destruct (Z.eqb_spec delta 1).
  { repeat split; intros; solve [reflexivity | lia]. }
  destruct (Z.leb_spec (filled_price + candidate) MAX_TOTAL_COST);
    repeat split; intros; solve [reflexivity | lia].
Qed.

(** C6 (as the code has it).  With fewer than 6 hours to the close
    of the pending leg: when the venue gives no quote for it the
    decision is wait; when it does, under 2 hours the decision is
    derisk whatever the quote, and from 2 hours on it is reprice to
    the candidate maker price when that price is at most the reprice
    increment above the original limit, and derisk otherwise.  The
    candidate maker price is bid + 1 capped at the ask when the quote
    has a positive bid, and the ask when it has none, clamped to
    1..99. *)
Theorem close_proximity_decision hedge days_ahead h :
  get_hours_until_close (ticker (pending_pos hedge)) = Some h ->
  (h < 6 # 1)%Q ->
  (get_market_price (ticker (pending_pos hedge)) = None ->
   action (evaluate hedge days_ahead) = wait)
  /\ (forall prices,
        get_market_price (ticker (pending_pos hedge)) = Some prices ->
        let bid := default 0 (p_yes_bid prices) in
        let ask := default 0 (p_yes_ask prices) in
        let candidate :=
          Z.max 1 (Z.min 99 (if 0 <? bid then Z.min (bid + 1) ask else ask)) in
        let original_limit := default 0 (limit_price (pending_pos hedge)) in
        ((h < 2 # 1)%Q -> action (evaluate hedge days_ahead) = derisk)
        /\ ((2 # 1 <= h)%Q ->
            candidate <= original_limit + REPRICE_INCREMENT ->
            action (evaluate hedge days_ahead) = reprice
            /\ (new_maker_price <$> details (evaluate hedge days_ahead))
               = Some candidate)
        /\ ((2 # 1 <= h)%Q ->
            original_limit + REPRICE_INCREMENT < candidate ->
            action (evaluate hedge days_ahead) = derisk)).
Proof.
  intros Hh H6. split.
  - intros Hp. now rewrite evaluate_without_prices.
  - intros prices Hp bid ask candidate original_limit.
    assert (Hc : candidate
                 = candidate_maker_price (or_Z (p_yes_bid prices) 0)
                                         (or_Z (p_yes_ask prices) 0)).
    { unfold candidate, bid, ask, candidate_maker_price.
      now rewrite !or_Z_0. }
    rewrite Hc. split; [|split].
    + intros H2. eapply evaluate_under_2h; eassumption.
    + intros H2. exact (proj1 (evaluate_2_to_6h hedge days_ahead h prices Hh Hp H2 H6)).
    + intros H2. exact (proj2 (evaluate_2_to_6h hedge days_ahead h prices Hh Hp H2 H6)).
Qed.

(** C7.  With at least 6 hours to the close and the quote of the
    pending leg in hand, let the candidate maker price be bid + 1
    capped at the ask (the ask itself when the quote has no positive
    bid), clamped to 1..99, and let delta be that price minus the
    original limit: delta <= 0 gives wait, delta = 1 gives reprice,
    and delta > 1 gives reprice to the candidate when the filled
    leg's price plus the candidate is at most MAX_TOTAL_COST and
    derisk otherwise. *)
Theorem normal_horizon_decision hedge days_ahead h prices :
  get_hours_until_close (ticker (pending_pos hedge)) = Some h ->
  get_market_price (ticker (pending_pos hedge)) = Some prices ->
  (6 # 1 <= h)%Q ->
  let bid := default 0 (p_yes_bid prices) in
  let ask := default 0 (p_yes_ask prices) in
  let candidate :=
    Z.max 1 (Z.min 99 (if 0 <? bid then Z.min (bid + 1) ask else ask)) in
  let delta := candidate - default 0 (limit_price (pending_pos hedge)) in
  let filled_price := default 0 (limit_price (filled_pos hedge)) in
  (delta <= 0 -> action (evaluate hedge days_ahead) = wait)
  /\ (delta = 1 -> action (evaluate hedge days_ahead) = reprice)
  /\ (1 < delta -> filled_price + candidate <= MAX_TOTAL_COST ->
      action (evaluate hedge days_ahead) = reprice
      /\ (new_maker_price <$> details (evaluate hedge days_ahead)) = Some candidate)
  /\ (1 < delta -> MAX_TOTAL_COST < filled_price + candidate ->
      action (evaluate hedge days_ahead) = derisk).
Proof.
  intros Hh Hp H6 bid ask candidate.
  assert (Hc : candidate
               = candidate_maker_price (or_Z (p_yes_bid prices) 0)
                                       (or_Z (p_yes_ask prices) 0)).
  { unfold candidate, bid, ask, candidate_maker_price. now rewrite !or_Z_0. }
  rewrite Hc. exact (evaluate_from_6h hedge days_ahead h prices Hh Hp H6).
Qed.

End Policy.

Lemma close_proximity_decision_witness :
  (Samples.quote_35_37 (ticker (pending_pos Samples.hedge_38_30)) = None ->
   action (evaluate_partial_fill Samples.close_in_3h Samples.quote_35_37
             Samples.forecast_50 Samples.forecast_50 Samples.hedge_38_30 1) = wait)
  /\ (forall prices,
        Samples.quote_35_37 (ticker (pending_pos Samples.hedge_38_30)) = Some prices ->
        let bid := default 0 (p_yes_bid prices) in
        let ask := default 0 (p_yes_ask prices) in
        let candidate :=
          Z.max 1 (Z.min 99 (if 0 <? bid then Z.min (bid + 1) ask else ask)) in
        let original_limit :=
          default 0 (limit_price (pending_pos Samples.hedge_38_30)) in
        ((3 # 1 < 2 # 1)%Q ->
         action (evaluate_partial_fill Samples.close_in_3h Samples.quote_35_37
                   Samples.forecast_50 Samples.forecast_50
                   Samples.hedge_38_30 1) = derisk)
        /\ ((2 # 1 <= 3 # 1)%Q ->
            candidate <= original_limit + REPRICE_INCREMENT ->
            action (evaluate_partial_fill Samples.close_in_3h Samples.quote_35_37
                      Samples.forecast_50 Samples.forecast_50
                      Samples.hedge_38_30 1) = reprice
            /\ (new_maker_price
                  <$> details (evaluate_partial_fill Samples.close_in_3h
                                 Samples.quote_35_37 Samples.forecast_50
                                 Samples.forecast_50 Samples.hedge_38_30 1))
               = Some candidate)
        /\ ((2 # 1 <= 3 # 1)%Q ->
            original_limit + REPRICE_INCREMENT < candidate ->
            action (evaluate_partial_fill Samples.close_in_3h Samples.quote_35_37
                      Samples.forecast_50 Samples.forecast_50
                      Samples.hedge_38_30 1) = derisk)).
Proof.
  apply (close_proximity_decision Samples.close_in_3h Samples.quote_35_37
           Samples.forecast_50 Samples.forecast_50 Samples.hedge_38_30 1 (3 # 1)%Q).
  - reflexivity.
  - reflexivity.
Defined.

(** C6, the claim as stated fails: 1.5 hours before the close, with no
    quote available for the pending leg, the decision is wait. *)
Lemma under_2h_without_quote_waits :
  Samples.close_in_1h30 (ticker (pending_pos Samples.hedge_38_30)) = Some (3 # 2)%Q
  /\ (3 # 2 < 2 # 1)%Q
  /\ action (evaluate_partial_fill Samples.close_in_1h30 Samples.no_quote
               Samples.forecast_50 Samples.forecast_50 Samples.hedge_38_30 1)
     = wait
  /\ action (evaluate_partial_fill Samples.close_in_1h30 Samples.no_quote
               Samples.forecast_50 Samples.forecast_50 Samples.hedge_38_30 1)
     ≠ derisk.
Proof. repeat split; try reflexivity. discriminate. Qed.

(** The policy example: limit 30, quote 35/37, 8 hours to the close,
    filled leg at 38: the candidate is 36, delta 6, total 74. *)
Lemma normal_horizon_decision_witness :
  let bid := 35 in
  let ask := 37 in
  let candidate := 36 in
  let delta := candidate - 30 in
  let filled_price := 38 in
  (delta <= 0 ->
   action (evaluate_partial_fill Samples.close_in_8h Samples.quote_35_37
             Samples.forecast_50 Samples.forecast_50 Samples.hedge_38_30 1) = wait)
  /\ (delta = 1 ->
      action (evaluate_partial_fill Samples.close_in_8h Samples.quote_35_37
                Samples.forecast_50 Samples.forecast_50 Samples.hedge_38_30 1)
      = reprice)
  /\ (1 < delta -> filled_price + candidate <= MAX_TOTAL_COST ->
      action (evaluate_partial_fill Samples.close_in_8h Samples.quote_35_37
                Samples.forecast_50 Samples.forecast_50 Samples.hedge_38_30 1)
      = reprice
      /\ (new_maker_price
            <$> details (evaluate_partial_fill Samples.close_in_8h
                           Samples.quote_35_37 Samples.forecast_50
                           Samples.forecast_50 Samples.hedge_38_30 1))
         = Some candidate)
  /\ (1 < delta -> MAX_TOTAL_COST < filled_price + candidate ->
      action (evaluate_partial_fill Samples.close_in_8h Samples.quote_35_37
                Samples.forecast_50 Samples.forecast_50 Samples.hedge_38_30 1)
      = derisk).
Proof.
  apply (normal_horizon_decision Samples.close_in_8h Samples.quote_35_37
           Samples.forecast_50 Samples.forecast_50 Samples.hedge_38_30 1
           (8 # 1)%Q (mkPrices (Some 37) (Some 35))).
  - reflexivity.
  - reflexivity.
  - vm_compute. discriminate.
Defined.

Example policy_example_reprices_to_36 :
  let ev := evaluate_partial_fill Samples.close_in_8h Samples.quote_35_37
              Samples.forecast_50 Samples.forecast_50 Samples.hedge_38_30 1 in
  action ev = reprice /\ (new_maker_price <$> details ev) = Some 36.
Proof. split; reflexivity. Qed.

Section Gate.
Variable fromisoformat : string -> option datetime.
Variable now : Q.
Variable now_iso : string.
Variable get_hours_until_close : string -> option Q.
Variable get_market_price : string -> option Prices.
Variable get_today_forecast get_tomorrow_forecast : string -> option Q.
Variable cancel_order : string -> bool.
Variable buy : string -> Z -> option (option string).
Variable sell : string -> Z -> bool.

Local Abbreviation monitor :=
  (monitor_hedge fromisoformat now now_iso get_hours_until_close
                 get_market_price get_today_forecast get_tomorrow_forecast
                 cancel_order buy sell).

(** A leg without an order timestamp has waited for ever, and the
    wait-period gate never holds it back. *)
Lemma missing_timestamp_not_deferred hedge days_ahead w :
  truthy_str (timestamp (pending_pos hedge)) = false ->
  get_time_since_order fromisoformat now (pending_pos hedge) = Returned Infinity
  /\ forall remaining,
       fst (monitor hedge days_ahead w) ≠ Returned (WaitPeriod remaining).
Proof.
  intros Hts.
  assert (Hinf : get_time_since_order fromisoformat now (pending_pos hedge)
                 = Returned Infinity).
  { unfold get_time_since_order. now rewrite Hts. }
  split; [exact Hinf|]. intros remaining.
  unfold monitor_hedge, bind, lift. rewrite Hinf. cbn [minutes_lt].
  destruct (action _).
  - discriminate.
  - destruct (details _); [|discriminate].
    destruct (execute_reprice _ _ _ _ _ _) as [[b|e] w']; discriminate.
  - destruct (execute_derisk _ _ _ _ _ _) as [[b|e] w']; discriminate.
Qed.

(** C10, evaluated where the code departs from the claim.  A pending
    leg whose order timestamp is a non-empty string that
    [datetime.fromisoformat] rejects, also after the time-zone
    suffix is cut off, is not treated as having waited for ever:
    [get_time_since_order] raises ValueError, and so does the
    monitor pass over its hedge, before any evaluation. *)
Theorem unparseable_timestamp_raises hedge days_ahead w s :
  timestamp (pending_pos hedge) = Some s ->
  s ≠ ""%string ->
  fromisoformat (replace_Z s) = None ->
  fromisoformat (split_head "Z" (split_head "+" (replace_Z s))) = None ->
  get_time_since_order fromisoformat now (pending_pos hedge) = Raised ValueError
  /\ monitor hedge days_ahead w = (Raised ValueError, w).
Proof.
  intros Hts Hne H1 H2.
  assert (Hraise : get_time_since_order fromisoformat now (pending_pos hedge)
                   = Raised ValueError).
  { unfold get_time_since_order, parse_iso_datetime. rewrite Hts.
    destruct s as [|c s']; [now destruct Hne|].
    cbn [truthy_str negb]. rewrite H1. cbn [try_except]. rewrite H2.
    reflexivity. }
  split; [exact Hraise|].
  unfold monitor_hedge, bind, lift. rewrite Hraise. reflexivity.
Qed.

(** A de-risk that goes through leaves both legs of the hedge in a
    terminal status and touches no other record. *)
Lemma execute_derisk_marks_terminal hedge w w' :
  execute_derisk now_iso get_market_price cancel_order sell hedge w
  = (Returned true, w') ->
  forall k rec',
    positions_of w' !! k = Some rec' ->
    (k = filled_key hedge \/ k = pending_key hedge -> is_terminal rec' = true)
    /\ (k ≠ filled_key hedge -> k ≠ pending_key hedge ->
        positions_of w !! k = Some rec').
Proof.
  unfold execute_derisk.
  destruct (get_market_price _) as [prices|]; [|discriminate].
  destruct (_ <=? 0); [discriminate|].
  destruct (sell _ _); [|discriminate].
  unfold bind, load_positions, save_positions, ret. intros Hrun.
  injection Hrun as <-. fold (positions_of w).
  cbn [positions_of positions_json default from_option id].
  fold (positions_of w). intros k rec' Hk. split.
  - intros Hkey.
    destruct (decide (k = pending_key hedge)) as [-> | Hnp].
    + rewrite lookup_alter_eq in Hk.
      destruct (alter _ _ _ !! _); [|discriminate].
      cbn in Hk. injection Hk as <-. reflexivity.
    + destruct Hkey as [-> | ->]; [|now destruct Hnp].
      rewrite lookup_alter_ne, lookup_alter_eq in Hk by congruence.
      destruct (positions_of w !! _); [|discriminate].
      cbn in Hk. injection Hk as <-. reflexivity.
  - intros Hnf Hnp. now rewrite !lookup_alter_ne in Hk by congruence.
Qed.

End Gate.

Lemma unparseable_timestamp_raises_witness :
  get_time_since_order Samples.fromisoformat_sample (0 # 1)%Q
    (pending_pos Samples.hedge_bad_timestamp) = Raised ValueError
  /\ monitor_hedge Samples.fromisoformat_sample (0 # 1)%Q "2026-01-26T10:00:00"
       Samples.close_in_8h Samples.quote_35_37 Samples.forecast_50
       Samples.forecast_50 Samples.cancel_accepted Samples.buy_rejected
       Samples.sell_rejected Samples.hedge_bad_timestamp 1 Samples.partial_world
     = (Raised ValueError, Samples.partial_world).
Proof.
  apply (unparseable_timestamp_raises Samples.fromisoformat_sample (0 # 1)%Q
           "2026-01-26T10:00:00" Samples.close_in_8h Samples.quote_35_37
           Samples.forecast_50 Samples.forecast_50 Samples.cancel_accepted
           Samples.buy_rejected Samples.sell_rejected
           Samples.hedge_bad_timestamp 1 Samples.partial_world "not-a-date").
  - reflexivity.
  - discriminate.
  - reflexivity.
  - reflexivity.
Defined.

End PolicyProofs.

(** * Properties of the trade ledger (trade_history.py) *)
Module LedgerProofs.
Import Py TradeHistory.

(** The mutation reaches the trade that the lookup finds. *)
Lemma lookup_modify_trade trade_id f trades :
  (forall t, id (f t) = id t) ->
  lookup_trade trade_id (modify_trade trade_id f trades)
  = f <$> lookup_trade trade_id trades.
Proof.
  intros Hid. induction trades as [|t rest IH]; cbn; [reflexivity|].
  destruct (String.eqb (id t) trade_id) eqn:E; cbn.
  - rewrite Hid, E. reflexivity.
  - rewrite E. exact IH.
Qed.

Lemma record_win_found now trade_id k actual_temp sold_price trades trade :
  lookup_trade trade_id trades = Some trade ->
  key (leg1 trade) = k \/ key (leg2 trade) = k ->
  exists trade',
    fst (record_win now trade_id k actual_temp sold_price trades) = true
    /\ lookup_trade trade_id
         (snd (record_win now trade_id k actual_temp sold_price trades))
       = Some trade'
    /\ outcome trade' = win
    /\ pnl trade' = Some (100 - total_cost trade).
Proof.
  intros Hl Hk. unfold record_win. rewrite Hl.
  destruct (String.eqb_spec (key (leg1 trade)) k) as [H1|H1].
  - cbn [fst snd]. rewrite lookup_modify_trade by reflexivity. rewrite Hl.
    eexists. repeat split; reflexivity.
  - destruct (String.eqb_spec (key (leg2 trade)) k) as [H2|H2].
    + cbn [fst snd]. rewrite lookup_modify_trade by reflexivity. rewrite Hl.
      eexists. repeat split; reflexivity.
    + destruct Hk; contradiction.
Qed.

Lemma record_loss_found now trade_id actual_temp trades trade :
  lookup_trade trade_id trades = Some trade ->
  exists trade',
    fst (record_loss now trade_id actual_temp trades) = true
    /\ lookup_trade trade_id (snd (record_loss now trade_id actual_temp trades))
       = Some trade'
    /\ outcome trade' = loss
    /\ pnl trade' = Some (- total_cost trade).
Proof.
  intros Hl. unfold record_loss. rewrite Hl. cbn [fst snd].
  rewrite lookup_modify_trade by reflexivity. rewrite Hl.
  eexists. repeat split; reflexivity.
Qed.

Lemma record_derisk_found now trade_id k sold_price cancelled trades trade :
  lookup_trade trade_id trades = Some trade ->
  exists trade',
    fst (record_derisk now trade_id k sold_price cancelled trades) = true
    /\ lookup_trade trade_id
         (snd (record_derisk now trade_id k sold_price cancelled trades))
       = Some trade'
    /\ outcome trade' = derisked
    /\ pnl trade' = Some (sold_price - entry_price_of (sold_leg_of k trade)).
Proof.
  intros Hl. unfold record_derisk. rewrite Hl. cbn [fst snd].
  rewrite lookup_modify_trade by (intros t; destruct (String.eqb _ _); reflexivity).
  rewrite Hl. cbn [fmap option_fmap option_map]. unfold sold_leg_of.
  destruct (String.eqb (key (leg1 trade)) k);
    eexists; repeat split; reflexivity.
Qed.

(** C2.  For a trade of the ledger: recording a win on one of its legs
    sets the trade's P&L to 100 minus its total entry cost, whatever
    the sold_price argument; recording a loss sets it to the negated
    total entry cost; recording a de-risk sets it to the sold price
    minus the entry price of the sold leg, a difference that takes
    every integer value, positive or negative, as the sold price
    varies.  The sold leg is the first leg when the key given is its
    key and the second leg otherwise; its entry price is its fill
    price, or its order price (0 without one) when it has no fill
    price or fill price 0. *)
Theorem recorded_pnl trade_id trades trade :
  lookup_trade trade_id trades = Some trade ->
  (forall now k actual_temp sold_price,
      key (leg1 trade) = k \/ key (leg2 trade) = k ->
      exists trade',
        fst (record_win now trade_id k actual_temp sold_price trades) = true
        /\ lookup_trade trade_id
             (snd (record_win now trade_id k actual_temp sold_price trades))
           = Some trade'
        /\ outcome trade' = win
        /\ pnl trade' = Some (100 - total_cost trade))
  /\ (forall now actual_temp,
        exists trade',
          fst (record_loss now trade_id actual_temp trades) = true
          /\ lookup_trade trade_id
               (snd (record_loss now trade_id actual_temp trades))
             = Some trade'
          /\ outcome trade' = loss
          /\ pnl trade' = Some (- total_cost trade))
  /\ (forall now k sold_price cancelled,
        let sold_leg :=
          if String.eqb (key (leg1 trade)) k then leg1 trade else leg2 trade in
        let entry_price :=
          match fill_price sold_leg with
          | Some p => if p =? 0 then default 0 (order_price sold_leg) else p
          | None => default 0 (order_price sold_leg)
          end in
        exists trade',
          fst (record_derisk now trade_id k sold_price cancelled trades) = true
          /\ lookup_trade trade_id
               (snd (record_derisk now trade_id k sold_price cancelled trades))
             = Some trade'
          /\ outcome trade' = derisked
          /\ pnl trade' = Some (sold_price - entry_price))
  /\ (forall now k cancelled z,
        exists sold_price trade',
          lookup_trade trade_id
            (snd (record_derisk now trade_id k sold_price cancelled trades))
          = Some trade'
          /\ pnl trade' = Some z).
Proof.
  intros Hl. split; [|split; [|split]].
  - intros now k actual_temp sold_price Hk. now apply record_win_found.
  - intros now actual_temp. now apply record_loss_found.
  - intros now k sold_price cancelled sold_leg entry_price.
    destruct (record_derisk_found now trade_id k sold_price cancelled trades trade Hl)
      as [trade' (Hb & Hl' & Ho & Hp)].
    exists trade'. repeat split; [exact Hb | exact Hl' | exact Ho |].
    rewrite Hp. reflexivity.
  - intros now k cancelled z.
    exists (z + entry_price_of (sold_leg_of k trade)).
    destruct (record_derisk_found now trade_id k
                (z + entry_price_of (sold_leg_of k trade)) cancelled trades trade Hl)
      as [trade' (_ & Hl' & _ & Hp)].
    exists trade'. split; [exact Hl'|]. rewrite Hp. f_equal. lia.
Qed.

Lemma recorded_pnl_witness :
  (forall now k actual_temp sold_price,
      key (leg1 Samples.trade_60) = k \/ key (leg2 Samples.trade_60) = k ->
      exists trade',
        fst (record_win now "KXHIGHNY_2026-01-27" k actual_temp sold_price
               Samples.ledger) = true
        /\ lookup_trade "KXHIGHNY_2026-01-27"
             (snd (record_win now "KXHIGHNY_2026-01-27" k actual_temp sold_price
                     Samples.ledger))
           = Some trade'
        /\ outcome trade' = win
        /\ pnl trade' = Some (100 - total_cost Samples.trade_60))
  /\ (forall now actual_temp,
        exists trade',
          fst (record_loss now "KXHIGHNY_2026-01-27" actual_temp Samples.ledger)
          = true
          /\ lookup_trade "KXHIGHNY_2026-01-27"
               (snd (record_loss now "KXHIGHNY_2026-01-27" actual_temp
                       Samples.ledger))
             = Some trade'
          /\ outcome trade' = loss
          /\ pnl trade' = Some (- total_cost Samples.trade_60))
  /\ (forall now k sold_price cancelled,
        let sold_leg :=
          if String.eqb (key (leg1 Samples.trade_60)) k
          then leg1 Samples.trade_60 else leg2 Samples.trade_60 in
        let entry_price :=
          match fill_price sold_leg with
          | Some p => if p =? 0 then default 0 (order_price sold_leg) else p
          | None => default 0 (order_price sold_leg)
          end in
        exists trade',
          fst (record_derisk now "KXHIGHNY_2026-01-27" k sold_price cancelled
                 Samples.ledger) = true
          /\ lookup_trade "KXHIGHNY_2026-01-27"
               (snd (record_derisk now "KXHIGHNY_2026-01-27" k sold_price
                       cancelled Samples.ledger))
             = Some trade'
          /\ outcome trade' = derisked
          /\ pnl trade' = Some (sold_price - entry_price))
  /\ (forall now k cancelled z,
        exists sold_price trade',
          lookup_trade "KXHIGHNY_2026-01-27"
            (snd (record_derisk now "KXHIGHNY_2026-01-27" k sold_price cancelled
                    Samples.ledger))
          = Some trade'
          /\ pnl trade' = Some z).
Proof.
  apply (recorded_pnl "KXHIGHNY_2026-01-27" Samples.ledger Samples.trade_60).
  reflexivity.
Defined.

(** On the sample ledger: a win at any sale price books 40, a loss
    books -60, and de-risking the 38 leg books +7 at 45 and -18 at 20. *)
Example ledger_pnl_values :
  (pnl <$> lookup_trade "KXHIGHNY_2026-01-27"
             (snd (record_win "t" "KXHIGHNY_2026-01-27"
                     "KXHIGHNY-26JAN27-B49.5_yes" None 1 Samples.ledger)))
  = Some (Some 40)
  /\ (pnl <$> lookup_trade "KXHIGHNY_2026-01-27"
                (snd (record_loss "t" "KXHIGHNY_2026-01-27" None Samples.ledger)))
     = Some (Some (-60))
  /\ (pnl <$> lookup_trade "KXHIGHNY_2026-01-27"
                (snd (record_derisk "t" "KXHIGHNY_2026-01-27"
                        "KXHIGHNY-26JAN27-B49.5_yes" 45
                        "KXHIGHNY-26JAN27-T50_yes" Samples.ledger)))
     = Some (Some 7)
  /\ (pnl <$> lookup_trade "KXHIGHNY_2026-01-27"
                (snd (record_derisk "t" "KXHIGHNY_2026-01-27"
                        "KXHIGHNY-26JAN27-B49.5_yes" 20
                        "KXHIGHNY-26JAN27-T50_yes" Samples.ledger)))
     = Some (Some (-18)).
Proof. repeat split; vm_compute; reflexivity. Qed.

End LedgerProofs.

(** * Further properties of the position store (monitor.py) *)
Module MonitorExtra.
Import Py Monitor MonitorProofs.

(** The record under a key after a pass whose venue query returned. *)
Lemma lookup_pass_returned r now w k :
  positions_of (snd (reconcile_pending_orders (Returned r) now w)) !! k
  = reconcile_rec (build_pos_map (default [] r)) (now k) <$> positions_of w !! k.
Proof.
  destruct (decide (positions_of w = ∅)) as [He|Hne].
  { rewrite reconcile_no_positions by exact He. cbn [snd].
    rewrite He, lookup_empty. reflexivity. }
  rewrite reconcile_fetch_returned by exact Hne. cbn [snd].
  destruct (bool_decide (map_Exists (fun _ rec => tracked_open rec = true)
                                    (positions_of w))) eqn:Hch.
  - cbn [positions_of positions_json default from_option id].
    apply lookup_reconcile_all.
  - apply bool_decide_eq_false in Hch.
    rewrite <- lookup_reconcile_all.
    now rewrite reconcile_all_unchanged.
Qed.

(** X1.  A reconciliation pass keeps the set of tracked keys and, for
    every record, everything but its fill state: ticker, side, limit
    price, intended count, order id, order timestamp, series, sale and
    cancellation data, P&L and reprice counter are as before. *)
Theorem reconcile_keeps_order_data fetch now w k :
  (positions_of (snd (reconcile_pending_orders fetch now w)) !! k = None
   <-> positions_of w !! k = None)
  /\ (forall rec rec',
        positions_of w !! k = Some rec ->
        positions_of (snd (reconcile_pending_orders fetch now w)) !! k = Some rec' ->
        order_data rec' = order_data rec).
Proof.
  assert (Hrec : forall pm t rec, order_data (reconcile_rec pm t rec) = order_data rec).
  { intros pm t rec. unfold reconcile_rec. destruct (negb _); [reflexivity|].
    destruct (_ <=? 0); [reflexivity|]. destruct (_ <? _); reflexivity. }
  destruct (positions_of w !! k) as [rec|] eqn:Hk.
  - destruct (lookup_after_pass fetch now w k rec Hk) as [pm [H|H]]; rewrite H.
    + split; [split; discriminate|].
      intros r0 r' Hr0 Hr'. injection Hr0 as <-. injection Hr' as <-. apply Hrec.
    + split; [split; discriminate|].
      intros r0 r' Hr0 Hr'. congruence.
  - split; [|discriminate].
    split; [reflexivity|]. intros _.
    destruct (positions_after_pass fetch now w) as [pm [H|H]]; rewrite H.
    + rewrite lookup_reconcile_all, Hk. reflexivity.
    + exact Hk.
Qed.



(** X3.  When no tracked record is pending or partial, a pass changes
    nothing and writes nothing, whatever the venue query does. *)
Theorem reconcile_settled_store fetch now w :
  map_Forall (fun _ rec => tracked_open rec = false) (positions_of w) ->
  reconcile_pending_orders fetch now w = (Returned (positions_of w), w).
Proof.
  intros Hall.
  destruct (decide (positions_of w = ∅)) as [He|Hne].
  { rewrite reconcile_no_positions by exact He. now rewrite He. }
  destruct fetch as [r|e]; [|apply reconcile_fetch_raised].
  rewrite reconcile_fetch_returned by exact Hne.
  assert (Hno : ¬ map_Exists (fun _ rec => tracked_open rec = true) (positions_of w)).
  { intros (k & rec & Hk & Ho). rewrite (Hall k rec Hk) in Ho. discriminate. }
  rewrite bool_decide_eq_false_2 by exact Hno.
  now rewrite reconcile_all_unchanged.
Qed.

Lemma reconcile_settled_store_witness :
  reconcile_pending_orders Samples.none_held Samples.clock Samples.filled_world
  = (Returned (positions_of Samples.filled_world), Samples.filled_world).
Proof.
  apply (reconcile_settled_store Samples.none_held Samples.clock Samples.filled_world).
  apply map_Forall_singleton. reflexivity.
Defined.

(** The value one portfolio entry gives its ticker. *)
Lemma build_pos_map_snoc l h :
  build_pos_map (l ++ [h])
  = match h_ticker h with
    | Some t =>
        if truthy_str (Some t)
        then <[t := or_Z (h_position h) (or_Z (h_count h) 0)]> (build_pos_map l)
        else build_pos_map l
    | None => build_pos_map l
    end.
Proof. unfold build_pos_map. rewrite fold_left_app. reflexivity. Qed.

(** X4.  The count the venue map holds for a non-empty ticker is that
    of the last portfolio entry carrying the ticker: its position, or
    its count when the position is missing or 0, or 0; a ticker that no
    entry carries is not in the map. *)
Theorem pos_map_last_entry l t :
  t ≠ ""%string ->
  build_pos_map l !! t
  = (fun h => or_Z (h_position h) (or_Z (h_count h) 0))
      <$> last (filter (fun h => h_ticker h = Some t) l).
Proof.
  intros Ht. induction l as [|h l IH] using rev_ind; [reflexivity|].
  rewrite build_pos_map_snoc, filter_app.
  destruct (h_ticker h) as [t'|] eqn:Hh.
  - destruct (decide (t' = t)) as [->|Hne].
    + rewrite filter_cons_True, filter_nil by exact Hh.
      rewrite last_snoc.
      destruct t as [|c t]; [now destruct Ht|].
      cbn [truthy_str]. now rewrite lookup_insert_eq.
    + rewrite filter_cons_False, filter_nil, app_nil_r by congruence.
      destruct (truthy_str (Some t')); [|exact IH].
      rewrite lookup_insert_ne by exact Hne. exact IH.
  - rewrite filter_cons_False, filter_nil, app_nil_r by congruence. exact IH.
Qed.

Lemma pos_map_last_entry_witness :
  build_pos_map [mkHolding (Some Samples.ny_ticker) (Some 3) None;
                 mkHolding (Some Samples.ny_ticker) None (Some 1)]
  !! Samples.ny_ticker
  = (fun h => or_Z (h_position h) (or_Z (h_count h) 0))
      <$> last (filter (fun h => h_ticker h = Some Samples.ny_ticker)
                  [mkHolding (Some Samples.ny_ticker) (Some 3) None;
                   mkHolding (Some Samples.ny_ticker) None (Some 1)]).
Proof.
  apply (pos_map_last_entry
           [mkHolding (Some Samples.ny_ticker) (Some 3) None;
            mkHolding (Some Samples.ny_ticker) None (Some 1)] Samples.ny_ticker).
  discriminate.
Defined.

(** X5.  A pending or partial leg whose ticker no portfolio entry
    carries (in particular when the venue returns an empty list or
    nothing) ends the pass pending with count 0. *)
Theorem unreported_ticker_resets r now w k rec :
  positions_of w !! k = Some rec ->
  tracked_open rec = true ->
  (forall h, h ∈ default [] r -> h_ticker h ≠ Some (ticker rec)) ->
  exists rec',
    positions_of (snd (reconcile_pending_orders (Returned r) now w)) !! k = Some rec'
    /\ status rec' = Some pending
    /\ count rec' = Some 0.
Proof.
  intros Hk Hopen Hnone. rewrite lookup_pass_returned, Hk.
  cbn [fmap option_fmap option_map]. eexists. split; [reflexivity|].
  assert (Hmap : build_pos_map (default [] r) !! ticker rec = None).
  { generalize (default [] r) Hnone. clear. intros l Hnone.
    induction l as [|h l IH] using rev_ind; [reflexivity|].
    rewrite build_pos_map_snoc.
    assert (IH' : build_pos_map l !! ticker rec = None).
    { apply IH. intros h' Hh'. apply Hnone. apply elem_of_app. now left. }
    destruct (h_ticker h) as [t'|] eqn:Hh; [|exact IH'].
    destruct (truthy_str (Some t')); [|exact IH'].
    rewrite lookup_insert_ne; [exact IH'|].
    intros ->. apply (Hnone h); [|exact Hh].
    apply elem_of_app. right. left. }
  unfold reconcile_rec. rewrite Hopen, Hmap. cbn. split; reflexivity.
Qed.

Lemma unreported_ticker_resets_witness :
  exists rec',
    positions_of (snd (reconcile_pending_orders Samples.none_held Samples.clock
                         Samples.partial_world)) !! Samples.ny_key = Some rec'
    /\ status rec' = Some pending
    /\ count rec' = Some 0.
Proof.
  apply (unreported_ticker_resets (Some []) Samples.clock Samples.partial_world
           Samples.ny_key Samples.partial_leg).
  - vm_compute. reflexivity.
  - reflexivity.
  - intros h Hh. inversion Hh.
Defined.

(** X6.  The fill timestamp of a pending or partial leg that already
    has one: a pass that leaves the leg short of its intended count
    keeps it, also when the leg drops back to pending; a pass that
    finds the intended count reached replaces it by the clock reading
    of that pass. *)
Theorem fill_timestamp_rule r now w k rec ts :
  positions_of w !! k = Some rec ->
  tracked_open rec = true ->
  filled_timestamp rec = Some ts ->
  let c := default 0 (build_pos_map (default [] r) !! ticker rec) in
  let intended :=
    or_Z (match intended_count rec with
          | Some v => Some v
          | None => count rec
          end) 0 in
  exists rec',
    positions_of (snd (reconcile_pending_orders (Returned r) now w)) !! k = Some rec'
    /\ (c <= 0 \/ c < intended -> filled_timestamp rec' = Some ts)
    /\ (0 < c -> intended <= c -> filled_timestamp rec' = Some (now k)).
Proof.
  intros Hk Hopen Hts c intended. rewrite lookup_pass_returned, Hk.
  cbn [fmap option_fmap option_map]. eexists. split; [reflexivity|].
  unfold reconcile_rec. rewrite Hopen. cbn [negb]. fold c. fold intended.
  assert (Hprev : match status rec with
                  | Some st => LegStatus_eqb st filled
                  | None => false
                  end = false).
  { unfold tracked_open in Hopen. destruct (status rec) as [[]|]; try reflexivity;
      discriminate. }
  destruct (Z.leb_spec c 0); [|destruct (Z.ltb_spec c intended)];
    cbn [set_fill filled_timestamp]; rewrite ?Hts, ?Hprev;
    split; intros; try reflexivity; lia.
Qed.

Lemma fill_timestamp_rule_witness :
  let c := default 0 (build_pos_map [mkHolding (Some Samples.ny_ticker) (Some 2) None]
                        !! ticker Samples.partial_leg) in
  let intended :=
    or_Z (match intended_count Samples.partial_leg with
          | Some v => Some v
          | None => count Samples.partial_leg
          end) 0 in
  exists rec',
    positions_of
      (snd (reconcile_pending_orders
              (Returned (Some [mkHolding (Some Samples.ny_ticker) (Some 2) None]))
              Samples.clock Samples.partial_world)) !! Samples.ny_key = Some rec'
    /\ (c <= 0 \/ c < intended
        -> filled_timestamp rec' = Some "2026-01-26T09:05:00"%string)
    /\ (0 < c -> intended <= c
        -> filled_timestamp rec' = Some (Samples.clock Samples.ny_key)).
Proof.
  apply (fill_timestamp_rule
           (Some [mkHolding (Some Samples.ny_ticker) (Some 2) None])
           Samples.clock Samples.partial_world Samples.ny_key Samples.partial_leg
           "2026-01-26T09:05:00").
  - vm_compute. reflexivity.
  - reflexivity.
  - reflexivity.
Defined.

End MonitorExtra.

(** * The records the program's own operations build *)
Module LifecycleProofs.
Import Py Monitor Strategy Lifecycle MonitorProofs.

Lemma reconcile_rec_well_tracked pos_map now k rec :
  well_tracked k rec -> well_tracked k (reconcile_rec pos_map now rec).
Proof.
  intros (Hkey & Hlp & Hic & Hts & Hst & c & Hc & Hc0).
  unfold reconcile_rec. destruct (negb _).
  { repeat split; try assumption. exists c. now split. }
  destruct (Z.leb_spec (default 0 (pos_map !! ticker rec)) 0).
  - repeat split; try assumption; cbn; eauto. exists 0. split; [reflexivity|lia].
  - destruct (_ <? _); repeat split; try assumption; cbn; eauto;
      eexists; (split; [reflexivity|lia]).
Qed.

Lemma run_op_well_tracked op w :
  map_Forall well_tracked (positions_of w) ->
  map_Forall well_tracked (positions_of (run_op op w)).
Proof.
  intros Hwf. destruct op as [now t sd lp ic oid | fetch now
                             | now_iso cancel buy hedge new_price
                             | now_iso gmp cancel sell hedge]; cbn [run_op].
  - unfold add_pending_order, bind, load_positions, save_positions.
    cbn [snd positions_of positions_json default from_option id].
    fold (positions_of w). apply map_Forall_insert_2; [|exact Hwf].
    repeat split; cbn; eauto. exists 0. split; [reflexivity|lia].
  - destruct (positions_after_pass fetch now w) as [pm [H|H]]; rewrite H;
      [|exact Hwf].
    intros k rec' Hk. rewrite lookup_reconcile_all in Hk.
    destruct (positions_of w !! k) as [rec|] eqn:Hrec; [|discriminate].
    cbn in Hk. injection Hk as <-.
    apply reconcile_rec_well_tracked. exact (Hwf k rec Hrec).
  - unfold execute_reprice.
    destruct (_ && _); [exact Hwf|].
    destruct (buy _ _) as [new_order_id|]; [|exact Hwf].
    unfold bind, load_positions, save_positions, ret. fold (positions_of w).
    destruct (positions_of w !! pending_key hedge) as [rec|] eqn:Hrec;
      [|exact Hwf].
    cbn [snd positions_of positions_json default from_option id].
    apply map_Forall_insert_2; [|exact Hwf].
    destruct (Hwf _ _ Hrec) as (Hkey & Hlp & Hic & Hts & Hst & c & Hc & Hc0).
    repeat split; cbn; eauto.
  - unfold execute_derisk.
    destruct (gmp _) as [prices|]; [|exact Hwf].
    destruct (_ <=? 0); [exact Hwf|].
    destruct (sell _ _); [|exact Hwf].
    unfold bind, load_positions, save_positions, ret. fold (positions_of w).
    cbn [snd positions_of positions_json default from_option id].
    assert (Halter : forall (f : Leg -> Leg) key (m : gmap string Leg),
               (forall k rec, well_tracked k rec -> well_tracked k (f rec)) ->
               map_Forall well_tracked m -> map_Forall well_tracked (alter f key m)).
    { intros f key m Hf Hm k rec' Hk. rewrite lookup_alter in Hk.
      destruct (decide (key = k)) as [->|Hne]; [|exact (Hm k rec' Hk)].
      destruct (m !! k) as [rec|] eqn:Hrec; [|discriminate].
      cbn in Hk. injection Hk as <-. apply Hf. exact (Hm k rec Hrec). }
    apply Halter; [|apply Halter; [|exact Hwf]].
    + intros k rec (Hkey & Hlp & Hic & Hts & Hst & c & Hc & Hc0).
      repeat split; cbn; eauto.
    + intros k rec (Hkey & Hlp & Hic & Hts & Hst & c & Hc & Hc0).
      repeat split; cbn; eauto.
Qed.

Lemma run_ops_well_tracked ops w :
  map_Forall well_tracked (positions_of w) ->
  map_Forall well_tracked (positions_of (run_ops ops w)).
Proof.
  revert w. induction ops as [|op ops IH]; intros w Hwf; [exact Hwf|].
  cbn [run_ops fold_left]. apply IH. now apply run_op_well_tracked.
Qed.

(** X7.  Starting without a positions file, whatever sequence of
    tracking, reconciliation, reprice and de-risk steps the program
    runs, with whatever venue responses, every record of the store is
    keyed by its own ticker and side and carries a limit price, an
    intended count, an order timestamp, a status and a count that is
    not negative; in particular every store so built meets the
    condition under which reconciliation is idempotent. *)
Theorem reachable_store_well_tracked ops :
  map_Forall well_tracked (positions_of (run_ops ops fresh_world))
  /\ intent_recorded (positions_of (run_ops ops fresh_world)).
Proof.
  assert (H : map_Forall well_tracked (positions_of (run_ops ops fresh_world))).
  { apply run_ops_well_tracked. apply map_Forall_empty. }
  split; [exact H|].
  intros k rec Hk _. exact (proj1 (proj2 (proj2 (H k rec Hk)))).
Qed.

End LifecycleProofs.

(** * Further properties of hedge discovery (strategy.py) *)
Module DiscoveryExtra.
Import Py Config Strategy DiscoveryProofs.

Local Abbreviation dist f b := (Qabs (midpoint b - f)).

Lemma containing_idx_Some f l o i :
  containing_idx f l o = Some i ->
  (o <= i)%nat
  /\ exists b, l !! (i - o)%nat = Some b
               /\ contains_forecast f b = true
               /\ forall j b', (j < i - o)%nat -> l !! j = Some b' ->
                               contains_forecast f b' = false.
Proof.
  revert o. induction l as [|b l IH]; intros o; cbn [containing_idx]; [discriminate|].
  destruct (contains_forecast f b) eqn:Hb.
  - intros Heq. injection Heq as <-. split; [lia|].
    rewrite Nat.sub_diag. exists b. repeat split; [assumption|].
    intros j b' Hj. lia.
  - intros Heq. destruct (IH _ Heq) as (Ho & b0 & Hl & Hc & Hbefore).
    split; [lia|]. exists b0.
    replace (i - o)%nat with (S (i - S o)) by lia. repeat split; [assumption..|].
    intros [|j] b' Hj Hl'.
    + cbn in Hl'. injection Hl' as <-. exact Hb.
    + apply (Hbefore j); [lia|exact Hl'].
Qed.

Lemma containing_idx_None f l o :
  containing_idx f l o = None -> forall b, b ∈ l -> contains_forecast f b = false.
Proof.
  revert o. induction l as [|b l IH]; intros o; cbn [containing_idx].
  - intros _ b Hb. inversion Hb.
  - destruct (contains_forecast f b) eqn:Hb; [discriminate|].
    intros Heq b' Hb'. apply elem_of_cons in Hb' as [->|Hb']; [exact Hb|].
    now apply (IH _ Heq).
Qed.

Lemma closest_idx_running f l o d i0 i :
  closest_idx f l o (Some d) (Some i0) = Some i ->
  (i = i0 /\ forall b', b' ∈ l -> (d <= dist f b')%Q)
  \/ ((o <= i)%nat
      /\ exists b, l !! (i - o)%nat = Some b
                   /\ (dist f b < d)%Q
                   /\ (forall b', b' ∈ l -> (dist f b <= dist f b')%Q)
                   /\ (forall j b', (j < i - o)%nat -> l !! j = Some b' ->
                                    (dist f b < dist f b')%Q)).
Proof.
  revert o d i0. induction l as [|b l IH]; intros o d i0; cbn [closest_idx].
  - intros Heq. injection Heq as <-. left. split; [reflexivity|].
    intros b' Hb'. inversion Hb'.
  - destruct (Qlt_bool (dist f b) d) eqn:Hlt.
    + apply Qlt_bool_true in Hlt. intros Heq.
      destruct (IH _ _ _ Heq) as [[-> Hall] | (Ho & b0 & Hl & Hd & Hall & Hbefore)].
      * right. split; [lia|]. rewrite Nat.sub_diag. exists b.
        repeat split; [assumption|..].
        -- intros b' Hb'. apply elem_of_cons in Hb' as [->|Hb'];
             [apply Qle_refl | now apply Hall].
        -- intros j b' Hj. lia.
      * right. split; [lia|]. exists b0.
        replace (i - o)%nat with (S (i - S o)) by lia.
        repeat split; [assumption|..].
        -- eapply Qlt_trans; eassumption.
        -- intros b' Hb'. apply elem_of_cons in Hb' as [->|Hb'];
             [now apply Qlt_le_weak | now apply Hall].
        -- intros [|j] b' Hj Hl'.
           ++ cbn in Hl'. injection Hl' as <-. exact Hd.
           ++ apply (Hbefore j); [lia|exact Hl'].
    + apply Qlt_bool_false in Hlt. intros Heq.
      destruct (IH _ _ _ Heq) as [[-> Hall] | (Ho & b0 & Hl & Hd & Hall & Hbefore)].
      * left. split; [reflexivity|].
        intros b' Hb'. apply elem_of_cons in Hb' as [->|Hb'];
          [exact Hlt | now apply Hall].
      * right. split; [lia|]. exists b0.
        replace (i - o)%nat with (S (i - S o)) by lia.
        repeat split; [assumption..| |].
        -- intros b' Hb'. apply elem_of_cons in Hb' as [->|Hb']; [|now apply Hall].
           apply Qlt_le_weak. eapply Qlt_le_trans; eassumption.
        -- intros [|j] b' Hj Hl'.
           ++ cbn in Hl'. injection Hl' as <-. eapply Qlt_le_trans; eassumption.
           ++ apply (Hbefore j); [lia|exact Hl'].
Qed.

Lemma closest_idx_started f l o d i0 :
  closest_idx f l o (Some d) (Some i0) <> None.
Proof.
  revert o d i0. induction l as [|b l IH]; intros o d i0; cbn [closest_idx];
    [discriminate|].
  destruct (Qlt_bool _ _); apply IH.
Qed.

(** The fallback on a whole list. *)
Lemma closest_idx_nearest f l :
  l ≠ [] ->
  exists i b,
    closest_idx f l 0 None None = Some i
    /\ l !! i = Some b
    /\ (forall b', b' ∈ l -> (dist f b <= dist f b')%Q)
    /\ (forall j b', (j < i)%nat -> l !! j = Some b' -> (dist f b < dist f b')%Q).
Proof.
  destruct l as [|b0 l]; [congruence|]. intros _. cbn [closest_idx].
  destruct (closest_idx f l 1 (Some (dist f b0)) (Some 0%nat)) as [i|] eqn:Heq.
  - destruct (closest_idx_running _ _ _ _ _ _ Heq)
      as [[-> Hall] | (Ho & b & Hl & Hd & Hall & Hbefore)].
    + exists 0%nat, b0. repeat split.
      * intros b' Hb'. apply elem_of_cons in Hb' as [->|Hb'];
          [apply Qle_refl | now apply Hall].
      * intros j b' Hj. lia.
    + exists i, b. split; [reflexivity|].
      replace i with (S (i - 1)) at 1 by lia. split; [exact Hl|]. split.
      * intros b' Hb'. apply elem_of_cons in Hb' as [->|Hb'];
          [now apply Qlt_le_weak | now apply Hall].
      * intros [|j] b' Hj Hl'.
        -- cbn in Hl'. injection Hl' as <-. exact Hd.
        -- apply (Hbefore j); [lia|exact Hl'].
  - now apply closest_idx_started in Heq.
Qed.

(** X8.  When some bucket's range contains the forecast, the forecast
    bucket is the first such bucket in midpoint order. *)
Theorem forecast_bucket_first_containing f buckets b0 :
  b0 ∈ buckets ->
  contains_forecast f b0 = true ->
  exists i b,
    locate_forecast_bucket f buckets = Some i
    /\ buckets !! i = Some b
    /\ contains_forecast f b = true
    /\ forall j b', (j < i)%nat -> buckets !! j = Some b' ->
                    contains_forecast f b' = false.
Proof.
  intros Hin Hc. unfold locate_forecast_bucket.
  destruct (containing_idx f buckets 0) as [i|] eqn:Heq.
  - destruct (containing_idx_Some _ _ _ _ Heq) as (_ & b & Hl & Hcb & Hbefore).
    rewrite Nat.sub_0_r in *. exists i, b. repeat split; assumption.
  - rewrite (containing_idx_None _ _ _ Heq b0 Hin) in Hc. discriminate.
Qed.

(** X9.  When no bucket's range contains the forecast and there is at
    least one bucket, the forecast bucket is a bucket whose midpoint is
    nearest to the forecast, the first one among equally near ones. *)
Theorem forecast_bucket_nearest f buckets :
  buckets ≠ [] ->
  (forall b, b ∈ buckets -> contains_forecast f b = false) ->
  exists i b,
    locate_forecast_bucket f buckets = Some i
    /\ buckets !! i = Some b
    /\ (forall b', b' ∈ buckets ->
                   (Qabs (midpoint b - f) <= Qabs (midpoint b' - f))%Q)
    /\ (forall j b', (j < i)%nat -> buckets !! j = Some b' ->
                     (Qabs (midpoint b - f) < Qabs (midpoint b' - f))%Q).
Proof.
  intros Hne Hnone. unfold locate_forecast_bucket.
  destruct (containing_idx f buckets 0) as [i|] eqn:Heq.
  - destruct (containing_idx_Some _ _ _ _ Heq) as (_ & b & Hl & Hcb & _).
    rewrite (Hnone b) in Hcb; [discriminate|].
    eapply list_elem_of_lookup_2; eassumption.
  - now apply closest_idx_nearest.
Qed.

Lemma forecast_bucket_first_containing_witness :
  exists i b,
    locate_forecast_bucket (497 # 10)%Q [Samples.built_49_50; Samples.built_50_up]
    = Some i
    /\ [Samples.built_49_50; Samples.built_50_up] !! i = Some b
    /\ contains_forecast (497 # 10)%Q b = true
    /\ forall j b', (j < i)%nat ->
                    [Samples.built_49_50; Samples.built_50_up] !! j = Some b' ->
                    contains_forecast (497 # 10)%Q b' = false.
Proof.
  apply (forecast_bucket_first_containing (497 # 10)%Q
           [Samples.built_49_50; Samples.built_50_up] Samples.built_49_50).
  - left.
  - reflexivity.
Defined.

Lemma forecast_bucket_nearest_witness :
  exists i b,
    locate_forecast_bucket (30 # 1)%Q [Samples.built_49_50; Samples.built_50_up]
    = Some i
    /\ [Samples.built_49_50; Samples.built_50_up] !! i = Some b
    /\ (forall b', b' ∈ [Samples.built_49_50; Samples.built_50_up] ->
                   (Qabs (midpoint b - (30 # 1)) <= Qabs (midpoint b' - (30 # 1)))%Q)
    /\ (forall j b', (j < i)%nat ->
                     [Samples.built_49_50; Samples.built_50_up] !! j = Some b' ->
                     (Qabs (midpoint b - (30 # 1)) < Qabs (midpoint b' - (30 # 1)))%Q).
Proof.
  apply (forecast_bucket_nearest (30 # 1)%Q
           [Samples.built_49_50; Samples.built_50_up]).
  - discriminate.
  - intros b Hb. apply elem_of_cons in Hb as [->|Hb]; [reflexivity|].
    apply elem_of_cons in Hb as [->|Hb]; [reflexivity|]. inversion Hb.
Defined.

Lemma locate_forecast_bucket_bound f buckets idx :
  locate_forecast_bucket f buckets = Some idx -> (idx < length buckets)%nat.
Proof.
  unfold locate_forecast_bucket.
  destruct (containing_idx f buckets 0) as [i|] eqn:Heq.
  - intros Hi. injection Hi as <-.
    destruct (containing_idx_Some _ _ _ _ Heq) as (_ & b & Hl & _).
    rewrite Nat.sub_0_r in Hl. eapply lookup_lt_Some; eassumption.
  - intros Hc. destruct buckets as [|b0 l]; [discriminate|].
    destruct (closest_idx_nearest f (b0 :: l)) as (i & b & Hi & Hl & _);
      [discriminate|].
    rewrite Hc in Hi. injection Hi as ->. eapply lookup_lt_Some; eassumption.
Qed.

Lemma evaluate_pair_indices buckets f i j pt vp :
  evaluate_pair buckets f (i, j, pt) = Some vp ->
  buckets !! i = Some (fst (pair vp)) /\ buckets !! j = Some (snd (pair vp))
  /\ pair_type vp = pt.
Proof.
  unfold evaluate_pair.
  destruct (buckets !! i) as [b1|]; [|discriminate].
  destruct (buckets !! j) as [b2|]; [|discriminate].
  destruct (_ || _); [discriminate|].
  destruct (_ <? _); [discriminate|].
  intros Heq. injection Heq as <-. repeat split.
Qed.

Lemma Sorted_adjacent {A} (R : A -> A -> Prop) l i a b :
  Sorted R l -> l !! i = Some a -> l !! S i = Some b -> R a b.
Proof.
  intros Hs. revert i. induction Hs as [|x l Hs IH Hhd]; intros i; [discriminate|].
  destruct i as [|i]; cbn.
  - intros Hx Hb. injection Hx as <-. destruct l as [|y l]; [discriminate|].
    cbn in Hb. injection Hb as <-. now inversion Hhd.
  - apply IH.
Qed.

(** What a returned pair is, in terms of the sorted bucket list. *)
Lemma find_hedge_opportunity_inv markets f b1 b2 cost :
  find_hedge_opportunity markets f = Some (b1, b2, cost) ->
  exists idx i,
    locate_forecast_bucket f (build_buckets markets) = Some idx
    /\ (idx = i \/ idx = S i)
    /\ build_buckets markets !! i = Some b1
    /\ build_buckets markets !! S i = Some b2
    /\ maker_price b1 <= MAX_BUCKET_PRICE
    /\ maker_price b2 <= MAX_BUCKET_PRICE
    /\ cost = maker_price b1 + maker_price b2
    /\ cost <= MAX_TOTAL_COST.
Proof.
  unfold find_hedge_opportunity.
  fold (locate_forecast_bucket f (build_buckets markets)).
  set (buckets := build_buckets markets).
  destruct (locate_forecast_bucket f buckets) as [idx|] eqn:Hloc; [|discriminate].
  set (valid := omap _ _).
  destruct (sort_by pair_key_lt valid) as [|best rest] eqn:Hs; [discriminate|].
  intros Heq. injection Heq as <- <- <-.
  assert (Hin : best ∈ valid).
  { apply (elem_of_sort_by pair_key_lt). rewrite Hs. left. }
  apply list_elem_of_omap in Hin as [[[i j] pt] [Hc Hev]].
  pose proof (evaluate_pair_sound _ _ _ _ Hev) as (_ & _ & Hp1 & Hp2 & Ht & Hle).
  apply evaluate_pair_indices in Hev as (Hi & Hj & _).
  unfold candidate_pairs in Hc. apply elem_of_app in Hc as [Hc|Hc].
  - destruct (0 <? idx)%nat eqn:Hpos; [|inversion Hc].
    apply Nat.ltb_lt in Hpos.
    apply list_elem_of_singleton in Hc. injection Hc as -> -> _.
    exists idx, (idx - 1)%nat. replace (S (idx - 1)) with idx by lia.
    repeat split; try assumption. right. reflexivity.
  - destruct (idx + 1 <? length buckets)%nat; [|inversion Hc].
    apply list_elem_of_singleton in Hc. injection Hc as -> -> _.
    exists idx, idx. replace (S idx) with (idx + 1)%nat by lia.
    repeat split; try assumption. left. reflexivity.
Qed.

(** X10.  A returned pair is two neighbours of the bucket list in
    midpoint order, the lower one first, and one of the two is the
    forecast bucket. *)
Theorem returned_pair_adjacent markets f b1 b2 cost :
  find_hedge_opportunity markets f = Some (b1, b2, cost) ->
  exists idx i,
    locate_forecast_bucket f (build_buckets markets) = Some idx
    /\ (idx = i \/ idx = S i)
    /\ build_buckets markets !! i = Some b1
    /\ build_buckets markets !! S i = Some b2
    /\ (midpoint b1 <= midpoint b2)%Q.
Proof.
  intros H. destruct (find_hedge_opportunity_inv _ _ _ _ _ H)
    as (idx & i & Hloc & Hidx & H1 & H2 & _).
  exists idx, i. repeat split; try assumption.
  refine (Sorted_adjacent (fun a b => (midpoint a <= midpoint b)%Q) _ i b1 b2 _ H1 H2).
  apply sort_by_sorted.
  - intros a b Hlt. apply Qlt_le_weak. now apply Qlt_bool_true.
  - intros a b Hlt. now apply Qlt_bool_false.
Qed.

Lemma returned_pair_adjacent_witness :
  exists idx i,
    locate_forecast_bucket (497 # 10)%Q
      (build_buckets [Samples.bucket_50_up; Samples.bucket_49_50]) = Some idx
    /\ (idx = i \/ idx = S i)
    /\ build_buckets [Samples.bucket_50_up; Samples.bucket_49_50] !! i
       = Some Samples.built_49_50
    /\ build_buckets [Samples.bucket_50_up; Samples.bucket_49_50] !! S i
       = Some Samples.built_50_up
    /\ (midpoint Samples.built_49_50 <= midpoint Samples.built_50_up)%Q.
Proof.
  apply (returned_pair_adjacent [Samples.bucket_50_up; Samples.bucket_49_50]
           (497 # 10)%Q Samples.built_49_50 Samples.built_50_up 60).
  vm_compute. reflexivity.
Defined.

(** X11.  Discovery finds no opportunity when fewer than two markets
    survive the price filter: in particular for no markets at all, for
    a single market, and when every ask is missing or every maker
    price is below 15. *)
Theorem too_few_buckets_no_opportunity markets f :
  (length (build_buckets markets) < 2)%nat ->
  find_hedge_opportunity markets f = None.
Proof.
  intros Hlen.
  destruct (find_hedge_opportunity markets f) as [[[b1 b2] cost]|] eqn:H;
    [|reflexivity].
  destruct (find_hedge_opportunity_inv _ _ _ _ _ H)
    as (idx & i & _ & _ & _ & H2 & _).
  apply lookup_lt_Some in H2. lia.
Qed.

Lemma too_few_buckets_no_opportunity_witness :
  find_hedge_opportunity [Samples.bucket_49_50] (497 # 10)%Q = None.
Proof.
  apply (too_few_buckets_no_opportunity [Samples.bucket_49_50] (497 # 10)%Q).
  vm_compute. lia.
Defined.

(** X12.  The maker price of a bucket kept by discovery never crosses
    the ask, is at most one tick above a positive bid, equals the ask
    capped at 99 when there is no positive bid, and lies in 15..99. *)
Theorem kept_bucket_maker_price market bucket :
  bucket_of_market market = Some bucket ->
  15 <= maker_price bucket <= 99
  /\ maker_price bucket <= b_yes_ask bucket
  /\ (0 < b_yes_bid bucket -> maker_price bucket <= b_yes_bid bucket + 1)
  /\ (b_yes_bid bucket <= 0 -> maker_price bucket = Z.min 99 (b_yes_ask bucket)).
Proof.
  unfold bucket_of_market.
  set (ask := or_Z (yes_ask market) 0). set (bid := or_Z (yes_bid market) 0).
  destruct (Z.leb_spec ask 0) as [|Hask]; [discriminate|].
  set (mp := Z.max 1 (Z.min 99 _)).
  destruct (Z.ltb_spec mp 15) as [|Hmp]; [discriminate|].
  destruct (midpoint_of _ _); [|discriminate].
  intros Heq. injection Heq as <-. cbn [maker_price b_yes_ask b_yes_bid].
  subst mp.
  destruct (Z.eqb_spec bid 0) as [Hb0|Hb0]; cbn [negb andb] in *.
  - repeat split; lia.
  - destruct (Z.ltb_spec 0 bid); repeat split; lia.
Qed.

Lemma kept_bucket_maker_price_witness :
  15 <= maker_price Samples.built_49_50 <= 99
  /\ maker_price Samples.built_49_50 <= b_yes_ask Samples.built_49_50
  /\ (0 < b_yes_bid Samples.built_49_50
      -> maker_price Samples.built_49_50 <= b_yes_bid Samples.built_49_50 + 1)
  /\ (b_yes_bid Samples.built_49_50 <= 0
      -> maker_price Samples.built_49_50 = Z.min 99 (b_yes_ask Samples.built_49_50)).
Proof.
  apply (kept_bucket_maker_price Samples.bucket_49_50 Samples.built_49_50).
  vm_compute. reflexivity.
Defined.


End DiscoveryExtra.

(** * Further properties of the partial-fill policy (strategy.py) *)
Module PolicyExtra.
Import Py Config Monitor Strategy DiscoveryProofs PolicyProofs.

(** X14.  The required wait is 0, 20, 60 or 120 minutes, never grows
    as the close comes nearer, and is 0 from two hours before the close
    on (also after it). *)
Theorem wait_minutes_monotone h1 h2 :
  (h1 <= h2)%Q ->
  get_wait_minutes_for_hours (Some h1) <= get_wait_minutes_for_hours (Some h2)
  /\ (get_wait_minutes_for_hours (Some h1) = 0
      \/ get_wait_minutes_for_hours (Some h1) = 20
      \/ get_wait_minutes_for_hours (Some h1) = 60
      \/ get_wait_minutes_for_hours (Some h1) = 120)
  /\ ((h1 <= 2 # 1)%Q -> get_wait_minutes_for_hours (Some h1) = 0).
Proof.
  intros Hle. unfold get_wait_minutes_for_hours.
  destruct (Qlt_bool (12 # 1) h1) eqn:A1; destruct (Qlt_bool (6 # 1) h1) eqn:B1;
    destruct (Qlt_bool (2 # 1) h1) eqn:C1;
    destruct (Qlt_bool (12 # 1) h2) eqn:A2; destruct (Qlt_bool (6 # 1) h2) eqn:B2;
    destruct (Qlt_bool (2 # 1) h2) eqn:C2;
    repeat match goal with
           | H : Qlt_bool _ _ = true |- _ => apply Qlt_bool_true in H
           | H : Qlt_bool _ _ = false |- _ => apply Qlt_bool_false in H
           end;
    (split; [|split]);
    try lia; try (intros; reflexivity); try tauto;
    try (exfalso;
         match goal with
         | H1 : (?a < h1)%Q, H2 : (h2 <= ?a)%Q |- _ =>
             exact (Qlt_irrefl a (Qlt_le_trans _ _ _ H1 (Qle_trans _ _ _ Hle H2)))
         end);
    try (intros H2h; exfalso;
         match goal with
         | H1 : (?a < h1)%Q |- _ =>
             assert (Ha : (2 # 1 <= a)%Q) by discriminate;
             exact (Qlt_irrefl _ (Qle_lt_trans _ _ _ Ha (Qlt_le_trans _ _ _ H1 H2h)))
         end).
Qed.

Lemma wait_minutes_monotone_witness :
  get_wait_minutes_for_hours (Some (3 # 1)%Q)
  <= get_wait_minutes_for_hours (Some (8 # 1)%Q)
  /\ (get_wait_minutes_for_hours (Some (3 # 1)%Q) = 0
      \/ get_wait_minutes_for_hours (Some (3 # 1)%Q) = 20
      \/ get_wait_minutes_for_hours (Some (3 # 1)%Q) = 60
      \/ get_wait_minutes_for_hours (Some (3 # 1)%Q) = 120)
  /\ ((3 # 1 <= 2 # 1)%Q -> get_wait_minutes_for_hours (Some (3 # 1)%Q) = 0).
Proof.
  apply (wait_minutes_monotone (3 # 1)%Q (8 # 1)%Q). discriminate.
Defined.

Lemma candidate_maker_price_range bid ask :
  1 <= candidate_maker_price bid ask <= 99.
Proof.
  unfold candidate_maker_price. destruct (Z.ltb_spec 0 bid); lia.
Qed.

(** X15.  The new maker price of a pending leg is always a valid
    price 1..99; it never crosses an ask of at least 1, is at most one
    tick above a positive bid, and is exactly bid + 1 when the bid is
    positive and below an ask of at most 99. *)
Theorem candidate_price_bounds bid ask :
  1 <= candidate_maker_price bid ask <= 99
  /\ (1 <= ask -> candidate_maker_price bid ask <= ask)
  /\ (0 < bid -> candidate_maker_price bid ask <= bid + 1)
  /\ (0 < bid -> bid < ask -> ask <= 99 -> candidate_maker_price bid ask = bid + 1)
  /\ (bid <= 0 -> candidate_maker_price bid ask = Z.max 1 (Z.min 99 ask)).
Proof.
  unfold candidate_maker_price. destruct (Z.ltb_spec 0 bid); repeat split; lia.
Qed.

(** X20.  When the hours to the close cannot be determined, the
    decision (action and reason) is the one taken for the same quotes
    and prices with six hours or more to go: the price rules alone. *)
Theorem unknown_close_uses_price_rules
    hours_unknown hours_known get_market_price get_today_forecast
    get_tomorrow_forecast hedge days_ahead h :
  hours_unknown (ticker (pending_pos hedge)) = None ->
  hours_known (ticker (pending_pos hedge)) = Some h ->
  (6 # 1 <= h)%Q ->
  action (evaluate_partial_fill hours_unknown get_market_price get_today_forecast
            get_tomorrow_forecast hedge days_ahead)
  = action (evaluate_partial_fill hours_known get_market_price get_today_forecast
              get_tomorrow_forecast hedge days_ahead)
  /\ reason (evaluate_partial_fill hours_unknown get_market_price get_today_forecast
               get_tomorrow_forecast hedge days_ahead)
     = reason (evaluate_partial_fill hours_known get_market_price get_today_forecast
                 get_tomorrow_forecast hedge days_ahead).
Proof.
  intros Hu Hk H6. unfold evaluate_partial_fill. rewrite Hu, Hk.
  assert (H2 : (2 # 1 <= h)%Q) by (eapply Qle_trans; [|exact H6]; discriminate).
  apply Qlt_bool_false in H2, H6. rewrite H2, H6.
  destruct (get_market_price _); [|split; reflexivity].
  repeat match goal with
         | |- context [if ?c then _ else _] => destruct c
         end; split; reflexivity.
Qed.

Lemma unknown_close_uses_price_rules_witness :
  action (evaluate_partial_fill (fun _ => None) Samples.quote_35_37
            Samples.forecast_50 Samples.forecast_50 Samples.hedge_38_30 1)
  = action (evaluate_partial_fill Samples.close_in_8h Samples.quote_35_37
              Samples.forecast_50 Samples.forecast_50 Samples.hedge_38_30 1)
  /\ reason (evaluate_partial_fill (fun _ => None) Samples.quote_35_37
               Samples.forecast_50 Samples.forecast_50 Samples.hedge_38_30 1)
     = reason (evaluate_partial_fill Samples.close_in_8h Samples.quote_35_37
                 Samples.forecast_50 Samples.forecast_50 Samples.hedge_38_30 1).
Proof.
  apply (unknown_close_uses_price_rules (fun _ => None) Samples.close_in_8h
           Samples.quote_35_37 Samples.forecast_50 Samples.forecast_50
           Samples.hedge_38_30 1 (8 # 1)%Q).
  - reflexivity.
  - reflexivity.
  - discriminate.
Defined.

Section Monitor.
Variable fromisoformat : string -> option datetime.
Variable now : Q.
Variable now_iso : string.
Variable get_hours_until_close : string -> option Q.
Variable get_market_price : string -> option Prices.
Variable get_today_forecast get_tomorrow_forecast : string -> option Q.
Variable cancel_order : string -> bool.
Variable buy : string -> Z -> option (option string).
Variable sell : string -> Z -> bool.

Local Abbreviation evaluate :=
  (evaluate_partial_fill get_hours_until_close get_market_price
                         get_today_forecast get_tomorrow_forecast).
Local Abbreviation monitor :=
  (monitor_hedge fromisoformat now now_iso get_hours_until_close
                 get_market_price get_today_forecast get_tomorrow_forecast
                 cancel_order buy sell).
Local Abbreviation since := (get_time_since_order fromisoformat now).

Lemma evaluate_details hedge days_ahead :
  (details (evaluate hedge days_ahead) = None
   -> action (evaluate hedge days_ahead) = wait
      /\ get_market_price (ticker (pending_pos hedge)) = None)
  /\ forall d, details (evaluate hedge days_ahead) = Some d ->
       exists prices,
         get_market_price (ticker (pending_pos hedge)) = Some prices
         /\ new_maker_price d
            = candidate_maker_price (or_Z (p_yes_bid prices) 0)
                                    (or_Z (p_yes_ask prices) 0)
         /\ d_original_limit d = default 0 (limit_price (pending_pos hedge))
         /\ d_filled_price d = default 0 (limit_price (filled_pos hedge)).
Proof.
  unfold evaluate_partial_fill.
  destruct (get_market_price _) as [prices|].
  - split.
    + repeat match goal with
             | |- context [match ?c with _ => _ end] => destruct c
             end; discriminate.
    + intros d Hd. exists prices. split; [reflexivity|].
      repeat match goal with
             | H : context [match ?c with _ => _ end] |- _ => destruct c
             end; injection Hd as <-; repeat split.
  - split; [intros _; split; reflexivity | discriminate].
Qed.

Lemma execute_reprice_returns hedge new_price w :
  exists b w',
    execute_reprice now_iso cancel_order buy hedge new_price w = (Returned b, w').
Proof.
  unfold execute_reprice. destruct (_ && _); [eexists _, _; reflexivity|].
  destruct (buy _ _); [|eexists _, _; reflexivity].
  unfold bind, load_positions, save_positions, ret.
  destruct (_ !! _); eexists _, _; reflexivity.
Qed.

Lemma execute_derisk_returns hedge w :
  exists b w',
    execute_derisk now_iso get_market_price cancel_order sell hedge w
    = (Returned b, w').
Proof.
  unfold execute_derisk. destruct (get_market_price _); [|eexists _, _; reflexivity].
  destruct (_ <=? 0); [eexists _, _; reflexivity|].
  destruct (sell _ _); eexists _, _; reflexivity.
Qed.

Local Abbreviation parses_to s d :=
  (fromisoformat (replace_Z s) = Some d
   \/ (fromisoformat (replace_Z s) = None
       /\ fromisoformat (split_head "Z" (split_head "+" (replace_Z s))) = Some d)).

(** Reading the order timestamp, in terms of the parser's answers. *)
Lemma since_parsed pos s d :
  timestamp pos = Some s -> s ≠ ""%string -> parses_to s d ->
  since pos = match d with
              | naive t => Returned (Finite ((now - t) / (60 # 1))%Q)
              | aware _ => Raised TypeError
              end.
Proof.
  intros Hts Hne Hp. unfold get_time_since_order, parse_iso_datetime.
  rewrite Hts. destruct s as [|c s']; [now destruct Hne|].
  cbn [truthy_str negb].
  destruct Hp as [-> | [-> ->]]; cbn [try_except]; reflexivity.
Qed.

Lemma since_unparsed pos s :
  timestamp pos = Some s -> s ≠ ""%string ->
  fromisoformat (replace_Z s) = None ->
  fromisoformat (split_head "Z" (split_head "+" (replace_Z s))) = None ->
  since pos = Raised ValueError.
Proof.
  intros Hts Hne H1 H2. unfold get_time_since_order, parse_iso_datetime.
  rewrite Hts. destruct s as [|c s']; [now destruct Hne|].
  cbn [truthy_str negb]. rewrite H1. cbn [try_except]. now rewrite H2.
Qed.

Lemma since_inv pos :
  (truthy_str (timestamp pos) = false /\ since pos = Returned Infinity)
  \/ exists s,
       timestamp pos = Some s /\ s ≠ ""%string
       /\ ((exists t, parses_to s (naive t)
                      /\ since pos = Returned (Finite ((now - t) / (60 # 1))%Q))
           \/ (exists t, parses_to s (aware t) /\ since pos = Raised TypeError)
           \/ (fromisoformat (replace_Z s) = None
               /\ fromisoformat (split_head "Z" (split_head "+" (replace_Z s))) = None
               /\ since pos = Raised ValueError)).
Proof.
  destruct (timestamp pos) as [s|] eqn:Hts.
  2:{ left. split; [reflexivity|].
      unfold get_time_since_order. now rewrite Hts. }
  destruct (String.eqb_spec s "") as [-> | Hne].
  { left. split; [reflexivity|].
    unfold get_time_since_order. now rewrite Hts. }
  right. exists s. split; [reflexivity|]. split; [exact Hne|].
  destruct (fromisoformat (replace_Z s)) as [d|] eqn:H1.
  - pose proof (since_parsed pos s d Hts Hne (or_introl H1)) as Hs.
    destruct d as [t|t]; [left | right; left]; exists t; split; auto.
  - destruct (fromisoformat (split_head "Z" (split_head "+" (replace_Z s))))
      as [d|] eqn:H2.
    + pose proof (since_parsed pos s d Hts Hne (or_intror (conj H1 H2))) as Hs.
      destruct d as [t|t]; [left | right; left]; exists t; split; auto.
    + right. right. split; [reflexivity|]. split; [reflexivity|].
      now apply (since_unparsed pos s).
Qed.

(** The monitor pass over one hedge ends in one of three ways. *)
Lemma monitor_cases hedge days_ahead w :
  (exists e, since (pending_pos hedge) = Raised e
             /\ monitor hedge days_ahead w = (Raised e, w))
  \/ (exists m,
        since (pending_pos hedge) = Returned (Finite m)
        /\ (m < inject_Z (get_wait_minutes_for_hours
                            (get_hours_until_close (ticker (pending_pos hedge)))))%Q
        /\ monitor hedge days_ahead w
           = (Returned (WaitPeriod
                          (inject_Z (get_wait_minutes_for_hours
                                       (get_hours_until_close
                                          (ticker (pending_pos hedge)))) - m)%Q), w))
  \/ (exists m success w',
        since (pending_pos hedge) = Returned m
        /\ minutes_lt m (get_wait_minutes_for_hours
                           (get_hours_until_close (ticker (pending_pos hedge))))
           = false
        /\ monitor hedge days_ahead w
           = (Returned (Evaluated (evaluate hedge days_ahead) success), w')).
Proof.
  unfold monitor_hedge, bind, lift.
  destruct (since (pending_pos hedge)) as [m|e] eqn:Hs.
  2:{ left. exists e. split; reflexivity. }
  destruct (minutes_lt m _) eqn:Hlt.
  - right. left. destruct m as [m|]; [|discriminate].
    exists m. cbn in Hlt. apply Qlt_bool_true in Hlt. repeat split. exact Hlt.
  - right. right. destruct (action (evaluate hedge days_ahead)) eqn:Ha.
    + exists m, true, w. repeat split. exact Hlt.
    + destruct (details (evaluate hedge days_ahead)) as [d|] eqn:Hd.
      * destruct (execute_reprice_returns hedge (new_maker_price d) w)
          as (b & w' & Hr).
        rewrite Hr. exists m, b, w'. repeat split. exact Hlt.
      * apply (proj1 (evaluate_details hedge days_ahead)) in Hd as [Hw _].
        rewrite Hw in Ha. discriminate.
    + destruct (execute_derisk_returns hedge w) as (b & w' & Hr).
      rewrite Hr. exists m, b, w'. repeat split. exact Hlt.
Qed.

(** X16.  The monitor pass over a hedge raises only when reading the
    order timestamp does: ValueError when the timestamp is a non-empty
    string the parser rejects both with and without its zone suffix,
    TypeError when it parses to a timezone-aware datetime, which
    cannot be subtracted from the naive [datetime.now()].  A timestamp
    parsed as aware always ends the pass with TypeError and an
    untouched store.  The pass never fails on a missing
    new_maker_price: a reprice decision always carries one, and that
    price is a valid price 1..99. *)
Theorem monitor_raises_only_on_timestamp hedge days_ahead w :
  (forall e, fst (monitor hedge days_ahead w) = Raised e ->
     exists s,
       timestamp (pending_pos hedge) = Some s /\ s ≠ ""%string
       /\ ((e = ValueError
            /\ fromisoformat (replace_Z s) = None
            /\ fromisoformat (split_head "Z" (split_head "+" (replace_Z s))) = None)
           \/ (e = TypeError
               /\ exists t,
                    fromisoformat (replace_Z s) = Some (aware t)
                    \/ (fromisoformat (replace_Z s) = None
                        /\ fromisoformat
                             (split_head "Z" (split_head "+" (replace_Z s)))
                           = Some (aware t)))))
  /\ (forall s t,
        timestamp (pending_pos hedge) = Some s -> s ≠ ""%string ->
        fromisoformat (replace_Z s) = Some (aware t)
        \/ (fromisoformat (replace_Z s) = None
            /\ fromisoformat (split_head "Z" (split_head "+" (replace_Z s)))
               = Some (aware t)) ->
        monitor hedge days_ahead w = (Raised TypeError, w))
  /\ (action (evaluate hedge days_ahead) = reprice ->
      exists d, details (evaluate hedge days_ahead) = Some d
                /\ 1 <= new_maker_price d <= 99).
Proof.
  split; [|split].
  - intros e He.
    destruct (monitor_cases hedge days_ahead w)
      as [(e' & Hs & Hm) | [(m & _ & _ & Hm) | (m & b & w' & _ & _ & Hm)]];
      rewrite Hm in He; cbn in He; try discriminate.
    injection He as <-.
    destruct (since_inv (pending_pos hedge))
      as [[_ Hi] | (s & Hts & Hne & [(t & _ & Hi) | [(t & Hp & Hi) | (H1 & H2 & Hi)]])];
      rewrite Hi in Hs; try discriminate; injection Hs as <-;
      exists s; split; [exact Hts | | exact Hts |]; (split; [exact Hne|]).
    + right. split; [reflexivity|]. exists t. exact Hp.
    + left. repeat split; assumption.
  - intros s t Hts Hne Hp.
    pose proof (since_parsed (pending_pos hedge) s (aware t) Hts Hne Hp) as Hs.
    destruct (monitor_cases hedge days_ahead w)
      as [(e' & Hs' & Hm) | [(m & Hs' & _) | (m & b & w' & Hs' & _)]];
      rewrite Hs in Hs'; try discriminate.
    injection Hs' as <-. exact Hm.
  - intros Ha. destruct (details (evaluate hedge days_ahead)) as [d|] eqn:Hd.
    + exists d. split; [reflexivity|].
      destruct (proj2 (evaluate_details hedge days_ahead) d Hd)
        as (prices & _ & -> & _).
      apply candidate_maker_price_range.
    + apply (proj1 (evaluate_details hedge days_ahead)) in Hd as [Hw _].
      rewrite Hw in Ha. discriminate.
Qed.


(** X18.  A reprice returns True exactly when the existing order, if
    the pending leg has an order id, is cancelled and the new order is
    accepted.  When it returns False (cancellation refused, or new
    order rejected) the store is exactly as it was.  It never changes
    a record other than the pending leg's, and writes nothing when
    that key is not tracked.  On success a tracked pending leg gets
    the new limit price, the new order id, a fresh order timestamp and
    a reprice counter one higher, and keeps its status and count. *)
Theorem execute_reprice_outcome hedge new_price w :
  exists b w',
    execute_reprice now_iso cancel_order buy hedge new_price w = (Returned b, w')
    /\ (b = true
        <-> (truthy_str (order_id (pending_pos hedge)) = true ->
             cancel_order (default ""%string (order_id (pending_pos hedge))) = true)
            /\ is_Some (buy (ticker (pending_pos hedge)) new_price))
    /\ (b = false -> w' = w)
    /\ (positions_of w !! pending_key hedge = None -> w' = w)
    /\ (forall k, k ≠ pending_key hedge ->
                  positions_of w' !! k = positions_of w !! k)
    /\ (b = true ->
        forall rec,
          positions_of w !! pending_key hedge = Some rec ->
          exists rec',
            positions_of w' !! pending_key hedge = Some rec'
            /\ limit_price rec' = Some new_price
            /\ Some (order_id rec') = buy (ticker (pending_pos hedge)) new_price
            /\ timestamp rec' = Some now_iso
            /\ reprice_count rec' = Some (default 0 (reprice_count rec) + 1)
            /\ status rec' = status rec
            /\ count rec' = count rec).
Proof.
  unfold execute_reprice.
  destruct (truthy_str (order_id (pending_pos hedge))
            && negb (cancel_order (default ""%string (order_id (pending_pos hedge)))))
    eqn:Hc.
  { exists false, w. split; [reflexivity|]. split.
    - split; [discriminate|]. intros [Hcan _].
      apply andb_true_iff in Hc as [Ht Hn]. rewrite (Hcan Ht) in Hn. discriminate.
    - repeat split; congruence. }
  assert (Hcan : truthy_str (order_id (pending_pos hedge)) = true ->
                 cancel_order (default ""%string (order_id (pending_pos hedge)))
                 = true).
  { intros Ht. rewrite Ht in Hc. cbn in Hc. now destruct (cancel_order _). }
  destruct (buy (ticker (pending_pos hedge)) new_price) as [oid|] eqn:Hbuy.
  2:{ exists false, w. split; [reflexivity|]. split.
      - split; [discriminate|]. intros [_ [x Hx]]. discriminate.
      - repeat split; congruence. }
  unfold bind, load_positions, save_positions, ret. fold (positions_of w).
  destruct (positions_of w !! pending_key hedge) as [rec|] eqn:Hrec.
  - eexists true, _. split; [reflexivity|]. split.
    { split; [intros _; split; [exact Hcan | now exists oid] | reflexivity]. }
    split; [discriminate|]. split; [discriminate|].
    cbn [positions_of positions_json default from_option id]. split.
    + intros k Hk. now rewrite lookup_insert_ne.
    + intros _ rec0 Hrec0. injection Hrec0 as <-.
      rewrite lookup_insert_eq. eexists. split; [reflexivity|].
      repeat split.
  - exists true, w. split; [reflexivity|]. split.
    { split; [intros _; split; [exact Hcan | now exists oid] | reflexivity]. }
    split; [reflexivity|]. split; [reflexivity|]. split; [reflexivity|].
    intros _ rec0 Hrec0. discriminate.
Qed.

(** X19.  A de-risk either fails and leaves the store exactly as it
    was (no quote, no positive bid, or the sale is rejected), or
    succeeds at the positive current bid of the filled leg; on success
    the tracked filled leg is marked derisk_sold with that bid as sold
    price and with P&L the bid minus the entry price the hedge was
    scanned with, and the tracked pending leg is marked
    derisk_cancelled. *)
Theorem execute_derisk_outcome hedge w :
  exists b w',
    execute_derisk now_iso get_market_price cancel_order sell hedge w
    = (Returned b, w')
    /\ (b = false -> w' = w)
    /\ (b = true ->
        exists prices,
          get_market_price (ticker (filled_pos hedge)) = Some prices
          /\ 0 < or_Z (p_yes_bid prices) 0
          /\ sell (ticker (filled_pos hedge)) (or_Z (p_yes_bid prices) 0) = true
          /\ (forall rec,
                positions_of w !! pending_key hedge = Some rec ->
                exists rec',
                  positions_of w' !! pending_key hedge = Some rec'
                  /\ status rec' = Some derisk_cancelled)
          /\ (forall rec,
                positions_of w !! filled_key hedge = Some rec ->
                filled_key hedge ≠ pending_key hedge ->
                exists rec',
                  positions_of w' !! filled_key hedge = Some rec'
                  /\ status rec' = Some derisk_sold
                  /\ sold_price rec' = Some (or_Z (p_yes_bid prices) 0)
                  /\ pnl rec'
                     = Some (or_Z (p_yes_bid prices) 0
                             - default 0 (limit_price (filled_pos hedge))))).
Proof.
  unfold execute_derisk.
  destruct (get_market_price (ticker (filled_pos hedge))) as [prices|] eqn:Hp.
  2:{ exists false, w. repeat split; congruence. }
  destruct (Z.leb_spec (or_Z (p_yes_bid prices) 0) 0) as [|Hbid].
  { exists false, w. repeat split; congruence. }
  destruct (sell (ticker (filled_pos hedge)) (or_Z (p_yes_bid prices) 0)) eqn:Hsell.
  2:{ exists false, w. repeat split; congruence. }
  unfold bind, load_positions, save_positions, ret. fold (positions_of w).
  eexists true, _. split; [reflexivity|]. split; [discriminate|].
  intros _. exists prices. split; [reflexivity|]. split; [exact Hbid|].
  split; [exact Hsell|].
  cbn [positions_of positions_json default from_option id]. split.
  - intros rec Hrec. rewrite lookup_alter_eq.
    destruct (decide (filled_key hedge = pending_key hedge)) as [He|Hne].
    + rewrite He, lookup_alter_eq, Hrec. cbn. eexists. split; reflexivity.
    + rewrite lookup_alter_ne, Hrec by exact Hne. cbn. eexists. split; reflexivity.
  - intros rec Hrec Hne.
    rewrite lookup_alter_ne, lookup_alter_eq, Hrec by congruence.
    cbn. eexists. split; [reflexivity|]. repeat split.
Qed.

Lemma contains_char_split_head c s :
  contains_char c s = false -> split_head c s = s.
Proof.
  induction s as [|c' s IH]; cbn; [reflexivity|].
  destruct (Ascii.eqb c' c); cbn; [discriminate|].
  intros H. now rewrite IH.
Qed.

Lemma contains_char_split_head_other c c' s :
  contains_char c s = false -> contains_char c (split_head c' s) = false.
Proof.
  induction s as [|a s IH]; cbn; [reflexivity|].
  destruct (Ascii.eqb a c) eqn:Hac; cbn; [discriminate|].
  intros H. destruct (Ascii.eqb a c'); cbn; [reflexivity|].
  now rewrite Hac, IH.
Qed.

Lemma replace_Z_no_Z s : contains_char "Z" (replace_Z s) = false.
Proof.
  induction s as [|a s IH]; cbn; [reflexivity|].
  destruct (Ascii.eqb a "Z") eqn:Ha; cbn; [exact IH|].
  now rewrite Ha, IH.
Qed.

Lemma replace_Z_suffix s :
  contains_char "Z" s = false ->
  replace_Z (s +:+ "Z") = (s +:+ "+00:00")%string.
Proof.
  induction s as [|a s IH]; [reflexivity|].
  cbn [contains_char].
  destruct (Ascii.eqb a "Z") eqn:Ha; cbn [orb]; [discriminate|].
  intros H. simpl. now rewrite Ha, IH.
Qed.

Lemma split_head_plus_suffix s rest :
  contains_char "+" s = false ->
  split_head "+" (s +:+ String "+" rest) = s.
Proof.
  induction s as [|a s IH]; [reflexivity|].
  cbn [contains_char].
  destruct (Ascii.eqb a "+") eqn:Ha; cbn [orb]; [discriminate|].
  intros H. simpl. now rewrite Ha, IH.
Qed.

(** X21.  A timestamp written with a trailing Z (and no other Z or +)
    is parsed with the suffix +00:00 in place of the Z; if the parser
    rejects that, it is parsed once more with the suffix dropped, and
    ValueError comes out only when both attempts fail.  In the
    fallback the cut at Z never removes anything, whatever the string. *)
Theorem parse_utc_suffix s :
  contains_char "Z" s = false ->
  contains_char "+" s = false ->
  parse_iso_datetime fromisoformat (Some (s +:+ "Z")%string)
  = match fromisoformat (s +:+ "+00:00")%string with
    | Some t => Returned (Some t)
    | None =>
        match fromisoformat s with
        | Some t => Returned (Some t)
        | None => Raised ValueError
        end
    end
  /\ forall s', split_head "Z" (split_head "+" (replace_Z s'))
                = split_head "+" (replace_Z s').
Proof.
  intros HZ Hplus. split.
  - unfold parse_iso_datetime.
    assert (Htruthy : truthy_str (Some (s +:+ "Z")%string) = true)
      by (destruct s; reflexivity).
    rewrite Htruthy. cbn [negb]. rewrite (replace_Z_suffix s HZ).
    destruct (fromisoformat (s +:+ "+00:00")%string); cbn [try_except];
      [reflexivity|].
    rewrite (split_head_plus_suffix s "00:00" Hplus).
    rewrite (contains_char_split_head "Z" s HZ). reflexivity.
  - intros s'. apply contains_char_split_head.
    apply contains_char_split_head_other. apply replace_Z_no_Z.
Qed.

End Monitor.

(** A pending leg stamped 2026-01-26T09:00:00Z: the Z becomes +00:00,
    the parser answers with an aware datetime, and the pass over the
    hedge ends with TypeError. *)
Example utc_timestamp_ends_pass :
  monitor_hedge Samples.fromisoformat_sample (3600 # 1)%Q "2026-01-26T10:00:00"
    Samples.close_in_8h Samples.quote_35_37 Samples.forecast_50
    Samples.forecast_50 Samples.cancel_accepted Samples.buy_rejected
    Samples.sell_rejected Samples.hedge_utc_timestamp 1 Samples.partial_world
  = (Raised TypeError, Samples.partial_world).
Proof. reflexivity. Qed.

Lemma parse_utc_suffix_witness :
  parse_iso_datetime Samples.fromisoformat_sample
    (Some ("2026-01-26T09:00:00" +:+ "Z")%string)
  = match Samples.fromisoformat_sample ("2026-01-26T09:00:00" +:+ "+00:00")%string with
    | Some t => Returned (Some t)
    | None =>
        match Samples.fromisoformat_sample "2026-01-26T09:00:00" with
        | Some t => Returned (Some t)
        | None => Raised ValueError
        end
    end
  /\ forall s', split_head "Z" (split_head "+" (replace_Z s'))
                = split_head "+" (replace_Z s').
Proof.
  apply (parse_utc_suffix Samples.fromisoformat_sample "2026-01-26T09:00:00").
  - reflexivity.
  - reflexivity.
Defined.

End PolicyExtra.

(** * The scan for partial hedges (strategy.py) *)
Module HedgeScanProofs.
Import Py Monitor Strategy.

Local Abbreviation has s := (fun kp : string * Leg => series (snd kp) = Some s).

Lemma dict_append_keys {A} k (x : A) d :
  (dict_append k x d).*1 = if decide (k ∈ d.*1) then d.*1 else d.*1 ++ [k].
Proof.
  induction d as [|[k0 l0] d IH]; cbn [dict_append fmap list_fmap fst].
  - rewrite decide_False; [reflexivity|]. intros H. inversion H.
  - fold (fmap (M:=list) (@fst string (list A))) in *.
    destruct (String.eqb_spec k0 k) as [->|Hne]; cbn [fmap list_fmap fst];
      fold (fmap (M:=list) (@fst string (list A))).
    + rewrite decide_True; [reflexivity|left].
    + rewrite IH. destruct (decide (k ∈ d.*1)) as [Hin|Hnin].
      * rewrite decide_True; [reflexivity|now right].
      * rewrite decide_False; [reflexivity|].
        intros H. apply elem_of_cons in H as [->|H];
          [now destruct Hne | now destruct Hnin].
Qed.

Lemma dict_append_NoDup {A} k (x : A) d :
  NoDup d.*1 -> NoDup (dict_append k x d).*1.
Proof.
  intros Hnd. rewrite dict_append_keys.
  destruct (decide (k ∈ d.*1)) as [_|Hnin]; [exact Hnd|].
  apply NoDup_app. split; [exact Hnd|]. split; [|apply NoDup_singleton].
  intros k' Hk' Hk. apply list_elem_of_singleton in Hk. now subst.
Qed.

Lemma dict_append_elem {A} k (x : A) d k' l' :
  NoDup d.*1 ->
  (k', l') ∈ dict_append k x d ->
  (k' ≠ k /\ (k', l') ∈ d)
  \/ (k' = k /\ ((exists l, (k, l) ∈ d /\ l' = l ++ [x])
                 \/ (¬ (k ∈ d.*1) /\ l' = [x]))).
Proof.
  induction d as [|[k0 l0] d IH]; cbn [dict_append fmap list_fmap fst].
  - intros _ H. apply list_elem_of_singleton in H. injection H as -> ->.
    right. split; [reflexivity|]. right. split; [|reflexivity].
    intros H. inversion H.
  - fold (fmap (M:=list) (@fst string (list A))).
    intros Hnd. apply NoDup_cons in Hnd as [Hk0 Hnd].
    destruct (String.eqb_spec k0 k) as [->|Hne].
    + intros H. apply elem_of_cons in H as [H|H].
      * injection H as -> ->. right. split; [reflexivity|]. left.
        exists l0. split; [left|reflexivity].
      * left. split; [|now right].
        intros ->. apply Hk0. apply list_elem_of_fmap. now exists (k, l').
    + intros H. apply elem_of_cons in H as [H|H].
      * injection H as -> ->. left. split; [exact Hne|left].
      * destruct (IH Hnd H) as [[Hk Hin] | [-> [(l & Hl & ->) | [Hnin ->]]]].
        -- left. split; [exact Hk | now right].
        -- right. split; [reflexivity|]. left. exists l. split; [now right|reflexivity].
        -- right. split; [reflexivity|]. right. split; [|reflexivity].
           intros Hin. apply elem_of_cons in Hin as [Heq|Hin];
             [now destruct Hne | now destruct Hnin].
Qed.

Lemma grouped_step d p kp :
  grouped d p ->
  grouped (match series (snd kp) with
           | Some s => if truthy_str (Some s) then dict_append s kp d else d
           | None => d
           end) (p ++ [kp]).
Proof.
  intros (Hnd & Hsound & Hcomplete).
  assert (Hskip : (forall s, s ≠ ""%string -> series (snd kp) ≠ Some s) ->
                  grouped d (p ++ [kp])).
  { intros Hno. split; [exact Hnd|]. split.
    - intros s l Hl. destruct (Hsound s l Hl) as [Hs ->]. split; [exact Hs|].
      rewrite filter_app, filter_cons_False, filter_nil, app_nil_r by (now apply Hno).
      reflexivity.
    - intros s Hs. rewrite filter_app, filter_cons_False, filter_nil, app_nil_r
        by (now apply Hno). now apply Hcomplete. }
  destruct (series (snd kp)) as [s0|] eqn:Hser.
  2:{ apply Hskip. intros s _. discriminate. }
  destruct s0 as [|c s0].
  { cbn [truthy_str]. apply Hskip. intros s Hs Heq. injection Heq as <-. now destruct Hs. }
  cbn [truthy_str]. set (s0' := String c s0) in *.
  split; [now apply dict_append_NoDup|]. split.
  - intros s l Hl.
    destruct (dict_append_elem _ _ _ _ _ Hnd Hl)
      as [[Hne Hin] | [-> [(l0 & Hl0 & ->) | [Hnin ->]]]].
    + destruct (Hsound s l Hin) as [Hs ->]. split; [exact Hs|].
      rewrite filter_app, filter_cons_False, filter_nil, app_nil_r; [reflexivity|].
      cbn. rewrite Hser. congruence.
    + destruct (Hsound _ _ Hl0) as [Hs ->]. split; [exact Hs|].
      rewrite filter_app, filter_cons_True, filter_nil by exact Hser. reflexivity.
    + split; [discriminate|].
      rewrite filter_app, filter_cons_True, filter_nil by exact Hser.
      destruct (filter (has s0') p) as [|y l] eqn:Hf; [reflexivity|].
      destruct Hnin. apply Hcomplete; [discriminate | rewrite Hf; discriminate].
  - intros s Hs Hf. rewrite dict_append_keys.
    destruct (decide (s = s0')) as [->|Hne].
    + destruct (decide (s0' ∈ d.*1)) as [Hin|_]; [exact Hin|].
      apply elem_of_app. right. left.
    + rewrite filter_app, filter_cons_False, filter_nil, app_nil_r in Hf
        by (cbn; rewrite Hser; congruence).
      destruct (decide (s0' ∈ d.*1)); [|apply elem_of_app; left];
        now apply Hcomplete.
Qed.

Lemma group_by_series_grouped items : grouped (group_by_series items) items.
Proof.
  unfold group_by_series.
  assert (Hgen : forall items d p, grouped d p ->
            grouped (fold_left
                       (fun by_series kp =>
                          match series (snd kp) with
                          | Some s => if truthy_str (Some s)
                                      then dict_append s kp by_series
                                      else by_series
                          | None => by_series
                          end) items d) (p ++ items)).
  { clear. induction items as [|kp items IH]; intros d p Hg; cbn [fold_left].
    - now rewrite app_nil_r.
    - replace (p ++ kp :: items) with ((p ++ [kp]) ++ items)
        by (now rewrite <- app_assoc).
      apply IH. now apply grouped_step. }
  apply (Hgen items [] []). split; [constructor|]. split.
  - intros s l H. inversion H.
  - intros s _ H. now destruct H.
Qed.

Lemma LegStatus_eqb_eq a b : LegStatus_eqb a b = true -> a = b.
Proof. destruct a, b; cbn; congruence. Qed.

(** X22.  Every hedge the scan reports pairs the only two tracked
    records of one series (by a non-empty series name): the leg it
    calls filled has status filled or no status at all, and the leg it
    calls pending has status pending.  A series with more or fewer than
    two records, or whose open leg is partial or terminal, yields no
    hedge. *)
Theorem partial_hedges_sound items hedge :
  hedge ∈ find_partial_fill_hedges items ->
  hedge_series hedge ≠ ""%string
  /\ (filter (fun kp => series (snd kp) = Some (hedge_series hedge)) items
      = [(filled_key hedge, filled_pos hedge); (pending_key hedge, pending_pos hedge)]
      \/ filter (fun kp => series (snd kp) = Some (hedge_series hedge)) items
         = [(pending_key hedge, pending_pos hedge); (filled_key hedge, filled_pos hedge)])
  /\ default filled (status (filled_pos hedge)) = filled
  /\ status (pending_pos hedge) = Some pending.
Proof.
  unfold find_partial_fill_hedges. rewrite list_elem_of_omap.
  intros [[s l] [Hin Hh]].
  destruct (group_by_series_grouped items) as (_ & Hsound & _).
  destruct (Hsound s l Hin) as [Hs Hl].
  unfold partial_hedge_of in Hh.
  destruct l as [|[k1 p1] [|[k2 p2] [|? ?]]]; try discriminate.
  assert (Hpending : forall p, LegStatus_eqb (default filled (status p)) pending = true ->
                               status p = Some pending).
  { intros p Hp. apply LegStatus_eqb_eq in Hp.
    destruct (status p) as [st|]; cbn in Hp; congruence. }
  destruct (LegStatus_eqb (default filled (status p1)) filled
            && LegStatus_eqb (default filled (status p2)) pending) eqn:H12.
  - apply andb_true_iff in H12 as [H1 H2]. injection Hh as <-.
    cbn [hedge_series filled_key filled_pos pending_key pending_pos].
    split; [exact Hs|]. split; [left; now rewrite <- Hl|].
    split; [now apply LegStatus_eqb_eq | now apply Hpending].
  - destruct (LegStatus_eqb (default filled (status p2)) filled
              && LegStatus_eqb (default filled (status p1)) pending) eqn:H21;
      [|discriminate].
    apply andb_true_iff in H21 as [H2 H1]. injection Hh as <-.
    cbn [hedge_series filled_key filled_pos pending_key pending_pos].
    split; [exact Hs|]. split; [right; now rewrite <- Hl|].
    split; [now apply LegStatus_eqb_eq | now apply Hpending].
Qed.

Lemma partial_hedges_sound_witness :
  hedge_series Samples.hedge_38_30 ≠ ""%string
  /\ (filter (fun kp => series (snd kp) = Some (hedge_series Samples.hedge_38_30))
             [("KXHIGHNY-26JAN27-T50_yes"%string, Samples.pending_leg_30);
              (Samples.ny_key, Samples.partial_leg);
              ("KXHIGHNY-26JAN27-B49.5_yes"%string, Samples.filled_leg_38)]
      = [(filled_key Samples.hedge_38_30, filled_pos Samples.hedge_38_30);
         (pending_key Samples.hedge_38_30, pending_pos Samples.hedge_38_30)]
      \/ filter (fun kp => series (snd kp) = Some (hedge_series Samples.hedge_38_30))
                [("KXHIGHNY-26JAN27-T50_yes"%string, Samples.pending_leg_30);
                 (Samples.ny_key, Samples.partial_leg);
                 ("KXHIGHNY-26JAN27-B49.5_yes"%string, Samples.filled_leg_38)]
         = [(pending_key Samples.hedge_38_30, pending_pos Samples.hedge_38_30);
            (filled_key Samples.hedge_38_30, filled_pos Samples.hedge_38_30)])
  /\ default filled (status (filled_pos Samples.hedge_38_30)) = filled
  /\ status (pending_pos Samples.hedge_38_30) = Some pending.
Proof.
  apply (partial_hedges_sound
           [("KXHIGHNY-26JAN27-T50_yes"%string, Samples.pending_leg_30);
            (Samples.ny_key, Samples.partial_leg);
            ("KXHIGHNY-26JAN27-B49.5_yes"%string, Samples.filled_leg_38)]
           Samples.hedge_38_30).
  vm_compute. left.
Defined.

End HedgeScanProofs.

(** * The forecast of a market for a day (nws_forecast.py) *)
Module ForecastProofs.
Import Py Config NwsForecast.

Lemma fold_max_spec l a :
  a <= fold_left Z.max l a
  /\ (forall t, t ∈ l -> t <= fold_left Z.max l a)
  /\ (fold_left Z.max l a = a \/ fold_left Z.max l a ∈ l).
Proof.
  revert a. induction l as [|x l IH]; intros a; cbn [fold_left].
  - split; [lia|]. split; [|now left]. intros t Ht. inversion Ht.
  - destruct (IH (Z.max a x)) as (H1 & H2 & H3). split; [lia|]. split.
    + intros t Ht. apply elem_of_cons in Ht as [->|Ht]; [lia | now apply H2].
    + destruct H3 as [H3|H3]; [|right; now right].
      destruct (Z.max_spec a x) as [[_ Hm]|[_ Hm]]; rewrite Hm in *.
      * right. rewrite H3. left.
      * now left.
Qed.

Lemma fold_min_spec l a :
  fold_left Z.min l a <= a
  /\ (forall t, t ∈ l -> fold_left Z.min l a <= t)
  /\ (fold_left Z.min l a = a \/ fold_left Z.min l a ∈ l).
Proof.
  revert a. induction l as [|x l IH]; intros a; cbn [fold_left].
  - split; [lia|]. split; [|now left]. intros t Ht. inversion Ht.
  - destruct (IH (Z.min a x)) as (H1 & H2 & H3). split; [lia|]. split.
    + intros t Ht. apply elem_of_cons in Ht as [->|Ht]; [lia | now apply H2].
    + destruct H3 as [H3|H3]; [|right; now right].
      destruct (Z.min_spec a x) as [[_ Hm]|[_ Hm]]; rewrite Hm in *.
      * now left.
      * right. rewrite H3. left.
Qed.

Lemma max_by_temp_snd best rest :
  snd (max_by_temp best rest) = fold_left Z.max (map snd rest) (snd best).
Proof.
  revert best. induction rest as [|x rest IH]; intros best; [reflexivity|].
  cbn [max_by_temp map fold_left]. rewrite IH. f_equal.
  destruct (Z.ltb_spec (snd best) (snd x)); lia.
Qed.

Lemma min_by_temp_snd best rest :
  snd (min_by_temp best rest) = fold_left Z.min (map snd rest) (snd best).
Proof.
  revert best. induction rest as [|x rest IH]; intros best; [reflexivity|].
  cbn [min_by_temp map fold_left]. rewrite IH. f_equal.
  destruct (Z.ltb_spec (snd x) (snd best)); lia.
Qed.



End ForecastProofs.

(** * Further properties of the trade ledger (trade_history.py) *)
Module LedgerExtra.
Import Py TradeHistory LedgerProofs.

Local Abbreviation won_of :=
  (fun t : Trade => match outcome t with win => 100 - total_cost t | _ => 0 end).
Local Abbreviation lost_of :=
  (fun t : Trade => match outcome t with loss => total_cost t | _ => 0 end).
Local Abbreviation derisk_of :=
  (fun t : Trade => match outcome t with derisked => or_Z (pnl t) 0 | _ => 0 end).

Lemma fold_left_add l a : fold_left Z.add l a = a + sumZ l.
Proof.
  unfold sumZ. revert a. induction l as [|x l IH]; intros a; cbn [fold_left]; [lia|].
  rewrite IH, (IH (0 + x)). lia.
Qed.

Lemma sumZ_cons x l : sumZ (x :: l) = x + sumZ l.
Proof. unfold sumZ at 1. cbn [fold_left]. rewrite fold_left_add. lia. Qed.

Lemma sumZ_app l1 l2 : sumZ (l1 ++ l2) = sumZ l1 + sumZ l2.
Proof.
  induction l1 as [|x l1 IH]; [reflexivity|].
  cbn [app]. rewrite !sumZ_cons, IH. lia.
Qed.

Lemma sumZ_perm l1 l2 : l1 ≡ₚ l2 -> sumZ l1 = sumZ l2.
Proof.
  induction 1 as [|x l1 l2 _ IH|x y l|l1 l2 l3 _ IH1 _ IH2];
    rewrite ?sumZ_cons; lia.
Qed.

Lemma tally_fold l a :
  fold_left tally_trade l a
  = mkTally (t_won_profit a + sumZ (map won_of l))
            (t_lost_loss a + sumZ (map lost_of l))
            (t_derisk_pnl a + sumZ (map derisk_of l))
            (t_wins a + count_outcome win l)
            (t_losses a + count_outcome loss l)
            (t_derisked a + count_outcome derisked l)
            (t_open a + count_outcome open l).
Proof.
  revert a. induction l as [|x l IH]; intros a.
  - destruct a. cbn. f_equal; lia.
  - cbn [fold_left]. rewrite IH. unfold count_outcome. cbn [map].
    rewrite !sumZ_cons. unfold tally_trade.
    destruct (outcome x); cbn; f_equal; lia.
Qed.

Lemma counts_add_up l :
  count_outcome win l + count_outcome loss l + count_outcome derisked l
  + count_outcome open l = Z.of_nat (length l).
Proof.
  unfold count_outcome. induction l as [|x l IH]; [reflexivity|].
  cbn [map length]. rewrite !sumZ_cons. destruct (outcome x); cbn; lia.
Qed.

Lemma realised_sum l :
  sumZ (map realised l)
  = sumZ (map won_of l) - sumZ (map lost_of l) + sumZ (map derisk_of l).
Proof.
  induction l as [|x l IH]; [reflexivity|].
  cbn [map]. rewrite !sumZ_cons, IH. unfold realised. destruct (outcome x); lia.
Qed.

(** The groups of a dict of lists hold the items appended to it. *)
Lemma concat_dict_append {A} k (x : A) d :
  concat (dict_append k x d).*2 ≡ₚ x :: concat d.*2.
Proof.
  induction d as [|[k0 l0] d IH]; cbn [dict_append fmap list_fmap snd concat].
  - reflexivity.
  - destruct (String.eqb k0 k); cbn [fmap list_fmap snd concat].
    + rewrite <- app_assoc. cbn [app].
      rewrite <- Permutation_middle. reflexivity.
    + fold (fmap (M:=list) (@snd string (list A))). rewrite IH.
      rewrite <- Permutation_middle. reflexivity.
Qed.

Lemma group_by_date_perm trades : concat (group_by_date trades).*2 ≡ₚ trades.
Proof.
  unfold group_by_date.
  assert (Hgen : forall l d,
            concat (fold_left
                      (fun by_date trade =>
                         dict_append (default "unknown"%string (market_date trade))
                                     trade by_date) l d).*2
            ≡ₚ concat d.*2 ++ l).
  { induction l as [|x l IH]; intros d; cbn [fold_left].
    - now rewrite app_nil_r.
    - rewrite IH, concat_dict_append. cbn [app].
      rewrite <- Permutation_middle. reflexivity. }
  rewrite Hgen. reflexivity.
Qed.

Lemma sum_groups (g : Trade -> Z) (groups : list (string * list Trade)) :
  sumZ (map (fun e => sumZ (map g (snd e))) groups)
  = sumZ (map g (concat groups.*2)).
Proof.
  induction groups as [|[k l] groups IH]; [reflexivity|].
  cbn [map fmap list_fmap snd concat]. rewrite sumZ_cons, map_app, sumZ_app.
  fold (fmap (M:=list) (@snd string (list Trade))). now rewrite IH.
Qed.

(** A sum over the per-date summaries is the sum over all trades. *)
Lemma daily_sum (g : Trade -> Z) (field : Stats -> Z) trades :
  (forall l, field (date_stats l) = sumZ (map g l)) ->
  sumZ (map (fun d => field (snd d)) (by_date (_update_summary trades)))
  = sumZ (map g trades).
Proof.
  intros Hfield. unfold _update_summary. cbn [by_date].
  rewrite map_map. cbn [snd].
  erewrite map_ext by (intros e; apply Hfield).
  rewrite (sumZ_perm _ (map (fun e => sumZ (map g (snd e))) (group_by_date trades))).
  2:{ apply Permutation_map. apply DiscoveryProofs.sort_by_perm. }
  rewrite sum_groups. apply sumZ_perm. apply Permutation_map.
  apply group_by_date_perm.
Qed.

Lemma date_stats_fields l :
  s_won_profit (date_stats l) = sumZ (map won_of l)
  /\ s_lost_loss (date_stats l) = sumZ (map lost_of l)
  /\ s_derisk_pnl (date_stats l) = sumZ (map derisk_of l)
  /\ s_wins (date_stats l) = count_outcome win l
  /\ s_losses (date_stats l) = count_outcome loss l
  /\ s_derisked (date_stats l) = count_outcome derisked l
  /\ s_open (date_stats l) = count_outcome open l.
Proof. unfold date_stats. rewrite tally_fold. cbn. repeat split; lia. Qed.

(** The totals written as sums over the trades themselves. *)
Lemma totals_sums trades :
  totals (_update_summary trades)
  = mkStats (count_outcome win trades) (count_outcome loss trades)
            (count_outcome derisked trades) (count_outcome open trades)
            (Z.of_nat (length trades))
            (sumZ (map won_of trades)) (sumZ (map lost_of trades))
            (sumZ (map derisk_of trades))
            (sumZ (map won_of trades) - sumZ (map lost_of trades)
             + sumZ (map derisk_of trades))
            (sumZ (map total_cost trades)).
Proof.
  pose proof (daily_sum won_of s_won_profit trades
                (fun l => proj1 (date_stats_fields l))) as Hw.
  pose proof (daily_sum lost_of s_lost_loss trades
                (fun l => proj1 (proj2 (date_stats_fields l)))) as Hl.
  pose proof (daily_sum derisk_of s_derisk_pnl trades
                (fun l => proj1 (proj2 (proj2 (date_stats_fields l))))) as Hd.
  unfold _update_summary in *. cbn [by_date totals] in *.
  rewrite Hw, Hl, Hd. reflexivity.
Qed.

(** X24.  For a ledger whose trades each carry a total cost and one of
    the outcomes open, win, loss, derisked (as [Trade] has them): the
    overall net profit of the summary is the sum, over all trades of
    the ledger, of what each has realised: 100 minus its cost
    for a win, minus its cost for a loss, its recorded P&L for a
    de-risk, nothing while open.  The overall counts of wins, losses,
    de-risks and open trades add up to the number of trades, and the
    capital invested is the sum of all total costs. *)
Theorem summary_totals trades :
  s_net_profit (totals (_update_summary trades)) = sumZ (map realised trades)
  /\ s_wins (totals (_update_summary trades))
     + s_losses (totals (_update_summary trades))
     + s_derisked (totals (_update_summary trades))
     + s_open (totals (_update_summary trades))
     = s_total_trades (totals (_update_summary trades))
  /\ s_total_trades (totals (_update_summary trades)) = Z.of_nat (length trades)
  /\ s_total_invested (totals (_update_summary trades))
     = sumZ (map total_cost trades).
Proof.
  rewrite totals_sums. cbn [s_net_profit s_wins s_losses s_derisked s_open
                           s_total_trades s_total_invested].
  rewrite realised_sum, counts_add_up. repeat split.
Qed.

(** X25.  The totals of the summary do not depend on the order in which
    the ledger lists its trades. *)
Theorem summary_totals_order trades trades' :
  trades ≡ₚ trades' ->
  totals (_update_summary trades) = totals (_update_summary trades').
Proof.
  intros Hp. rewrite !totals_sums. unfold count_outcome.
  rewrite (Permutation_length Hp).
  f_equal; try (apply sumZ_perm, Permutation_map, Hp);
    rewrite (sumZ_perm _ _ (Permutation_map won_of Hp)),
            (sumZ_perm _ _ (Permutation_map lost_of Hp)),
            (sumZ_perm _ _ (Permutation_map derisk_of Hp)); reflexivity.
Qed.

Lemma summary_totals_order_witness :
  totals (_update_summary [Samples.trade_60; Samples.trade_55_lost])
  = totals (_update_summary [Samples.trade_55_lost; Samples.trade_60]).
Proof.
  apply (summary_totals_order [Samples.trade_60; Samples.trade_55_lost]
           [Samples.trade_55_lost; Samples.trade_60]).
  apply Permutation_swap.
Defined.

Lemma dict_append_nonempty {A} k (x : A) d :
  (forall e, e ∈ d -> snd e ≠ []) ->
  forall e, e ∈ dict_append k x d -> snd e ≠ [].
Proof.
  induction d as [|[k0 l0] d IH]; cbn [dict_append]; intros Hd e He.
  - apply list_elem_of_singleton in He. subst e. discriminate.
  - destruct (String.eqb k0 k).
    + apply elem_of_cons in He as [->|He]; [|apply Hd; now right].
      cbn. destruct l0; discriminate.
    + apply elem_of_cons in He as [->|He]; [apply (Hd (k0, l0)); left|].
      apply IH; [|exact He]. intros e' He'. apply Hd. now right.
Qed.

Lemma group_by_date_shape trades :
  NoDup (group_by_date trades).*1
  /\ (forall e, e ∈ group_by_date trades -> snd e ≠ [])
  /\ (forall t, t ∈ trades ->
                default "unknown"%string (market_date t) ∈ (group_by_date trades).*1).
Proof.
  unfold group_by_date.
  set (step := fun (by_date : list (string * list Trade)) trade =>
                 dict_append (default "unknown"%string (market_date trade))
                             trade by_date).
  assert (Hgen : forall l d,
            NoDup d.*1 -> (forall e, e ∈ d -> snd e ≠ []) ->
            NoDup (fold_left step l d).*1
            /\ (forall e, e ∈ fold_left step l d -> snd e ≠ [])
            /\ (forall k, k ∈ d.*1 -> k ∈ (fold_left step l d).*1)
            /\ (forall t, t ∈ l ->
                  default "unknown"%string (market_date t)
                  ∈ (fold_left step l d).*1)).
  { induction l as [|x l IH]; intros d Hnd Hne; cbn [fold_left].
    - split; [exact Hnd|]. split; [exact Hne|]. split; [auto|].
      intros t Ht. inversion Ht.
    - destruct (IH (step d x)) as (H1 & H2 & H3 & H4).
      + now apply HedgeScanProofs.dict_append_NoDup.
      + now apply dict_append_nonempty.
      + assert (Hkeys : forall k, k ∈ d.*1 \/ k = default "unknown"%string (market_date x)
                                  -> k ∈ (step d x).*1).
        { intros k Hk. unfold step. rewrite HedgeScanProofs.dict_append_keys.
          destruct (decide (default "unknown"%string (market_date x) ∈ d.*1)) as [Hin|Hnin].
          - destruct Hk as [Hk| ->]; assumption.
          - apply elem_of_app. destruct Hk as [Hk| ->]; [now left|right; left]. }
        repeat split; try assumption.
        * intros k Hk. apply H3, Hkeys. now left.
        * intros t Ht. apply elem_of_cons in Ht as [->|Ht]; [|now apply H4].
          apply H3, Hkeys. now right. }
  destruct (Hgen trades []) as (H1 & H2 & _ & H4).
  - constructor.
  - intros e He. inversion He.
  - repeat split; assumption.
Qed.

Lemma ltb_leb a b : String.ltb a b = true -> String.leb a b = true.
Proof. unfold String.ltb, String.leb. destruct (String.compare a b); congruence. Qed.

Lemma ltb_false_leb a b : String.ltb a b = false -> String.leb b a = true.
Proof.
  unfold String.ltb, String.leb. rewrite (String.compare_antisym a b).
  destruct (String.compare b a); cbn; congruence.
Qed.

Lemma Sorted_map_fst {A B} (R : string -> string -> Prop) (f : A -> B)
    (l : list (string * A)) :
  Sorted (fun x y => R (fst x) (fst y)) l ->
  Sorted (fun x y => R (fst x) (fst y)) (map (fun e => (fst e, f (snd e))) l).
Proof.
  induction 1 as [|x l Hs IH Hhd]; cbn [map]; constructor; [exact IH|].
  destruct Hhd; cbn [map]; constructor. assumption.
Qed.

(** X26.  The per-date summaries are listed by ascending date, one
    entry per date, and every trade's date (or "unknown") has its
    entry.  Each entry counts at least one trade, its counts of wins,
    losses, de-risks and open trades add up to its number of trades,
    and the numbers of trades of all dates add up to the size of the
    ledger. *)
Theorem daily_summaries_consistent trades :
  Sorted (fun x y => String.leb (fst x) (fst y) = true)
         (by_date (_update_summary trades))
  /\ NoDup (by_date (_update_summary trades)).*1
  /\ (forall t, t ∈ trades ->
                default "unknown"%string (market_date t)
                ∈ (by_date (_update_summary trades)).*1)
  /\ (forall d st,
        (d, st) ∈ by_date (_update_summary trades) ->
        0 < s_total_trades st
        /\ s_wins st + s_losses st + s_derisked st + s_open st = s_total_trades st
        /\ s_net_profit st = s_won_profit st - s_lost_loss st + s_derisk_pnl st)
  /\ sumZ (map (fun d => s_total_trades (snd d)) (by_date (_update_summary trades)))
     = Z.of_nat (length trades).
Proof.
  destruct (group_by_date_shape trades) as (Hnd & Hne & Hall).
  assert (Hkeys : (by_date (_update_summary trades)).*1
                  ≡ₚ (group_by_date trades).*1).
  { unfold _update_summary. cbn [by_date].
    rewrite <- list_fmap_compose.
    rewrite (DiscoveryProofs.sort_by_perm _ (group_by_date trades)).
    reflexivity. }
  split; [|split; [|split; [|split]]].
  - unfold _update_summary. cbn [by_date].
    apply (Sorted_map_fst (fun a b => String.leb a b = true)).
    apply DiscoveryProofs.sort_by_sorted.
    + intros a b. apply ltb_leb.
    + intros a b. apply ltb_false_leb.
  - now rewrite Hkeys.
  - intros t Ht. rewrite Hkeys. now apply Hall.
  - intros d st Hin. unfold _update_summary in Hin. cbn [by_date] in Hin.
    apply list_elem_of_fmap in Hin as [[d0 l] [Heq Hl]]. injection Heq as -> ->.
    cbn [fst snd]. apply (DiscoveryProofs.elem_of_sort_by) in Hl.
    apply Hne in Hl. cbn [snd] in Hl.
    pose proof (date_stats_fields l) as (_ & _ & _ & Hw & Hls & Hd & Ho).
    rewrite Hw, Hls, Hd, Ho, counts_add_up. unfold date_stats.
    cbn [s_total_trades s_net_profit s_won_profit s_lost_loss s_derisk_pnl].
    repeat split. destruct l; [congruence|cbn; lia].
  - rewrite (daily_sum (fun _ => 1) s_total_trades).
    + clear. induction trades as [|x l IH]; [reflexivity|].
      cbn [map length]. rewrite sumZ_cons, IH. lia.
    + intros l. unfold date_stats. cbn [s_total_trades].
      induction l as [|x l IH]; [reflexivity|].
      cbn [map length]. rewrite sumZ_cons, <- IH. lia.
Qed.

Lemma lookup_modify_trade_ne trade_id trade_id' f trades :
  (forall t, id (f t) = id t) ->
  trade_id' ≠ trade_id ->
  lookup_trade trade_id' (modify_trade trade_id f trades)
  = lookup_trade trade_id' trades.
Proof.
  intros Hid Hne. induction trades as [|t rest IH]; [reflexivity|].
  cbn [modify_trade]. destruct (String.eqb_spec (id t) trade_id) as [He|Hn].
  - cbn [lookup_trade]. rewrite Hid, He.
    destruct (String.eqb_spec trade_id trade_id'); [congruence|reflexivity].
  - cbn [lookup_trade]. now rewrite IH.
Qed.

Lemma map_modify_trade {B} (g : Trade -> B) trade_id f trades :
  (forall t, g (f t) = g t) ->
  map g (modify_trade trade_id f trades) = map g trades.
Proof.
  intros Hg. induction trades as [|t rest IH]; [reflexivity|].
  cbn [modify_trade]. destruct (String.eqb (id t) trade_id); cbn [map].
  - now rewrite Hg.
  - now rewrite IH.
Qed.

(** Every call acts by mutating the addressed trade, or not at all. *)
Lemma run_call_shape call trades :
  (fst (run_call call trades) = false /\ snd (run_call call trades) = trades)
  \/ (fst (run_call call trades) = true
      /\ exists f,
           snd (run_call call trades) = modify_trade (call_id call) f trades
           /\ forall t, id (f t) = id t /\ market_date (f t) = market_date t
                        /\ total_cost (f t) = total_cost t
                        /\ key (leg1 (f t)) = key (leg1 t)
                        /\ key (leg2 (f t)) = key (leg2 t)).
Proof.
  destruct call as [now tid k temp sp | now tid temp | now tid k sp ck
                    | now tid k sp ts]; cbn [run_call call_id].
  - unfold record_win. destruct (lookup_trade tid trades) as [trade|]; [|now left].
    destruct (String.eqb (key (leg1 trade)) k);
      [right; split; [reflexivity|]; eexists; split; [reflexivity|];
       intros t; repeat split|].
    destruct (String.eqb (key (leg2 trade)) k);
      [right; split; [reflexivity|]; eexists; split; [reflexivity|];
       intros t; repeat split | now left].
  - unfold record_loss. destruct (lookup_trade tid trades) as [trade|]; [|now left].
    right. split; [reflexivity|]. eexists. split; [reflexivity|].
    intros t; repeat split.
  - unfold record_derisk. destruct (lookup_trade tid trades) as [trade|]; [|now left].
    right. split; [reflexivity|]. eexists. split; [reflexivity|].
    intros t. cbn beta. destruct (String.eqb (key (leg1 t)) k); repeat split.
  - unfold record_sale. destruct (lookup_trade tid trades) as [trade|]; [|now left].
    destruct (String.eqb (key (leg1 trade)) k);
      [right; split; [reflexivity|]; eexists; split; [reflexivity|];
       intros t; repeat split|].
    destruct (String.eqb (key (leg2 trade)) k);
      [right; split; [reflexivity|]; eexists; split; [reflexivity|];
       intros t; repeat split | now left].
Qed.

(** X27.  A ledger call is accepted exactly when the ledger holds a
    trade with the given id and, for a win or a sale, the given leg key
    is the key of one of its two legs; a loss and a de-risk need only
    the trade.  A rejected call returns False and leaves the ledger
    exactly as it was. *)
Theorem ledger_call_accepted call trades :
  (fst (run_call call trades) = true
   <-> exists trade,
         lookup_trade (call_id call) trades = Some trade
         /\ match call with
            | CallWin _ _ k _ _ | CallSale _ _ k _ _ =>
                key (leg1 trade) = k \/ key (leg2 trade) = k
            | CallLoss _ _ _ | CallDerisk _ _ _ _ _ => True
            end)
  /\ (fst (run_call call trades) = false -> snd (run_call call trades) = trades).
Proof.
  split.
  2:{ destruct (run_call_shape call trades) as [[_ Hs]|[Ht _]];
        [intros _; exact Hs | congruence]. }
  destruct call as [now tid k temp sp | now tid temp | now tid k sp ck
                    | now tid k sp ts]; cbn [run_call call_id].
  - unfold record_win. destruct (lookup_trade tid trades) as [trade|].
    2:{ split; [discriminate | intros (t & Ht & _); discriminate]. }
    destruct (String.eqb_spec (key (leg1 trade)) k) as [H1|H1].
    { split; [intros _; exists trade; split; [reflexivity | now left] | reflexivity]. }
    destruct (String.eqb_spec (key (leg2 trade)) k) as [H2|H2].
    { split; [intros _; exists trade; split; [reflexivity | now right] | reflexivity]. }
    split; [discriminate|]. intros (t & Ht & Hk). injection Ht as <-. tauto.
  - unfold record_loss. destruct (lookup_trade tid trades) as [trade|].
    + split; [intros _; now exists trade | reflexivity].
    + split; [discriminate | intros (t & Ht & _); discriminate].
  - unfold record_derisk. destruct (lookup_trade tid trades) as [trade|].
    + split; [intros _; now exists trade | reflexivity].
    + split; [discriminate | intros (t & Ht & _); discriminate].
  - unfold record_sale. destruct (lookup_trade tid trades) as [trade|].
    2:{ split; [discriminate | intros (t & Ht & _); discriminate]. }
    destruct (String.eqb_spec (key (leg1 trade)) k) as [H1|H1].
    { split; [intros _; exists trade; split; [reflexivity | now left] | reflexivity]. }
    destruct (String.eqb_spec (key (leg2 trade)) k) as [H2|H2].
    { split; [intros _; exists trade; split; [reflexivity | now right] | reflexivity]. }
    split; [discriminate|]. intros (t & Ht & Hk). injection Ht as <-. tauto.
Qed.

(** X28.  [record_derisk] does not check the sold-leg key: when it is
    the key of neither leg of the trade, the call is still accepted,
    the second leg is booked as the sold one (status derisk_sold, P&L
    the sold price minus its entry price, which becomes the trade's
    P&L) and the first leg as the cancelled one.  The entry price is
    the second leg's fill price, or its order price (0 without one)
    when it has no fill price or fill price 0. *)
Theorem record_derisk_unchecked_key now trade_id k sold_price cancelled trades trade :
  lookup_trade trade_id trades = Some trade ->
  key (leg1 trade) ≠ k ->
  key (leg2 trade) ≠ k ->
  let entry_price :=
    match fill_price (leg2 trade) with
    | Some p => if p =? 0 then default 0 (order_price (leg2 trade)) else p
    | None => default 0 (order_price (leg2 trade))
    end in
  exists trade',
    fst (record_derisk now trade_id k sold_price cancelled trades) = true
    /\ lookup_trade trade_id
         (snd (record_derisk now trade_id k sold_price cancelled trades))
       = Some trade'
    /\ outcome trade' = derisked
    /\ pnl trade' = Some (sold_price - entry_price)
    /\ leg_status (leg2 trade') = Some Monitor.derisk_sold
    /\ leg_sold_price (leg2 trade') = Some sold_price
    /\ leg_pnl (leg2 trade') = Some (sold_price - entry_price)
    /\ leg_status (leg1 trade') = Some Monitor.derisk_cancelled.
Proof.
  intros Hl H1 H2 entry_price. unfold record_derisk. rewrite Hl. cbn [fst snd].
  rewrite lookup_modify_trade by (intros t; destruct (String.eqb _ _); reflexivity).
  rewrite Hl. cbn [fmap option_fmap option_map].
  destruct (String.eqb_spec (key (leg1 trade)) k) as [He|_]; [contradiction|].
  eexists. repeat split.
Qed.

Lemma record_derisk_unchecked_key_witness :
  exists trade',
    fst (record_derisk "t" "KXHIGHNY_2026-01-27" "no-such-leg" 45 "" Samples.ledger)
    = true
    /\ lookup_trade "KXHIGHNY_2026-01-27"
         (snd (record_derisk "t" "KXHIGHNY_2026-01-27" "no-such-leg" 45 ""
                 Samples.ledger))
       = Some trade'
    /\ outcome trade' = derisked
    /\ pnl trade' = Some (45 - 22)
    /\ leg_status (leg2 trade') = Some Monitor.derisk_sold
    /\ leg_sold_price (leg2 trade') = Some 45
    /\ leg_pnl (leg2 trade') = Some (45 - 22)
    /\ leg_status (leg1 trade') = Some Monitor.derisk_cancelled.
Proof.
  apply (record_derisk_unchecked_key "t" "KXHIGHNY_2026-01-27" "no-such-leg" 45 ""
           Samples.ledger Samples.trade_60).
  - reflexivity.
  - discriminate.
  - discriminate.
Defined.

(** X29.  No ledger call adds, removes or reorders trades, or changes
    any trade's id, market date or total cost; and it leaves every
    trade with another id exactly as it was. *)
Theorem ledger_call_frame call trades :
  map id (snd (run_call call trades)) = map id trades
  /\ map market_date (snd (run_call call trades)) = map market_date trades
  /\ map total_cost (snd (run_call call trades)) = map total_cost trades
  /\ forall trade_id,
       trade_id ≠ call_id call ->
       lookup_trade trade_id (snd (run_call call trades))
       = lookup_trade trade_id trades.
Proof.
  destruct (run_call_shape call trades) as [[_ ->]|[_ (f & -> & Hf)]].
  { repeat split. }
  split; [apply map_modify_trade; intros t; apply Hf|].
  split; [apply map_modify_trade; intros t; apply Hf|].
  split; [apply map_modify_trade; intros t; apply Hf|].
  intros tid Hne. apply lookup_modify_trade_ne; [intros t; apply Hf | exact Hne].
Qed.

Lemma run_calls_keeps calls trades trade_id trade :
  lookup_trade trade_id trades = Some trade ->
  exists trade',
    lookup_trade trade_id (run_calls calls trades) = Some trade'
    /\ total_cost trade' = total_cost trade
    /\ key (leg1 trade') = key (leg1 trade)
    /\ key (leg2 trade') = key (leg2 trade).
Proof.
  revert trades trade. induction calls as [|call calls IH]; intros trades trade Hl.
  - exists trade. repeat split. exact Hl.
  - cbn [run_calls fold_left]. fold (run_calls calls (snd (run_call call trades))).
    destruct (run_call_shape call trades) as [[_ Hs]|[_ (f & Hs & Hf)]]; rewrite Hs.
    + now apply IH.
    + destruct (decide (trade_id = call_id call)) as [->|Hne].
      * destruct (IH (modify_trade (call_id call) f trades) (f trade))
          as (t' & Hl' & Hc & H1 & H2).
        { rewrite lookup_modify_trade by (intros t; apply Hf). now rewrite Hl. }
        exists t'. destruct (Hf trade) as (_ & _ & Hc' & H1' & H2').
        repeat split; congruence.
      * apply IH. rewrite lookup_modify_trade_ne; [exact Hl | intros t; apply Hf | exact Hne].
Qed.

(** X30.  The ledger has no guard against settling a trade again: after
    any sequence of earlier calls, a loss recorded on a trade of the
    ledger sets its outcome to loss and its P&L to minus the total cost
    it was entered with, and a win recorded on one of its legs sets its
    outcome to win and its P&L to 100 minus that cost. *)
Theorem last_settlement_wins calls trades trade_id trade now actual_temp :
  lookup_trade trade_id trades = Some trade ->
  (exists trade',
      lookup_trade trade_id
        (snd (record_loss now trade_id actual_temp (run_calls calls trades)))
      = Some trade'
      /\ outcome trade' = loss
      /\ pnl trade' = Some (- total_cost trade))
  /\ forall k sold_price,
       key (leg1 trade) = k \/ key (leg2 trade) = k ->
       exists trade',
         lookup_trade trade_id
           (snd (record_win now trade_id k actual_temp sold_price
                   (run_calls calls trades)))
         = Some trade'
         /\ outcome trade' = win
         /\ pnl trade' = Some (100 - total_cost trade).
Proof.
  intros Hl. destruct (run_calls_keeps calls trades trade_id trade Hl)
    as (t0 & Hl0 & Hc & H1 & H2).
  split.
  - destruct (record_loss_found now trade_id actual_temp _ _ Hl0)
      as (t' & _ & Hl' & Ho & Hp).
    exists t'. repeat split; [exact Hl' | exact Ho | now rewrite Hp, Hc].
  - intros k sold_price Hk.
    destruct (record_win_found now trade_id k actual_temp sold_price _ _ Hl0)
      as (t' & _ & Hl' & Ho & Hp); [rewrite H1, H2; exact Hk|].
    exists t'. repeat split; [exact Hl' | exact Ho | now rewrite Hp, Hc].
Qed.

Lemma last_settlement_wins_witness :
  (exists trade',
      lookup_trade "KXHIGHNY_2026-01-27"
        (snd (record_loss "t2" "KXHIGHNY_2026-01-27" None
                (run_calls [CallWin "t1" "KXHIGHNY_2026-01-27"
                                    "KXHIGHNY-26JAN27-B49.5_yes" None 99]
                           Samples.ledger)))
      = Some trade'
      /\ outcome trade' = loss
      /\ pnl trade' = Some (- total_cost Samples.trade_60))
  /\ forall k sold_price,
       key (leg1 Samples.trade_60) = k \/ key (leg2 Samples.trade_60) = k ->
       exists trade',
         lookup_trade "KXHIGHNY_2026-01-27"
           (snd (record_win "t2" "KXHIGHNY_2026-01-27" k None sold_price
                   (run_calls [CallWin "t1" "KXHIGHNY_2026-01-27"
                                       "KXHIGHNY-26JAN27-B49.5_yes" None 99]
                              Samples.ledger)))
         = Some trade'
         /\ outcome trade' = win
         /\ pnl trade' = Some (100 - total_cost Samples.trade_60).
Proof.
  apply (last_settlement_wins
           [CallWin "t1" "KXHIGHNY_2026-01-27" "KXHIGHNY-26JAN27-B49.5_yes" None 99]
           Samples.ledger "KXHIGHNY_2026-01-27" Samples.trade_60 "t2" None).
  reflexivity.
Defined.

End LedgerExtra.
